(** * Drug-target affinity pipeline: a shallow embedding of [dta_cross.py]

    The development follows [src/code/dta_cross.py] and [src/code/layers.py]:
    the molecular graph builder, the dataset loader, the weighted loss, the
    early-stopping controller, the checkpoint functions, the forward pass of
    [AffinityPredictionModel], the training and evaluation loops, the
    bilinear pooling layer and the training log.

    Conventions.
    - Tensor entries are exact rationals ([Q]); a Python float that may be
      infinite or not-a-number (a loss value) is a [pyfloat].
    - A call that may raise returns an [outcome]: the exception or the value.
    - Library calls (RDKit, networkx, torch, torch_geometric, the pretrained
      encoder) are either modelled after the library's documented behaviour,
      and named after the call they stand for, or taken as parameters. *)

From Stdlib Require Import QArith Qround Qabs Qminmax.
From stdpp Require Import gmap strings list pretty.

Open Scope Z_scope.
Open Scope nat_scope.
Open Scope list_scope.

(** ** Python values *)

Inductive exn :=
| AssertionError (msg : string)
| RuntimeError (msg : string)
| IndexError (msg : string)
| TypeError (msg : string)
| ValueError (msg : string)
| ZeroDivisionError
| FileNotFoundError (path : string).

Inductive outcome (A : Type) :=
| Raise (e : exn)
| Ok (a : A).
Arguments Raise {A} _.
Arguments Ok {A} _.

Definition bind_outcome {A B} (c : outcome A) (k : A -> outcome B) : outcome B :=
  match c with
  | Raise e => Raise e
  | Ok a => k a
  end.

Notation "'do' x <- c ; k" := (bind_outcome c (fun x => k))
  (at level 10, x name, c at level 100, k at level 200).

(** A Python float: comparisons with [nan] are false, [inf] is larger than
    every finite value. *)
Inductive pyfloat :=
| nan
| neg_inf
| fin (q : Q)
| inf.

Definition Qltb (a b : Q) : bool := negb (Qle_bool b a).

Definition float_lt (a b : pyfloat) : bool :=
  match a, b with
  | nan, _ | _, nan => false
  | _, neg_inf => false
  | neg_inf, _ => true
  | inf, _ => false
  | fin _, inf => true
  | fin x, fin y => Qltb x y
  end.

Definition float_add (a b : pyfloat) : pyfloat :=
  match a, b with
  | nan, _ | _, nan => nan
  | inf, neg_inf | neg_inf, inf => nan
  | inf, _ | _, inf => inf
  | neg_inf, _ | _, neg_inf => neg_inf
  | fin x, fin y => fin (x + y)
  end.

(** [total / n] for a float [total] and an int [n] that came from [len]. *)
Definition float_div_len (a : pyfloat) (n : nat) : outcome pyfloat :=
  match n with
  | O => Raise ZeroDivisionError
  | S _ =>
      Ok match a with
         | fin x => fin (x / inject_Z (Z.of_nat n))
         | other => other
         end
  end.

(** ** Tensors

    A tensor of at most two dimensions: its shape, and its contents as rows
    (no rows for an empty one-dimensional tensor). *)

Record Tensor (A : Type) := mkTensor { shape : list nat; rows : list (list A) }.
Arguments mkTensor {A} _ _.
Arguments shape {A} _.
Arguments rows {A} _.

(** [torch.tensor(l)] for a Python list of equally long lists: the empty list
    gives the one-dimensional tensor of shape (0,). *)
Definition torch_tensor {A} (l : list (list A)) : Tensor A :=
  match l with
  | [] => mkTensor [0] []
  | r :: _ => mkTensor [length l; length r] l
  end.

Definition column {A} (d : A) (j : nat) (m : list (list A)) : list A :=
  map (fun r => nth j r d) m.

(** [Tensor.t()]: a two-dimensional tensor is transposed, a tensor of fewer
    dimensions is returned as it is. *)
Definition t {A} (d : A) (x : Tensor A) : Tensor A :=
  match shape x with
  | [n; m] => mkTensor [m; n] (map (fun j => column d j (rows x)) (seq 0 m))
  | _ => x
  end.

(** ** networkx: [nx.Graph]

    [_node] and [_adj] are dicts, which keep insertion order; the inner
    adjacency dicts are kept as the ordered list of their keys (the edge data
    dicts are empty here). *)

Module nx.

Fixpoint dict_set {V} (k : nat) (v : V) (d : list (nat * V)) : list (nat * V) :=
  match d with
  | [] => [(k, v)]
  | (k', v') :: d' =>
      if decide (k' = k) then (k', v) :: d' else (k', v') :: dict_set k v d'
  end.

Fixpoint dict_get {V} (k : nat) (d : list (nat * V)) : option V :=
  match d with
  | [] => None
  | (k', v') :: d' => if decide (k' = k) then Some v' else dict_get k d'
  end.

Definition dict_mem {V} (k : nat) (d : list (nat * V)) : bool :=
  match dict_get k d with Some _ => true | None => false end.

Record Graph := mkGraph {
  _node : list (nat * list Z);
  _adj : list (nat * list nat)
}.

Definition empty : Graph := mkGraph [] [].

(** [G.add_node(n, features=f)] *)
Definition add_node (n : nat) (f : list Z) (G : Graph) : Graph :=
  if dict_mem n (_node G)
  then mkGraph (dict_set n f (_node G)) (_adj G)
  else mkGraph (dict_set n f (_node G)) (dict_set n [] (_adj G)).

Definition touch (n : nat) (G : Graph) : Graph :=
  if dict_mem n (_node G) then G
  else mkGraph (dict_set n [] (_node G)) (dict_set n [] (_adj G)).

(** [self._adj[u][v] = datadict] *)
Definition link (u v : nat) (adj : list (nat * list nat)) : list (nat * list nat) :=
  match dict_get u adj with
  | Some nbrs => dict_set u (if bool_decide (v ∈ nbrs) then nbrs else nbrs ++ [v]) adj
  | None => adj
  end.

(** [G.add_edge(u, v)] *)
Definition add_edge (u v : nat) (G : Graph) : Graph :=
  let G1 := touch v (touch u G) in
  mkGraph (_node G1) (link v u (link u v (_adj G1))).

(** Iterating [G.edges]: every node in turn, each neighbour that was not
    itself iterated before. *)
Fixpoint edges_from (seen : list nat) (adj : list (nat * list nat)) : list (nat * nat) :=
  match adj with
  | [] => []
  | (n, nbrs) :: rest =>
      map (pair n) (filter (fun nbr => nbr ∉ seen) nbrs) ++ edges_from (n :: seen) rest
  end.

Definition edges (G : Graph) : list (nat * nat) := edges_from [] (_adj G).

Definition nodes (G : Graph) : list nat := map fst (_node G).

End nx.

(** ** RDKit molecules, as far as [smiles_to_graph] reads them *)

Record Atom := mkAtom {
  GetAtomicNum : Z;
  GetHybridization : Z;
  GetChiralTag : Z;
  GetDegree : Z
}.

Record Bond := mkBond {
  GetBeginAtomIdx : nat;
  GetEndAtomIdx : nat;
  GetBondTypeAsDouble : Q;
  GetBondDir : Z;
  GetIsAromatic : bool
}.

(** [GetIdx] of an atom is its position in [GetAtoms]. *)
Record Mol := mkMol { GetAtoms : list Atom; GetBonds : list Bond }.

(** ** Molecular graphs ([torch_geometric.data.Data]) *)

Record Data := mkData {
  x : Tensor Q;
  edge_index : Tensor nat;
  edge_attr : Tensor Q;
  num_nodes : nat;
  num_edges : nat
}.

Definition int_of_bool (b : bool) : Z := if b then 1%Z else 0%Z.

Definition node_feature (atom : Atom) : list Z :=
  [GetAtomicNum atom; GetHybridization atom; GetChiralTag atom; GetDegree atom].

Definition edge_feature (bond : Bond) : list Q :=
  [GetBondTypeAsDouble bond; inject_Z (GetBondDir bond);
   inject_Z (int_of_bool (GetIsAromatic bond))].

(** The first loop of [smiles_to_graph]: the node features and the nodes of [G]. *)
Definition atom_loop (atoms : list Atom) : list (list Z) * nx.Graph :=
  fold_left
    (fun (acc : list (list Z) * nx.Graph) (ia : nat * Atom) =>
       let f := node_feature (snd ia) in
       (fst acc ++ [f], nx.add_node (fst ia) f (snd acc)))
    (zip (seq 0 (length atoms)) atoms)
    ([], nx.empty).

(** The second loop: the edge features and the edges of [G]. *)
Definition bond_loop (bonds : list Bond) (G : nx.Graph) : list (list Q) * nx.Graph :=
  fold_left
    (fun (acc : list (list Q) * nx.Graph) (bond : Bond) =>
       let start_idx := GetBeginAtomIdx bond in
       let end_idx := GetEndAtomIdx bond in
       (fst acc ++ [edge_feature bond], nx.add_edge start_idx end_idx (snd acc)))
    bonds
    ([], G).

Definition pair_to_list (e : nat * nat) : list nat := [fst e; snd e].

Definition mol_to_graph (mol : Mol) : Data :=
  let '(node_features, G0) := atom_loop (GetAtoms mol) in
  let '(edge_features, G) := bond_loop (GetBonds mol) G0 in
  mkData
    (torch_tensor (map (map inject_Z) node_features))
    (t 0 (torch_tensor (map pair_to_list (nx.edges G))))
    (torch_tensor edge_features)
    (length (nx.nodes G))
    (length (nx.edges G)).

Section GraphBuilder.

(** [Chem.MolFromSmiles]: [None] when the string does not parse. *)
Variable MolFromSmiles : string -> option Mol.

Definition smiles_to_graph (smiles : string) : option Data :=
  match MolFromSmiles smiles with
  | None => None
  | Some mol => Some (mol_to_graph mol)
  end.

(** ** Dataset loader *)

Record Row := mkRow {
  iso_smiles : string;
  target_sequence : string;
  affinity : Q
}.

Record Loaded := mkLoaded {
  smiles_strs : list string;
  graphs : list Data;
  sequences : list string;
  affinities : list Q
}.

Definition load_row (acc : Loaded) (row : Row) : Loaded :=
  let smiles_strs' := smiles_strs acc ++ [iso_smiles row] in
  match smiles_to_graph (iso_smiles row) with
  | None => mkLoaded smiles_strs' (graphs acc) (sequences acc) (affinities acc)
  | Some graph =>
      mkLoaded smiles_strs'
               (graphs acc ++ [graph])
               (sequences acc ++ [target_sequence row])
               (affinities acc ++ [affinity row])
  end.

(** [load_dataset], on the rows that [pd.read_csv] read and [iterrows]
    yields in file order. *)
Definition load_dataset (data : list Row) : Loaded :=
  fold_left load_row data (mkLoaded [] [] [] []).

End GraphBuilder.

(** ** Predictions, targets and losses: tensors of dimension 0 or 1 *)

Inductive vec :=
| Scalar (a : Q)
| Vec (v : list Q).

Definition vmap (f : Q -> Q) (a : vec) : vec :=
  match a with
  | Scalar a => Scalar (f a)
  | Vec v => Vec (map f v)
  end.

Fixpoint zip_with_Q (f : Q -> Q -> Q) (a b : list Q) : list Q :=
  match a, b with
  | a0 :: a', b0 :: b' => f a0 b0 :: zip_with_Q f a' b'
  | _, _ => []
  end.

(** An elementwise operation with torch's broadcasting: equal lengths, or
    one side of length one (or of dimension 0). *)
Definition broadcast2 (f : Q -> Q -> Q) (a b : vec) : outcome vec :=
  match a, b with
  | Scalar a, Scalar b => Ok (Scalar (f a b))
  | Scalar a, Vec v => Ok (Vec (map (f a) v))
  | Vec v, Scalar b => Ok (Vec (map (fun a => f a b) v))
  | Vec u, Vec v =>
      if decide (length u = length v) then Ok (Vec (zip_with_Q f u v))
      else match u, v with
           | [a], _ => Ok (Vec (map (f a) v))
           | _, [b] => Ok (Vec (map (fun a => f a b) u))
           | _, _ => Raise (RuntimeError "The size of tensor a must match the size of tensor b")
           end
  end.

Definition Qsum (v : list Q) : Q := fold_right Qplus 0%Q v.

(** [torch.mean]: the mean of no element is [nan]. *)
Definition torch_mean (a : vec) : pyfloat :=
  match a with
  | Scalar a => fin a
  | Vec [] => nan
  | Vec v => fin (Qsum v / inject_Z (Z.of_nat (length v)))
  end.

(** ** Weighted loss *)

Record WeightedMSELoss := mkWeightedMSELoss { weight : Q }.

Definition WeightedMSELoss_forward (self : WeightedMSELoss) (preds targets : vec)
  : outcome pyfloat :=
  let weights := vmap (fun t => if Qltb 5 t then weight self else 1%Q) targets in
  do d <- broadcast2 Qminus preds targets;
  do e <- broadcast2 Qmult weights (vmap (fun d => (d ^ 2)%Q) d);
  Ok (torch_mean e).

(** ** Formatting *)

Definition round_half_even (q : Q) : Z :=
  let f := Qfloor q in
  match (q - inject_Z f ?= 1 # 2)%Q with
  | Lt => f
  | Gt => (f + 1)%Z
  | Eq => if Z.even f then f else (f + 1)%Z
  end.

Definition pad4 (n : Z) : string :=
  let s := pretty n in
  String.concat "" (replicate (4 - String.length s) "0") +:+ s.

(** The format specification [:.4f]. *)
Definition format_4f (f : pyfloat) : string :=
  match f with
  | nan => "nan"
  | inf => "inf"
  | neg_inf => "-inf"
  | fin q =>
      let n := round_half_even (Qabs q * 10000) in
      (if Qltb q 0 then "-" else "")
        +:+ pretty (n / 10000)%Z +:+ "." +:+ pad4 (n mod 10000)%Z
  end.

(** ** Optimizer objects and checkpoint bundles *)

Record ParamGroup := mkParamGroup {
  hyper : gmap string Q;
  group_params : list nat
}.

(** An optimizer, its parameters named by their position as in its
    [state_dict()]. *)
Record Optimizer := mkOptimizer {
  opt_state : gmap nat (list (Tensor Q));
  param_groups : list ParamGroup
}.

Record Bundle := mkBundle {
  b_epoch : Z;
  b_model_state_dict : gmap string (Tensor Q);
  b_optimizer_state_dict : Optimizer;
  b_loss : pyfloat
}.

(** The [last_hidden_state] of the pretrained model: a tensor of shape
    (batch, tokens, hidden). *)
Record HiddenStates := mkHiddenStates {
  hs_batch : nat;
  hs_tokens : nat;
  hs_hidden : nat;
  hs_data : list (list (list Q))
}.

(** ** What the libraries and the missing parts of the repository provide

    The library layers are total here: a failure inside one of them is not
    modelled. *)

Class Externals := {
  (** the state of torch's random generator *)
  Rng : Type;
  (** the [.grad] fields of the model parameters *)
  Grads : Type;
  (** [os.path.join] *)
  path_join : string -> string -> string;
  (** the tokenizer followed by the pretrained model *)
  pretrained_model :
    gmap string (Tensor Q) -> bool -> Rng -> list string -> HiddenStates * Rng;
  (** [GINEConv(nn, edge_dim)(x, edge_index, edge_attr)], by module name *)
  GINEConv :
    string -> gmap string (Tensor Q) -> Tensor Q -> Tensor nat -> Tensor Q -> Tensor Q;
  (** [nn.MultiheadAttention(embed_dim, num_heads, dropout)(query, key, value)]
      on sequences of length one, the attention output *)
  MultiheadAttention :
    string -> nat -> nat -> Q -> gmap string (Tensor Q) -> bool -> Rng ->
    Tensor Q -> Tensor Q -> Tensor Q -> Tensor Q * Rng;
  (** [CapsuleLayer(input_dim, output_dim, num_capsules)(x)]: the class is
      used by [dta_cross.py] and is not defined in [layers.py] *)
  CapsuleLayer :
    string -> nat -> nat -> nat -> gmap string (Tensor Q) -> bool -> Rng ->
    Tensor Q -> Tensor Q * Rng;
  (** the mask that dropout with probability [p] draws for [n] entries *)
  dropout_mask : Q -> nat -> Rng -> list bool * Rng;
  (** the gradient that [loss.backward()] accumulates for a loss function,
      the state the forward pass started from, and a batch *)
  autograd :
    (vec -> vec -> outcome pyfloat) ->
    gmap string (Tensor Q) -> bool -> Rng -> list string -> list nat ->
    Tensor Q -> Tensor nat -> Tensor Q -> vec -> Grads -> Grads;
  (** the gradients after [optimizer.zero_grad()] *)
  zero_grads : Grads -> Grads;
  (** [optimizer.step()] *)
  optimizer_update :
    Optimizer -> gmap string (Tensor Q) -> Grads -> gmap string (Tensor Q) * Optimizer;
  mean_squared_error : list Q -> list Q -> outcome pyfloat;
  r2_score : list Q -> list Q -> outcome pyfloat;
  concordance_index : list Q -> list Q -> outcome pyfloat;
  np_sqrt : pyfloat -> pyfloat
}.

(** ** The objects the program mutates *)

Record World `{Externals} := mkWorld {
  params : gmap string (Tensor Q);      (* the model's [state_dict()] *)
  training : bool;                      (* [model.training] *)
  grads : Grads;
  optimizer : Optimizer;
  rng : Rng;
  files : gmap string Bundle;           (* what [torch.save] wrote, by path *)
  dirs : gset string;                   (* the directories that exist *)
  stdout : list string
}.
Arguments mkWorld {_} _ _ _ _ _ _ _ _.

Section Pipeline.

Context `{Externals}.

Definition M (A : Type) : Type := World -> outcome A * World.

Definition ret {A} (a : A) : M A := fun w => (Ok a, w).

Definition bind {A B} (c : M A) (k : A -> M B) : M B :=
  fun w =>
    match c w with
    | (Raise e, w') => (Raise e, w')
    | (Ok a, w') => k a w'
    end.

Definition lift {A} (c : outcome A) : M A := fun w => (c, w).

Definition raise {A} (e : exn) : M A := fun w => (Raise e, w).

Definition get {A} (f : World -> A) : M A := fun w => (Ok (f w), w).

Definition modify (f : World -> World) : M unit := fun w => (Ok tt, f w).

Definition with_rng {A} (f : Rng -> A * Rng) : M A :=
  fun w =>
    let '(a, r) := f (rng w) in
    (Ok a, mkWorld (params w) (training w) (grads w) (optimizer w) r
                   (files w) (dirs w) (stdout w)).

Definition set_training (b : bool) (w : World) : World :=
  mkWorld (params w) b (grads w) (optimizer w) (rng w) (files w) (dirs w) (stdout w).

Definition set_grads (g : Grads) (w : World) : World :=
  mkWorld (params w) (training w) g (optimizer w) (rng w) (files w) (dirs w) (stdout w).

Definition set_params_optimizer (p : gmap string (Tensor Q)) (o : Optimizer)
           (w : World) : World :=
  mkWorld p (training w) (grads w) o (rng w) (files w) (dirs w) (stdout w).

Definition set_files (f : gmap string Bundle) (w : World) : World :=
  mkWorld (params w) (training w) (grads w) (optimizer w) (rng w) f (dirs w) (stdout w).

Definition set_dirs (d : gset string) (w : World) : World :=
  mkWorld (params w) (training w) (grads w) (optimizer w) (rng w) (files w) d (stdout w).

Definition print (line : string) : M unit :=
  modify (fun w =>
    mkWorld (params w) (training w) (grads w) (optimizer w) (rng w)
            (files w) (dirs w) (stdout w ++ [line])).

End Pipeline.

Notation "'do' x <~ c ; k" := (bind c (fun x => k))
  (at level 10, x name, c at level 100, k at level 200).
Notation "c ;;; k" := (bind c (fun _ => k))
  (at level 100, k at level 200, right associativity).

(** ** Tensor operations of the forward pass *)

(** [x.size(i)] *)
Definition size {A} (x : Tensor A) (i : nat) : outcome nat :=
  match shape x !! i with
  | Some n => Ok n
  | None => Raise (IndexError "Dimension out of range")
  end.

Definition relu (x : Tensor Q) : Tensor Q :=
  mkTensor (shape x) (map (map (Qmax 0)) (rows x)).

(** [torch.zeros(n, k)] *)
Definition torch_zeros (n k : nat) : Tensor Q :=
  mkTensor [n; k] (replicate n (replicate k 0%Q)).

Definition has_rows (n : nat) (x : Tensor Q) : bool :=
  match shape x with
  | [n'; _] => bool_decide (n' = n)
  | _ => false
  end.

Definition widths (ts : list (Tensor Q)) : list nat :=
  map (fun x => nth 1 (shape x) 0) ts.

Fixpoint cat_rows (ms : list (list (list Q))) (n : nat) : list (list Q) :=
  match ms with
  | [] => replicate n []
  | m :: ms' => zip_with app m (cat_rows ms' n)
  end.

(** [torch.cat(ts, dim=-1)] for two-dimensional tensors: the numbers of rows
    must agree, the rows are joined in the order of the list. *)
Definition torch_cat (ts : list (Tensor Q)) : outcome (Tensor Q) :=
  match ts with
  | [] => Raise (RuntimeError "torch.cat(): expected a non-empty list of Tensors")
  | x0 :: _ =>
      match shape x0 with
      | [n; _] =>
          if forallb (has_rows n) ts
          then Ok (mkTensor [n; sum_list (widths ts)] (cat_rows (map rows ts) n))
          else Raise (RuntimeError "Sizes of tensors must match except in dimension 1")
      | _ => Raise (RuntimeError "torch.cat(): tensors of two dimensions are expected")
      end
  end.

(** The size of a broadcast dimension. *)
Definition bdim (a b : nat) : option nat :=
  if decide (a = b) then Some a
  else if decide (a = 1) then Some b
  else if decide (b = 1) then Some a
  else None.

Definition expand {A} (d : A) (k : nat) (l : list A) : list A :=
  if decide (length l = k) then l else replicate k (nth 0 l d).

(** [a * b], elementwise, for two-dimensional tensors. *)
Definition torch_mul (a b : Tensor Q) : outcome (Tensor Q) :=
  match shape a, shape b with
  | [n; p], [m; q] =>
      match bdim n m, bdim p q with
      | Some r, Some c =>
          Ok (mkTensor [r; c]
                (zip_with (fun ra rb => zip_with Qmult (expand 0%Q c ra) (expand 0%Q c rb))
                          (expand [] r (rows a)) (expand [] r (rows b))))
      | _, _ => Raise (RuntimeError "The size of tensor a must match the size of tensor b")
      end
  | _, _ => Raise (RuntimeError "tensors of two dimensions are expected")
  end.

Definition entry (W : Tensor Q) (j i : nat) : Q := nth i (nth j (rows W) []) 0%Q.

Definition dot (W : Tensor Q) (j : nat) (r : list Q) : Q :=
  Qsum (imap (fun i a => (entry W j i * a)%Q) r).

(** The rows of [x.squeeze()] for [x] of shape (n, 1): a tensor of shape (n,),
    of dimension 0 when n = 1. *)
Definition squeeze (x : Tensor Q) : vec :=
  match concat (rows x) with
  | [a] => Scalar a
  | v => Vec v
  end.

(** [global_mean_pool(x, batch)]: one row per index up to the largest one in
    [batch], the mean of the rows of [x] assigned to it. *)
Definition pool_size (batch : list nat) : nat :=
  match batch with
  | [] => 0
  | _ => S (max_list batch)
  end.

Definition rows_of (j : nat) (batch : list nat) (m : list (list Q)) : list (list Q) :=
  map snd (filter (fun p => fst p = j) (zip batch m)).

Definition mean_row (w : nat) (sel : list (list Q)) : list Q :=
  map (fun c => (Qsum (column 0%Q c sel) / inject_Z (Z.of_nat (Nat.max 1 (length sel))))%Q)
      (seq 0 w).

Definition global_mean_pool (x : Tensor Q) (batch : list nat) : outcome (Tensor Q) :=
  match shape x with
  | [n; w] =>
      if decide (n = length batch)
      then Ok (mkTensor [pool_size batch; w]
                 (map (fun j => mean_row w (rows_of j batch (rows x)))
                      (seq 0 (pool_size batch))))
      else Raise (RuntimeError "The expanded size of the tensor must match the existing size")
  | _ => Raise (RuntimeError "node features of two dimensions are expected")
  end.

(** ** Batched graphs ([torch_geometric.data.Batch]) with the attached
    sequences and affinities *)

Module Batch.
Record t := mk {
  x : Tensor Q;
  edge_index : Tensor nat;
  edge_attr : Tensor Q;
  batch : list nat;
  sequences : list string;
  affinities : vec
}.
End Batch.

(** ** Layers ([layers.py]) *)

(** [nn.Linear(in_features, out_features)], its weight and bias stored in
    the parameters under the module's name. *)
Record Linear := mkLinear {
  l_name : string;
  in_features : nat;
  out_features : nat
}.

Record CrossLayer := mkCrossLayer {
  cl_fc1 : Linear;
  cl_fc2 : Linear;
  cl_fc3 : Linear
}.

Definition CrossLayer_init (name : string) (input_dim hidden_dim : nat) : CrossLayer :=
  mkCrossLayer (mkLinear (name +:+ ".fc1") input_dim hidden_dim)
               (mkLinear (name +:+ ".fc2") hidden_dim hidden_dim)
               (mkLinear (name +:+ ".fc3") hidden_dim 1).

Record SelfAttentionLayer := mkSelfAttentionLayer {
  sa_name : string;
  query_proj : Linear;
  key_proj : Linear;
  value_proj : Linear;
  sa_embed_dim : nat
}.

Definition SelfAttentionLayer_init (name : string) (input_dim attention_dim : nat)
  : SelfAttentionLayer :=
  mkSelfAttentionLayer name
    (mkLinear (name +:+ ".query_proj") input_dim attention_dim)
    (mkLinear (name +:+ ".key_proj") input_dim attention_dim)
    (mkLinear (name +:+ ".value_proj") input_dim attention_dim)
    attention_dim.

Record CrossAttentionLayer := mkCrossAttentionLayer {
  ca_name : string;
  protein_query : Linear;
  drug_query : Linear;
  ca_embed_dim : nat;
  protein_output : Linear;
  drug_output : Linear;
  fusion_fc : Linear
}.

Definition CrossAttentionLayer_init (name : string)
           (protein_dim drug_dim hidden_dim fusion_dim : nat) : CrossAttentionLayer :=
  mkCrossAttentionLayer name
    (mkLinear (name +:+ ".protein_query") protein_dim hidden_dim)
    (mkLinear (name +:+ ".drug_query") drug_dim hidden_dim)
    hidden_dim
    (mkLinear (name +:+ ".protein_output") hidden_dim protein_dim)
    (mkLinear (name +:+ ".drug_output") hidden_dim drug_dim)
    (mkLinear (name +:+ ".fusion_fc") (protein_dim + drug_dim) fusion_dim).

Record CapsuleLayerConfig := mkCapsuleLayer {
  caps_name : string;
  caps_input_dim : nat;
  caps_output_dim : nat;
  num_capsules : nat
}.

(** ** The top-level model *)

Record AffinityPredictionModel := mkModel {
  cross_layer : CrossLayer;
  attention_layer : CrossAttentionLayer;
  self_attention : SelfAttentionLayer;
  protein_capsule : CapsuleLayerConfig;
  drug_capsule : CapsuleLayerConfig;
  fc1 : Linear;
  fc2 : Linear;
  fc3 : Linear
}.

(** The head width that [__init__] computes. *)
Definition output_dim (protein_dim drug_dim attention_dim : nat) : nat :=
  protein_dim + drug_dim + 1 + attention_dim + attention_dim * 2.

(** [AffinityPredictionModel.__init__]: the modules and their sizes (the
    initial parameter values are drawn by torch). The two encoders have fixed
    names and the sizes written in [GNNEncoder_forward]'s caller. *)
Definition AffinityPredictionModel_init
           (protein_dim drug_dim hidden_dim attention_dim capsule_dim : nat)
  : AffinityPredictionModel :=
  let cross_dim := Nat.max protein_dim drug_dim * 3 in
  let output_dim := output_dim protein_dim drug_dim attention_dim in
  mkModel
    (CrossLayer_init "cross_layer" cross_dim hidden_dim)
    (CrossAttentionLayer_init "attention_layer" protein_dim drug_dim attention_dim attention_dim)
    (SelfAttentionLayer_init "self_attention" drug_dim attention_dim)
    (mkCapsuleLayer "protein_capsule" protein_dim capsule_dim 8)
    (mkCapsuleLayer "drug_capsule" drug_dim capsule_dim 8)
    (mkLinear "fc1" output_dim (output_dim / 2))
    (mkLinear "fc2" (output_dim / 2) (output_dim / 4))
    (mkLinear "fc3" (output_dim / 4) 1).

Section Model.

Context `{Externals}.

Definition param (p : gmap string (Tensor Q)) (name : string) : Tensor Q :=
  default (mkTensor [0] []) (p !! name).

(** [F.linear(x, weight, bias)] for [x] of shape (n, k): [k] must be the
    layer's [in_features]. *)
Definition Linear_forward (p : gmap string (Tensor Q)) (l : Linear) (x : Tensor Q)
  : outcome (Tensor Q) :=
  let W := param p (l_name l +:+ ".weight") in
  let b := concat (rows (param p (l_name l +:+ ".bias"))) in
  match shape x with
  | [n; k] =>
      if decide (k = in_features l)
      then Ok (mkTensor [n; out_features l]
                 (map (fun r => map (fun j => (dot W j r + nth j b 0)%Q)
                                    (seq 0 (out_features l)))
                      (rows x)))
      else Raise (RuntimeError "mat1 and mat2 shapes cannot be multiplied")
  | _ => Raise (RuntimeError "an input of two dimensions is expected")
  end.

Definition linear (l : Linear) (x : Tensor Q) : M (Tensor Q) :=
  do p <~ get params;
  lift (Linear_forward p l x).

Definition apply_mask (p : Q) (mask : list bool) (x : Tensor Q) : Tensor Q :=
  let w := nth 1 (shape x) 0 in
  mkTensor (shape x)
    (imap (fun j r =>
             imap (fun i a => if nth (j * w + i) mask true then (a / (1 - p))%Q else 0%Q) r)
          (rows x)).

(** [nn.Dropout(p)]: the identity in evaluation mode. *)
Definition Dropout (p : Q) (x : Tensor Q) : M (Tensor Q) :=
  do tr <~ get training;
  if (tr : bool)
  then do mask <~ with_rng (dropout_mask p (length (concat (rows x))));
       ret (apply_mask p mask x)
  else ret x.

Definition ProteinEncoder_forward (batch_sequences : list string) : M (Tensor Q) :=
  do p <~ get params;
  do tr <~ get training;
  do outputs <~ with_rng (fun r => pretrained_model p tr r batch_sequences);
  match hs_tokens outputs with
  | O => raise (IndexError "index 0 is out of bounds for dimension 1 with size 0")
  | S _ =>
      ret (mkTensor [hs_batch outputs; hs_hidden outputs]
                    (map (fun tokens => nth 0 tokens []) (hs_data outputs)))
  end.

Definition GNNEncoder_forward (x : Tensor Q) (edge_index : Tensor nat)
           (edge_attr : Tensor Q) (batch : list nat) : M (Tensor Q) :=
  do p <~ get params;
  let x := relu (GINEConv "drug_encoder.conv1" p x edge_index edge_attr) in
  let x := relu (GINEConv "drug_encoder.conv2" p x edge_index edge_attr) in
  lift (global_mean_pool x batch).

Definition CrossLayer_pad (e : Tensor Q) (max_dim : nat) : M (Tensor Q) :=
  do n <~ lift (size e 0);
  do d <~ lift (size e 1);
  lift (torch_cat [e; torch_zeros n (max_dim - d)]).

Definition CrossLayer_forward (self : CrossLayer)
           (protein_embedding drug_embedding : Tensor Q) : M (Tensor Q) :=
  do d1 <~ lift (size protein_embedding 1);
  do d2 <~ lift (size drug_embedding 1);
  do padded <~
    (if decide (d1 = d2) then ret (protein_embedding, drug_embedding)
     else
       let max_dim := Nat.max d1 d2 in
       do pe <~ CrossLayer_pad protein_embedding max_dim;
       do de <~ CrossLayer_pad drug_embedding max_dim;
       ret (pe, de));
  let protein_embedding := fst padded in
  let drug_embedding := snd padded in
  do cross_product <~ lift (torch_mul protein_embedding drug_embedding);
  do concatenated <~ lift (torch_cat [protein_embedding; drug_embedding; cross_product]);
  do x <~ linear (cl_fc1 self) concatenated;
  do x <~ linear (cl_fc2 self) (relu x);
  linear (cl_fc3 self) (relu x).

Definition attend (name : string) (embed_dim num_heads : nat) (dropout : Q)
           (query key value : Tensor Q) : M (Tensor Q) :=
  do p <~ get params;
  do tr <~ get training;
  with_rng (fun r => MultiheadAttention name embed_dim num_heads dropout p tr r
                                        query key value).

Definition SelfAttentionLayer_forward (self : SelfAttentionLayer) (x : Tensor Q)
  : M (Tensor Q) :=
  do query <~ linear (query_proj self) x;
  do key <~ linear (key_proj self) x;
  do value <~ linear (value_proj self) x;
  attend (sa_name self +:+ ".attention") (sa_embed_dim self) 4 (1 # 10) query key value.

Definition CrossAttentionLayer_forward (self : CrossAttentionLayer)
           (protein drug : Tensor Q) : M (Tensor Q) :=
  let attn := attend (ca_name self +:+ ".attn") (ca_embed_dim self) 8 0 in
  do protein_query <~ linear (protein_query self) protein;
  do drug_query <~ linear (drug_query self) drug;
  do protein_attention <~ attn protein_query drug_query drug_query;
  do drug_attention <~ attn drug_query protein_query protein_query;
  do fused_protein <~ linear (protein_output self) protein_attention;
  do fused_drug <~ linear (drug_output self) drug_attention;
  do combined <~ lift (torch_cat [fused_protein; fused_drug]);
  linear (fusion_fc self) combined.

Definition CapsuleLayer_forward (self : CapsuleLayerConfig) (x : Tensor Q) : M (Tensor Q) :=
  do p <~ get params;
  do tr <~ get training;
  with_rng (fun r => CapsuleLayer (caps_name self) (caps_input_dim self)
                                  (caps_output_dim self) (num_capsules self) p tr r x).

Definition mismatch_message (n_protein n_drug : nat) : string :=
  "Batch size mismatch: " +:+ pretty n_protein +:+ " (protein) vs "
    +:+ pretty n_drug +:+ " (drug)".

(** The two encoders of [forward]. *)
Definition embeddings (protein_seq : list string) (drug_graph : Batch.t)
  : M (Tensor Q * Tensor Q) :=
  do protein_embedding <~ ProteinEncoder_forward protein_seq;
  do drug_embedding <~
    GNNEncoder_forward (Batch.x drug_graph) (Batch.edge_index drug_graph)
                       (Batch.edge_attr drug_graph) (Batch.batch drug_graph);
  ret (protein_embedding, drug_embedding).

(** The fusion signals of [forward] and their concatenation: the input of
    the head. *)
Definition fusion (self : AffinityPredictionModel)
           (protein_embedding drug_embedding : Tensor Q) : M (Tensor Q) :=
  do cross <~ CrossLayer_forward (cross_layer self) protein_embedding drug_embedding;
  do attention_output <~
    CrossAttentionLayer_forward (attention_layer self) protein_embedding drug_embedding;
  do self_attn <~ SelfAttentionLayer_forward (self_attention self) drug_embedding;
  do protein_caps <~ CapsuleLayer_forward (protein_capsule self) protein_embedding;
  do drug_caps <~ CapsuleLayer_forward (drug_capsule self) drug_embedding;
  lift (torch_cat [protein_embedding; drug_embedding; cross; attention_output;
                   protein_caps; drug_caps]).

Definition assert_same_batch_size (protein_embedding drug_embedding : Tensor Q) : M unit :=
  do n_protein <~ lift (size protein_embedding 0);
  do n_drug <~ lift (size drug_embedding 0);
  if decide (n_protein = n_drug) then ret tt
  else raise (AssertionError (mismatch_message n_protein n_drug)).

(** [forward] up to and including [torch.cat]. *)
Definition head_input (self : AffinityPredictionModel)
           (protein_seq : list string) (drug_graph : Batch.t) : M (Tensor Q) :=
  do pd <~ embeddings protein_seq drug_graph;
  let protein_embedding := fst pd in
  let drug_embedding := snd pd in
  assert_same_batch_size protein_embedding drug_embedding ;;;
  fusion self protein_embedding drug_embedding.

(** The rest of [forward]: the three linear layers and [squeeze]. *)
Definition regression_head (self : AffinityPredictionModel) (combined : Tensor Q) : M vec :=
  do x <~ linear (fc1 self) combined;
  do x <~ Dropout (2 # 10) (relu x);
  do x <~ linear (fc2 self) x;
  do x <~ Dropout (2 # 10) (relu x);
  do x <~ linear (fc3 self) x;
  ret (squeeze x).

Definition forward (self : AffinityPredictionModel)
           (protein_seq : list string) (drug_graph : Batch.t) : M vec :=
  do combined <~ head_input self protein_seq drug_graph;
  regression_head self combined.

End Model.

Section Loops.

Context `{Externals}.

(** ** Training loop *)

Definition optimizer_zero_grad : M unit :=
  modify (fun w => set_grads (zero_grads (grads w)) w).

Definition loss_backward (loss_fn : vec -> vec -> outcome pyfloat)
           (before : World) (batch : Batch.t) : M unit :=
  modify (fun w =>
    set_grads
      (autograd loss_fn (params before) (training before) (rng before)
                (Batch.sequences batch) (Batch.batch batch) (Batch.x batch)
                (Batch.edge_index batch) (Batch.edge_attr batch)
                (Batch.affinities batch) (grads w))
      w).

Definition optimizer_step : M unit :=
  modify (fun w =>
    let '(p, o) := optimizer_update (optimizer w) (params w) (grads w) in
    set_params_optimizer p o w).

(** The body of the [for] loop of [train_model]; its value is [loss.item()]. *)
Definition train_batch (model : AffinityPredictionModel)
           (loss_fn : vec -> vec -> outcome pyfloat) (batch : Batch.t) : M pyfloat :=
  let graphs := batch in
  let sequences := Batch.sequences batch in
  let affinities := Batch.affinities batch in
  optimizer_zero_grad ;;;
  do before <~ get id;
  do predictions <~ forward model sequences graphs;
  do loss <~ lift (loss_fn predictions affinities);
  loss_backward loss_fn before batch ;;;
  optimizer_step ;;;
  ret loss.

Fixpoint train_loop (model : AffinityPredictionModel)
         (loss_fn : vec -> vec -> outcome pyfloat)
         (batches : list Batch.t) (total_loss : pyfloat) : M pyfloat :=
  match batches with
  | [] => ret total_loss
  | batch :: rest =>
      do loss <~ train_batch model loss_fn batch;
      train_loop model loss_fn rest (float_add total_loss loss)
  end.

(** [train_model]; [data_loader] is the list of batches the loader yields in
    this pass, the device is left out. *)
Definition train_model (model : AffinityPredictionModel) (data_loader : list Batch.t)
           (criterion : vec -> vec -> outcome pyfloat) : M pyfloat :=
  modify (set_training true) ;;;
  let total_loss := fin 0 in
  let loss_fn := WeightedMSELoss_forward (mkWeightedMSELoss 10) in
  do total_loss <~ train_loop model loss_fn data_loader total_loss;
  lift (float_div_len total_loss (length data_loader)).

(** ** Metrics *)

Record Metrics := mkMetrics {
  MSE : pyfloat;
  RMSE : pyfloat;
  R2 : pyfloat;
  CI : pyfloat
}.

Definition compute_metrics (y_true y_pred : list Q) : outcome Metrics :=
  do mse <- mean_squared_error y_true y_pred;
  let rmse := np_sqrt mse in
  do r2 <- r2_score y_true y_pred;
  do ci <- concordance_index y_true y_pred;
  Ok (mkMetrics mse rmse r2 ci).

(** ** Evaluation loop *)

(** Iterating a numpy array, as [list.extend] does. *)
Definition iterate (a : vec) : outcome (list Q) :=
  match a with
  | Scalar _ => Raise (TypeError "iteration over a 0-d array")
  | Vec v => Ok v
  end.

Record EvalAcc := mkEvalAcc {
  acc_total_loss : pyfloat;
  all_preds : list Q;
  all_targets : list Q
}.

Definition evaluate_batch (model : AffinityPredictionModel)
           (criterion : vec -> vec -> outcome pyfloat)
           (acc : EvalAcc) (batch : Batch.t) : M EvalAcc :=
  let sequences := Batch.sequences batch in
  let affinities := Batch.affinities batch in
  do predictions <~ forward model sequences batch;
  do loss <~ lift (criterion predictions affinities);
  let total_loss := float_add (acc_total_loss acc) loss in
  do preds <~ lift (iterate predictions);
  do targets <~ lift (iterate affinities);
  ret (mkEvalAcc total_loss (all_preds acc ++ preds) (all_targets acc ++ targets)).

Fixpoint evaluate_loop (model : AffinityPredictionModel)
         (criterion : vec -> vec -> outcome pyfloat)
         (batches : list Batch.t) (acc : EvalAcc) : M EvalAcc :=
  match batches with
  | [] => ret acc
  | batch :: rest =>
      do acc' <~ evaluate_batch model criterion acc batch;
      evaluate_loop model criterion rest acc'
  end.

Definition evaluate_model (model : AffinityPredictionModel) (data_loader : list Batch.t)
           (criterion : vec -> vec -> outcome pyfloat) (return_predictions : bool)
  : M (pyfloat * Metrics * option (list Q * list Q)) :=
  modify (set_training false) ;;;
  do acc <~ evaluate_loop model criterion data_loader (mkEvalAcc (fin 0) [] []);
  do metrics <~ lift (compute_metrics (all_targets acc) (all_preds acc));
  do avg_loss <~ lift (float_div_len (acc_total_loss acc) (length data_loader));
  if return_predictions
  then ret (avg_loss, metrics, Some (all_preds acc, all_targets acc))
  else ret (avg_loss, metrics, None).

(** ** Checkpoints *)

(** A path that [os.path.join] built, kept with the directory it lies in. *)
Record Path := mkPath {
  path_dir : string;
  path_str : string
}.

Definition os_path_join (directory name : string) : Path :=
  mkPath directory (path_join directory name).

(** [torch.save(bundle, path)]: the file is written when the directory of
    the path exists, and the call raises otherwise. *)
Definition torch_save (bundle : Bundle) (path : Path) : M unit :=
  do d <~ get dirs;
  if bool_decide (path_dir path ∈ d)
  then modify (fun w => set_files (<[path_str path := bundle]> (files w)) w)
  else raise (RuntimeError ("Parent directory " +:+ path_dir path +:+ " does not exist.")).

Definition torch_load (path : string) : M Bundle :=
  do f <~ get files;
  match f !! path with
  | Some bundle => ret bundle
  | None => raise (FileNotFoundError path)
  end.

Definition current_bundle (epoch : Z) (loss : pyfloat) : M Bundle :=
  do p <~ get params;
  do o <~ get optimizer;
  ret (mkBundle epoch p o loss).

Definition checkpoint_name (epoch : Z) (loss : pyfloat) : string :=
  "epoch_" +:+ pretty (epoch + 1)%Z +:+ "_loss_" +:+ format_4f loss +:+ ".pt".

Definition save_checkpoint (epoch : Z) (loss : pyfloat) (checkpoint_dir : string) : M unit :=
  do d <~ get dirs;
  (if bool_decide (checkpoint_dir ∈ d) then ret tt
   else modify (fun w => set_dirs ({[checkpoint_dir]} ∪ dirs w) w)) ;;;
  let checkpoint_path := os_path_join checkpoint_dir (checkpoint_name epoch loss) in
  do bundle <~ current_bundle epoch loss;
  torch_save bundle checkpoint_path ;;;
  print ("Checkpoint saved: " +:+ path_str checkpoint_path).

(** What [load_state_dict] copies: a parameter of the module whose name is
    in the state dict with the parameter's shape takes the value there, every
    other parameter keeps its value. *)
Definition copy_fitting (p state_dict : gmap string (Tensor Q)) : gmap string (Tensor Q) :=
  map_imap (fun name old =>
              match state_dict !! name with
              | Some new => if decide (shape new = shape old) then Some new else Some old
              | None => Some old
              end) p.

(** [nn.Module.load_state_dict]: every parameter that fits is copied; then
    the call raises unless the keys and the shapes are the module's own. *)
Definition model_load_state_dict (state_dict : gmap string (Tensor Q)) : M unit :=
  do p <~ get params;
  modify (fun w => set_params_optimizer (copy_fitting p state_dict) (optimizer w) w) ;;;
  if bool_decide (shape <$> state_dict = shape <$> p)
  then ret tt
  else raise (RuntimeError "Error(s) in loading state_dict").

(** [Optimizer.load_state_dict]: as many parameter groups, of the same
    sizes, as the optimizer has. *)
Definition optimizer_load_state_dict (state_dict : Optimizer) : M unit :=
  do o <~ get optimizer;
  if bool_decide (map (fun g => length (group_params g)) (param_groups state_dict)
                  = map (fun g => length (group_params g)) (param_groups o))
  then modify (fun w => set_params_optimizer (params w) state_dict w)
  else raise (ValueError "loaded state dict has a different number of parameter groups").

(** [load_checkpoint]; the model and the optimizer it returns are the
    objects it was given, so its value here is the epoch and the loss. *)
Definition load_checkpoint (checkpoint_path : string) : M (Z * pyfloat) :=
  do checkpoint <~ torch_load checkpoint_path;
  model_load_state_dict (b_model_state_dict checkpoint) ;;;
  optimizer_load_state_dict (b_optimizer_state_dict checkpoint) ;;;
  let epoch := b_epoch checkpoint in
  let loss := b_loss checkpoint in
  print ("Checkpoint loaded: " +:+ checkpoint_path +:+ ", Epoch: "
           +:+ pretty (epoch + 1)%Z +:+ ", Loss: " +:+ format_4f loss) ;;;
  ret (epoch, loss).

(** ** Early stopping *)

Record EarlyStopping := mkEarlyStopping {
  patience : Z;
  verbose : bool;
  best_loss : pyfloat;
  counter : Z;
  early_stop : bool;
  checkpoint_path : Path
}.

Definition EarlyStopping_init (patience : Z) (verbose : bool) (checkpoint_dir : string)
  : EarlyStopping :=
  mkEarlyStopping patience verbose inf 0 false (os_path_join checkpoint_dir "best_model.pt").

Definition when (b : bool) (c : M unit) : M unit := if b then c else ret tt.

(** [EarlyStopping.__call__]. The controller is an object that the call
    changes in place: a call gives its outcome, the controller as the call
    leaves it, also when it raises, and the program state. *)
Definition EarlyStopping_call (self : EarlyStopping) (val_loss : pyfloat) (epoch : Z)
           (w : World) : outcome unit * EarlyStopping * World :=
  if float_lt val_loss (best_loss self)
  then
    let self := mkEarlyStopping (patience self) (verbose self) val_loss (counter self)
                                (early_stop self) (checkpoint_path self) in
    let self := mkEarlyStopping (patience self) (verbose self) (best_loss self) 0
                                (early_stop self) (checkpoint_path self) in
    let '(r, w) :=
      (do bundle <~ current_bundle epoch val_loss;
       torch_save bundle (checkpoint_path self) ;;;
       when (verbose self)
            (print ("Validation loss improved. Model saved to "
                      +:+ path_str (checkpoint_path self)))) w in
    (r, self, w)
  else
    let self := mkEarlyStopping (patience self) (verbose self) (best_loss self)
                                (counter self + 1) (early_stop self)
                                (checkpoint_path self) in
    match when (verbose self)
               (print ("EarlyStopping counter: " +:+ pretty (counter self) +:+ " / "
                         +:+ pretty (patience self))) w with
    | (Raise e, w) => (Raise e, self, w)
    | (Ok _, w) =>
        if bool_decide (patience self <= counter self)%Z
        then
          let self := mkEarlyStopping (patience self) (verbose self) (best_loss self)
                                      (counter self) true (checkpoint_path self) in
          let '(r, w) := when (verbose self) (print "Early stopping triggered.") w in
          (r, self, w)
        else (Ok tt, self, w)
    end.

(** The controller called once per validation loss, in order, up to the
    first call that raises. *)
Fixpoint EarlyStopping_calls (self : EarlyStopping) (losses : list pyfloat) (epoch : Z)
         (w : World) : outcome unit * EarlyStopping * World :=
  match losses with
  | [] => (Ok tt, self, w)
  | val_loss :: rest =>
      match EarlyStopping_call self val_loss epoch w with
      | (Raise e, self', w') => (Raise e, self', w')
      | (Ok _, self', w') => EarlyStopping_calls self' rest (epoch + 1) w'
      end
  end.

End Loops.

(** ** Vocabulary of the statements *)

(** The edge entries of a graph: column [i] of [edge_index] with row [i] of
    [edge_attr]. *)
Definition edge_entries (g : Data) : list (nat * nat * list Q) :=
  zip (zip (nth 0 (rows (edge_index g)) []) (nth 1 (rows (edge_index g)) []))
      (rows (edge_attr g)).

Fixpoint Qlist_eqb (a b : list Q) : bool :=
  match a, b with
  | [], [] => true
  | a0 :: a', b0 :: b' => Qeq_bool a0 b0 && Qlist_eqb a' b'
  | _, _ => false
  end.

(** [row] holds the features of [bond], and [u], [v] are its two atoms. *)
Definition describes (bond : Bond) (entry : nat * nat * list Q) : bool :=
  let '(u, v, row) := entry in
  Qlist_eqb row (edge_feature bond)
  && (bool_decide (GetBeginAtomIdx bond = u /\ GetEndAtomIdx bond = v)
      || bool_decide (GetBeginAtomIdx bond = v /\ GetEndAtomIdx bond = u)).

(** Every edge entry of [g] is one bond of [mol] with that bond's features. *)
Definition edges_paired (mol : Mol) (g : Data) : bool :=
  forallb (fun entry => existsb (fun bond => describes bond entry) (GetBonds mol))
          (edge_entries g).

(** Molecules as RDKit builds them: every bond joins two different atoms of
    the molecule, and no two bonds join the same pair. *)
Definition joins (bond : Bond) (u v : nat) : Prop :=
  (GetBeginAtomIdx bond = u /\ GetEndAtomIdx bond = v)
  \/ (GetBeginAtomIdx bond = v /\ GetEndAtomIdx bond = u).

Definition valid_bond (n : nat) (bond : Bond) : bool :=
  bool_decide (GetBeginAtomIdx bond < n /\ GetEndAtomIdx bond < n
               /\ GetBeginAtomIdx bond <> GetEndAtomIdx bond).

Fixpoint distinct_bonds (bonds : list Bond) : bool :=
  match bonds with
  | [] => true
  | bond :: rest =>
      forallb (fun bond' =>
                 negb (bool_decide (joins bond' (GetBeginAtomIdx bond) (GetEndAtomIdx bond))))
              rest
      && distinct_bonds rest
  end.

Definition well_formed (mol : Mol) : bool :=
  forallb (valid_bond (length (GetAtoms mol))) (GetBonds mol)
  && distinct_bonds (GetBonds mol).

(** The neighbours of a node in an adjacency dict. *)
Definition nbrs (adj : list (nat * list nat)) (u : nat) : list nat :=
  default [] (nx.dict_get u adj).

(** The index-aligned rows of a loaded dataset. *)
Definition loaded_rows (l : Loaded) : list (string * Data * string * Q) :=
  zip (zip (zip (smiles_strs l) (graphs l)) (sequences l)) (affinities l).

(** The terms the weighted loss averages, after the specification:
    [w_i * (p_i - t_i)^2] with [w_i = w] when [5 < t_i] and 1 otherwise. *)
Definition example_weight (w t_i : Q) : Q :=
  if Qlt_le_dec 5 t_i then w else 1%Q.

Fixpoint weighted_squares (w : Q) (p t : list Q) : list Q :=
  match p, t with
  | p_i :: p', t_i :: t' =>
      (example_weight w t_i * (p_i - t_i) ^ 2)%Q :: weighted_squares w p' t'
  | _, _ => []
  end.

(** The number of distinct molecules of a batch-assignment vector, and the
    vectors that collation builds from molecules that each have a node:
    every index up to the largest one occurs. *)
Definition distinct_molecules (batch : list nat) : nat := length (remove_dups batch).

Definition contiguous (batch : list nat) : Prop :=
  forallb (fun j => bool_decide (j ∈ batch)) (seq 0 (pool_size batch)) = true.

(** Sample molecules, as RDKit parses them: ethanol [CCO], methane [C] and
    aminoacetaldehyde [C(C=O)N]. *)
Definition single (a b : nat) : Bond := mkBond a b 1 0 false.
Definition double (a b : nat) : Bond := mkBond a b 2 0 false.

Definition ethanol : Mol :=
  mkMol [mkAtom 6 4 0 1; mkAtom 6 4 0 2; mkAtom 8 4 0 1] [single 0 1; single 1 2].

Definition methane : Mol := mkMol [mkAtom 6 4 0 0] [].

Definition aminoacetaldehyde : Mol :=
  mkMol [mkAtom 6 4 0 2; mkAtom 6 3 0 2; mkAtom 8 3 0 1; mkAtom 7 4 0 1]
        [single 0 1; double 1 2; single 0 3].

(** [Chem.MolFromSmiles] on the sample strings; every other string is taken
    not to parse. *)
Definition parse_samples (smiles : string) : option Mol :=
  if decide (smiles = "CCO") then Some ethanol
  else if decide (smiles = "C") then Some methane
  else if decide (smiles = "C(C=O)N") then Some aminoacetaldehyde
  else None.

(** Computations that leave everything but the random generator and the
    training flag as it was, and raise only the exceptions [allowed]. *)
Definition same_store `{Externals} (w w' : World) : Prop :=
  params w' = params w /\ grads w' = grads w /\ optimizer w' = optimizer w
  /\ files w' = files w /\ dirs w' = dirs w /\ stdout w' = stdout w.

Definition tame `{Externals} (allowed : exn -> Prop) {A} (c : M A) : Prop :=
  forall w r w', c w = (r, w') ->
    same_store w w' /\ training w' = training w /\ (forall e, r = Raise e -> allowed e).

Definition tame_outcome (allowed : exn -> Prop) {A} (c : outcome A) : Prop :=
  forall e, c = Raise e -> allowed e.

(** The exceptions of tensor operations on operands of the wrong shape. *)
Definition shape_error (e : exn) : Prop :=
  match e with
  | RuntimeError _ | IndexError _ => True
  | _ => False
  end.

Definition any_exn (e : exn) : Prop := True.

(** What one inference pass computes batch by batch, after the
    specification: the predictions, the targets and the criterion's loss of
    each batch. *)
Record BatchResult := mkBatchResult {
  br_preds : list Q;
  br_targets : list Q;
  br_loss : pyfloat
}.

Fixpoint batch_results `{Externals} (model : AffinityPredictionModel)
         (criterion : vec -> vec -> outcome pyfloat) (batches : list Batch.t)
  : M (list BatchResult) :=
  match batches with
  | [] => ret []
  | batch :: rest =>
      do predictions <~ forward model (Batch.sequences batch) batch;
      do loss <~ lift (criterion predictions (Batch.affinities batch));
      do preds <~ lift (iterate predictions);
      do targets <~ lift (iterate (Batch.affinities batch));
      do results <~ batch_results model criterion rest;
      ret (mkBatchResult preds targets loss :: results)
  end.

(** A small instance of the libraries, to run the pipeline on: a pretrained
    model with hidden size 2, convolutions of output width 1, attention and
    capsule layers that return zeros of the configured width, and an
    optimizer step that writes the number of backward passes into a bias. *)
Definition zeros_like_rows (x : Tensor Q) (width : nat) : Tensor Q :=
  mkTensor [nth 0 (shape x) 0; width] (map (fun _ => replicate width 0%Q) (rows x)).

Definition small_externals : Externals := {|
  Rng := nat;
  Grads := nat;
  path_join := fun a b => a +:+ "/" +:+ b;
  pretrained_model := fun _ _ r seqs =>
    (mkHiddenStates (length seqs) 1 2 (map (fun _ => [[1%Q; 1%Q]]) seqs), S r);
  GINEConv := fun _ _ x _ _ =>
    mkTensor [nth 0 (shape x) 0; 1] (map (fun _ => [1%Q]) (rows x));
  MultiheadAttention := fun _ embed_dim _ _ _ _ r query _ _ =>
    (zeros_like_rows query embed_dim, r);
  CapsuleLayer := fun _ _ output_dim _ _ _ r x => (zeros_like_rows x output_dim, r);
  dropout_mask := fun _ n r => (replicate n true, S r);
  autograd := fun _ _ _ _ _ _ _ _ _ _ g => S g;
  zero_grads := fun _ => 0;
  optimizer_update := fun o p g =>
    (<["fc3.bias" := mkTensor [1] [[inject_Z (Z.of_nat g)]]]> p, o);
  mean_squared_error := fun _ _ => Ok (fin 0);
  r2_score := fun _ _ => Ok (fin 1);
  concordance_index := fun _ _ => Ok (fin 1);
  np_sqrt := fun f => f
|}.

Definition small_model : AffinityPredictionModel := AffinityPredictionModel_init 2 1 1 1 1.

Definition small_world : @World small_externals :=
  @mkWorld small_externals
    {["fc3.bias" := mkTensor [1] [[3%Q]]]} false 0
    (mkOptimizer ∅ [mkParamGroup {["lr" := (1 # 1000)%Q]} [0]]) 0 ∅ ∅ [].

Definition fresh_world : @World small_externals :=
  @mkWorld small_externals
    {["fc3.bias" := mkTensor [1] [[0%Q]]]} true 0
    (mkOptimizer ∅ [mkParamGroup ∅ [0]]) 7 ∅ ∅ [].

Definition node_rows (n : nat) : Tensor Q :=
  mkTensor [n; 4] (replicate n [6%Q; 4%Q; 0%Q; 1%Q]).

(** Two molecules of three atoms with two protein sequences, and four
    molecules of one atom with three protein sequences. *)
Definition two_molecules : Batch.t :=
  Batch.mk (node_rows 6) (mkTensor [2; 4] [[0; 1; 3; 4]; [1; 2; 4; 5]])
           (mkTensor [4; 3] (replicate 4 [1%Q; 0%Q; 0%Q]))
           [0; 0; 0; 1; 1; 1] ["MKV"; "MAA"] (Vec [5%Q; 7%Q]).

Definition four_molecules : Batch.t :=
  Batch.mk (node_rows 4) (mkTensor [0] []) (mkTensor [0] [])
           [0; 1; 2; 3] ["MKV"; "MAA"; "MGS"] (Vec [5%Q; 7%Q; 6%Q]).

Definition plain_mse (preds targets : vec) : outcome pyfloat :=
  WeightedMSELoss_forward (mkWeightedMSELoss 1) preds targets.

(** Two molecules of one atom whose indices in the batch-assignment vector
    are 0 and 2, with two protein sequences. *)
Definition gap_molecules : Batch.t :=
  Batch.mk (node_rows 2) (mkTensor [0] []) (mkTensor [0] [])
           [0; 2] ["MKV"; "MAA"] (Vec [5%Q; 7%Q]).

(** The file system as the main script leaves it before the first epoch: the
    checkpoint directory exists and the directory of the best model inside
    it does not; and the same with that directory made by hand. *)
Definition driver_world : @World small_externals :=
  set_dirs {["checkpoints"]} small_world.

Definition prepared_world : @World small_externals :=
  set_dirs {["checkpoints"; "checkpoints/early_stop"]} small_world.

(** The mean of the losses of a pass, written out over the rationals: it is
    not a number when a loss is not, or when both infinities occur; it is an
    infinity when that one occurs; otherwise it is the sum of the losses
    divided by their number. *)
Definition is_nan (f : pyfloat) : bool := match f with nan => true | _ => false end.
Definition is_inf (f : pyfloat) : bool := match f with inf => true | _ => false end.
Definition is_neg_inf (f : pyfloat) : bool :=
  match f with neg_inf => true | _ => false end.

Definition finite_losses (losses : list pyfloat) : list Q :=
  omap (fun f => match f with fin q => Some q | _ => None end) losses.

Definition sum_losses (losses : list pyfloat) : pyfloat :=
  if existsb is_nan losses || (existsb is_inf losses && existsb is_neg_inf losses)
  then nan
  else if existsb is_inf losses then inf
  else if existsb is_neg_inf losses then neg_inf
  else fin (Qsum (finite_losses losses)).

Definition mean_loss (losses : list pyfloat) : pyfloat :=
  match sum_losses losses with
  | fin total => fin (total / inject_Z (Z.of_nat (length losses)))
  | other => other
  end.

(** Equality of floats, the finite ones as rationals. *)
Definition float_eq (a b : pyfloat) : Prop :=
  match a, b with
  | fin x, fin y => (x == y)%Q
  | nan, nan | inf, inf | neg_inf, neg_inf => True
  | _, _ => False
  end.

(** ** Further vocabulary *)

(** A bond as an edge of the undirected graph: the smaller atom index first. *)
Definition norm_bond (bond : Bond) : nat * nat :=
  (Nat.min (GetBeginAtomIdx bond) (GetEndAtomIdx bond),
   Nat.max (GetBeginAtomIdx bond) (GetEndAtomIdx bond)).

(** The columns of the edge index of a graph. *)
Definition edge_columns (g : Data) : list (nat * nat) :=
  zip (nth 0 (rows (edge_index g)) []) (nth 1 (rows (edge_index g)) []).

(** Bonds listed in non-decreasing order of their smaller atom index, none
    below [m]. *)
Fixpoint sorted_from (m : nat) (bonds : list Bond) : bool :=
  match bonds with
  | [] => true
  | bond :: rest =>
      bool_decide (m <= fst (norm_bond bond)) && sorted_from (fst (norm_bond bond)) rest
  end.

(** What [load_dataset] keeps of a row whose SMILES string parses. *)
Definition loaded_triple (MolFromSmiles : string -> option Mol) (row : Row)
  : option (Data * string * Q) :=
  match smiles_to_graph MolFromSmiles (iso_smiles row) with
  | Some graph => Some (graph, target_sequence row, affinity row)
  | None => None
  end.

(** The entries of a tensor of dimension 0 or 1. *)
Definition entries (a : vec) : list Q :=
  match a with
  | Scalar a => [a]
  | Vec v => v
  end.

(** One molecule of three atoms with one protein sequence. *)
Definition one_molecule : Batch.t :=
  Batch.mk (node_rows 3) (mkTensor [2; 2] [[0; 1]; [1; 2]])
           (mkTensor [2; 3] (replicate 2 [1%Q; 0%Q; 0%Q]))
           [0; 0; 0] ["MKV"] (Vec [5%Q]).

(** ** [BilinearPoolingLayer] ([layers.py]) *)

Record BilinearPoolingLayer := mkBilinearPoolingLayer {
  protein_linear : Linear;
  drug_linear : Linear;
  bp_fc : Linear
}.

Definition BilinearPoolingLayer_init (name : string)
           (protein_dim drug_dim hidden_dim : nat) : BilinearPoolingLayer :=
  mkBilinearPoolingLayer
    (mkLinear (name +:+ ".protein_linear") protein_dim hidden_dim)
    (mkLinear (name +:+ ".drug_linear") drug_dim hidden_dim)
    (mkLinear (name +:+ ".fc") (hidden_dim * hidden_dim) 1).

(** [torch.matmul(a.unsqueeze(1), b.unsqueeze(2))] for [a] of shape (n, h)
    and [b] of shape (m, h): the batch of the (1, h) by (h, 1) products, a
    tensor of shape (n, 1, 1) kept by its rows of one entry. *)
Definition matmul_unsqueezed (a b : Tensor Q) : outcome (Tensor Q) :=
  match shape a, shape b with
  | [n; h], [m; h'] =>
      if decide (h = h')
      then match bdim n m with
           | Some r =>
               Ok (mkTensor [r; 1; 1]
                     (zip_with (fun ra rb => [Qsum (zip_with Qmult ra rb)])
                               (expand [] r (rows a)) (expand [] r (rows b))))
           | None =>
               Raise (RuntimeError "The size of tensor a must match the size of tensor b")
           end
      else Raise (RuntimeError "mat1 and mat2 shapes cannot be multiplied")
  | _, _ => Raise (RuntimeError "tensors of two dimensions are expected")
  end.

(** [x.view(x.size(0), -1)]: the other dimensions are merged; without rows
    the merged size cannot be inferred. *)
Definition view_rows (x : Tensor Q) : outcome (Tensor Q) :=
  match shape x with
  | [] => Raise (IndexError "Dimension specified as 0 but tensor has no dimensions")
  | O :: _ => Raise (RuntimeError "cannot reshape tensor of 0 elements into shape [0, -1]")
  | n :: rest => Ok (mkTensor [n; fold_right Nat.mul 1 rest] (rows x))
  end.

Definition BilinearPoolingLayer_forward `{Externals} (self : BilinearPoolingLayer)
           (protein drug : Tensor Q) : M (Tensor Q) :=
  do protein_proj <~ linear (protein_linear self) protein;
  do drug_proj <~ linear (drug_linear self) drug;
  do bilinear_interaction <~ lift (matmul_unsqueezed protein_proj drug_proj);
  do bilinear_interaction <~ lift (view_rows bilinear_interaction);
  linear (bp_fc self) bilinear_interaction.

(** ** The training log ([log_file]) *)

(** The dict that [compute_metrics] returns, by its keys. *)
Definition metrics_dict (m : Metrics) : gmap string pyfloat :=
  {[ "MSE" := MSE m; "RMSE" := RMSE m; "R^2" := R2 m; "CI" := CI m ]}.

Inductive KeyError := mkKeyError (key : string).

(** [d[key]] *)
Definition getitem (d : gmap string pyfloat) (key : string) : KeyError + pyfloat :=
  match d !! key with
  | Some v => inr v
  | None => inl (mkKeyError key)
  end.

(** The dict that the main loop builds from the metrics of an epoch. *)
Definition main_metrics (test_metrics : gmap string pyfloat)
  : KeyError + gmap string pyfloat :=
  match getitem test_metrics "MSE", getitem test_metrics "RMSE",
        getitem test_metrics "R^2", getitem test_metrics "CI" with
  | inr mse, inr rmse, inr r2, inr ci =>
      inr {[ "MSE" := mse; "RMSE" := rmse; "R²" := r2; "CI" := ci ]}
  | inl e, _, _, _ | _, inl e, _, _ | _, _, inl e, _ | _, _, _, inl e => inl e
  end.

Definition newline : string := String (Ascii.ascii_of_nat 10) EmptyString.

(** The line that [log_file] formats; the keys are read from left to
    right. *)
Definition log_line (epoch : Z) (train_loss test_loss : pyfloat)
           (metrics : gmap string pyfloat) : KeyError + string :=
  match getitem metrics "MSE" with
  | inl e => inl e
  | inr mse =>
      match getitem metrics "RMSE" with
      | inl e => inl e
      | inr rmse =>
          match getitem metrics "R²" with
          | inl e => inl e
          | inr r2 =>
              inr ("Epoch " +:+ pretty epoch
                     +:+ ": Train Loss = " +:+ format_4f train_loss
                     +:+ ", Test Loss = " +:+ format_4f test_loss
                     +:+ ", MSE = " +:+ format_4f mse
                     +:+ ", RMSE = " +:+ format_4f rmse
                     +:+ ", R² = " +:+ format_4f r2 +:+ newline)
          end
      end
  end.

(** [log_file] on the text files, by path: the file is opened for appending,
    which creates it, before the line is formatted. The exception, if any,
    comes with the files as they are left. *)
Definition log_file (epoch : Z) (train_loss test_loss : pyfloat)
           (metrics : gmap string pyfloat) (file_path : string)
           (texts : gmap string string) : option KeyError * gmap string string :=
  let old := default EmptyString (texts !! file_path) in
  match log_line epoch train_loss test_loss metrics with
  | inl e => (Some e, <[file_path := old]> texts)
  | inr line => (None, <[file_path := old +:+ line]> texts)
  end.

(** * Theorems *)

(** ** The graph builder *)

Lemma atom_loop_features_from (atoms : list Atom) (k : nat) (nf : list (list Z)) (G : nx.Graph) :
  fst (fold_left
         (fun (acc : list (list Z) * nx.Graph) (ia : nat * Atom) =>
            let f := node_feature (snd ia) in
            (fst acc ++ [f], nx.add_node (fst ia) f (snd acc)))
         (zip (seq k (length atoms)) atoms) (nf, G))
  = nf ++ map node_feature atoms.
Proof.
  revert k nf G. induction atoms as [|a atoms IH]; intros k nf G; simpl.
  - by rewrite app_nil_r.
  - rewrite IH. by rewrite <- app_assoc.
Qed.

Lemma atom_loop_features (atoms : list Atom) :
  fst (atom_loop atoms) = map node_feature atoms.
Proof. unfold atom_loop. by rewrite atom_loop_features_from. Qed.

Lemma bond_loop_features_from (bonds : list Bond) (ef : list (list Q)) (G : nx.Graph) :
  fst (fold_left
         (fun (acc : list (list Q) * nx.Graph) (bond : Bond) =>
            (fst acc ++ [edge_feature bond],
             nx.add_edge (GetBeginAtomIdx bond) (GetEndAtomIdx bond) (snd acc)))
         bonds (ef, G))
  = ef ++ map edge_feature bonds.
Proof.
  revert ef G. induction bonds as [|b bonds IH]; intros ef G; simpl.
  - by rewrite app_nil_r.
  - rewrite IH. by rewrite <- app_assoc.
Qed.

Lemma bond_loop_features (bonds : list Bond) (G : nx.Graph) :
  fst (bond_loop bonds G) = map edge_feature bonds.
Proof. unfold bond_loop. by rewrite bond_loop_features_from. Qed.

(** The feature matrices are in atom order and in bond order. *)
Lemma mol_to_graph_features (mol : Mol) :
  rows (x (mol_to_graph mol)) = map (map inject_Z) (map node_feature (GetAtoms mol))
  /\ rows (edge_attr (mol_to_graph mol)) = map edge_feature (GetBonds mol).
Proof.
  unfold mol_to_graph.
  pose proof (atom_loop_features (GetAtoms mol)) as Ha.
  destruct (atom_loop (GetAtoms mol)) as [nf G0]. simpl in Ha. subst nf.
  pose proof (bond_loop_features (GetBonds mol) G0) as Hb.
  destruct (bond_loop (GetBonds mol) G0) as [ef G]. simpl in Hb. subst ef.
  simpl. split.
  - by destruct (map node_feature (GetAtoms mol)).
  - by destruct (map edge_feature (GetBonds mol)).
Qed.

(** With an atom and a bond, the feature matrices have the shapes
    (atoms, 4) and (bonds, 3). *)
Lemma mol_to_graph_feature_shapes (mol : Mol) :
  GetAtoms mol <> [] -> GetBonds mol <> [] ->
  shape (x (mol_to_graph mol)) = [length (GetAtoms mol); 4]
  /\ shape (edge_attr (mol_to_graph mol)) = [length (GetBonds mol); 3].
Proof.
  intros Hatoms Hbonds. unfold mol_to_graph.
  pose proof (atom_loop_features (GetAtoms mol)) as Ha.
  destruct (atom_loop (GetAtoms mol)) as [nf G0]. simpl in Ha. subst nf.
  pose proof (bond_loop_features (GetBonds mol) G0) as Hb.
  destruct (bond_loop (GetBonds mol) G0) as [ef G]. simpl in Hb. subst ef.
  simpl. split.
  - destruct (GetAtoms mol) as [|a atoms]; [done|]. simpl.
    by rewrite !length_map.
  - destruct (GetBonds mol) as [|b bonds]; [done|]. simpl.
    by rewrite !length_map.
Qed.

(** ** The graph that [smiles_to_graph] builds in networkx *)

Lemma dict_get_None {V} (k : nat) (d : list (nat * V)) :
  nx.dict_get k d = None <-> k ∉ map fst d.
Proof.
  induction d as [|[k' v'] d IH]; simpl.
  - split; [intros _; apply not_elem_of_nil|done].
  - rewrite not_elem_of_cons. destruct (decide (k' = k)) as [->|Hne].
    + split; [done|]. by intros [? _].
    + rewrite IH. split; [intros ?; split; [congruence|done]|by intros [_ ?]].
Qed.

Lemma dict_set_absent {V} (k : nat) (v : V) (d : list (nat * V)) :
  k ∉ map fst d -> nx.dict_set k v d = d ++ [(k, v)].
Proof.
  induction d as [|[k' v'] d IH]; simpl; [done|].
  rewrite not_elem_of_cons. intros [Hne Hk].
  rewrite decide_False by congruence. by rewrite IH.
Qed.

Lemma dict_set_keys {V} (k : nat) (v : V) (d : list (nat * V)) :
  k ∈ map fst d -> map fst (nx.dict_set k v d) = map fst d.
Proof.
  induction d as [|[k' v'] d IH]; simpl.
  - intros Hk. by apply elem_of_nil in Hk.
  - destruct (decide (k' = k)) as [->|Hne]; [done|].
    rewrite elem_of_cons. intros [?|Hk]; [congruence|].
    simpl. by rewrite IH.
Qed.

Lemma atom_loop_graph_from (atoms : list Atom) (k : nat) (nf : list (list Z)) (G : nx.Graph) :
  map fst (nx._node G) = seq 0 k ->
  nx._adj G = map (fun i => (i, [])) (seq 0 k) ->
  let G' := snd (fold_left
                   (fun (acc : list (list Z) * nx.Graph) (ia : nat * Atom) =>
                      let f := node_feature (snd ia) in
                      (fst acc ++ [f], nx.add_node (fst ia) f (snd acc)))
                   (zip (seq k (length atoms)) atoms) (nf, G)) in
  map fst (nx._node G') = seq 0 (k + length atoms)
  /\ nx._adj G' = map (fun i => (i, [])) (seq 0 (k + length atoms)).
Proof.
  revert k nf G. induction atoms as [|a atoms IH]; intros k nf G Hnode Hadj; simpl.
  - by rewrite Nat.add_0_r.
  - replace (k + S (length atoms)) with (S k + length atoms) by lia.
    apply IH.
    + unfold nx.add_node, nx.dict_mem.
      assert (k ∉ map fst (nx._node G)) as Hk.
      { rewrite Hnode, elem_of_seq. lia. }
      pose proof (proj2 (dict_get_None k (nx._node G)) Hk) as ->. simpl.
      rewrite dict_set_absent by done.
      change (0 :: seq 1 k) with (seq 0 (S k)).
      by rewrite map_app, Hnode, seq_S.
    + unfold nx.add_node, nx.dict_mem.
      assert (k ∉ map fst (nx._node G)) as Hk.
      { rewrite Hnode, elem_of_seq. lia. }
      pose proof (proj2 (dict_get_None k (nx._node G)) Hk) as ->. simpl.
      rewrite dict_set_absent.
      * change ((0, []) :: map (fun i => (i, [])) (seq 1 k))
          with (map (fun i : nat => (i, @nil nat)) (seq 0 (S k))).
        rewrite Hadj, seq_S, map_app. by simpl.
      * rewrite Hadj, map_map. simpl. rewrite map_id, elem_of_seq. lia.
Qed.

Lemma edges_from_isolated (l seen : list nat) :
  nx.edges_from seen (map (fun i => (i, [])) l) = [].
Proof. revert seen. induction l as [|i l IH]; intros seen; simpl; [done|apply IH]. Qed.

Lemma nbrs_isolated (l : list nat) (u : nat) :
  nbrs (map (fun i => (i, [])) l) u = [].
Proof.
  unfold nbrs. induction l as [|i l IH]; simpl; [done|].
  destruct (decide (i = u)); [done|apply IH].
Qed.

Lemma atom_loop_graph (atoms : list Atom) :
  map fst (nx._node (snd (atom_loop atoms))) = seq 0 (length atoms)
  /\ map fst (nx._adj (snd (atom_loop atoms))) = seq 0 (length atoms)
  /\ (forall u, nbrs (nx._adj (snd (atom_loop atoms))) u = [])
  /\ nx.edges (snd (atom_loop atoms)) = [].
Proof.
  destruct (atom_loop_graph_from atoms 0 [] nx.empty eq_refl eq_refl) as [Hn Ha].
  simpl in Hn, Ha. fold (atom_loop atoms) in Hn, Ha.
  split; [done|]. unfold nx.edges. rewrite Ha. split; [|split].
  - rewrite map_map. simpl. by rewrite map_id.
  - intros u. apply nbrs_isolated.
  - apply edges_from_isolated.
Qed.

(** Adding an edge between two nodes of the graph. *)
Lemma link_cons (u v k : nat) (nb : list nat) (adj : list (nat * list nat)) :
  nx.link u v ((k, nb) :: adj)
  = if decide (k = u)
    then (k, if bool_decide (v ∈ nb) then nb else nb ++ [v]) :: adj
    else (k, nb) :: nx.link u v adj.
Proof.
  unfold nx.link. simpl. destruct (decide (k = u)) as [->|Hne]; simpl.
  - done.
  - by destruct (nx.dict_get u adj).
Qed.

Lemma link_keys (u v : nat) (adj : list (nat * list nat)) :
  map fst (nx.link u v adj) = map fst adj.
Proof.
  induction adj as [|[k nb] adj IH]; [done|].
  rewrite link_cons. destruct (decide (k = u)); simpl; [done|by rewrite IH].
Qed.

Lemma nbrs_link (u v x : nat) (adj : list (nat * list nat)) :
  u ∈ map fst adj ->
  forall y, y ∈ nbrs (nx.link u v adj) x <-> y ∈ nbrs adj x \/ (x = u /\ y = v).
Proof.
  induction adj as [|[k nb] adj IH]; intros Hu y.
  - by apply elem_of_nil in Hu.
  - rewrite link_cons. unfold nbrs in *. simpl.
    destruct (decide (k = u)) as [->|Hne]; simpl.
    + destruct (decide (u = x)) as [->|Hx]; simpl.
      * destruct (bool_decide (v ∈ nb)) eqn:Hv.
        -- apply bool_decide_eq_true in Hv. split; [tauto|].
           intros [?|[_ ->]]; done.
        -- rewrite elem_of_app, list_elem_of_singleton. split; [|tauto].
           intros [?|?]; [tauto|]. right. done.
      * split; [tauto|]. intros [?|[? _]]; [done|congruence].
    + simpl in Hu. rewrite elem_of_cons in Hu. destruct Hu as [?|Hu]; [congruence|].
      destruct (decide (k = x)) as [->|Hx]; simpl.
      * split; [tauto|]. intros [?|[? _]]; [done|congruence].
      * by apply IH.
Qed.

Lemma edges_from_absorb (v x : nat) (adj : list (nat * list nat)) :
  forall seen, x ∈ seen ->
    nx.edges_from seen (nx.link v x adj) = nx.edges_from seen adj.
Proof.
  induction adj as [|[k nb] adj IH]; intros seen Hx; [done|].
  rewrite link_cons. destruct (decide (k = v)) as [->|Hne]; simpl.
  - destruct (bool_decide (x ∈ nb)); [done|].
    rewrite filter_app, filter_cons_False by (intros Hn; by apply Hn).
    by rewrite filter_nil, app_nil_r.
  - rewrite IH; [done|]. by apply list_elem_of_further.
Qed.

Lemma edges_from_link (u v : nat) (adj : list (nat * list nat)) :
  u <> v ->
  forall seen,
    u ∉ seen -> v ∉ seen ->
    u ∈ map fst adj -> v ∈ map fst adj ->
    v ∉ nbrs adj u -> u ∉ nbrs adj v ->
    length (nx.edges_from seen (nx.link v u (nx.link u v adj)))
    = S (length (nx.edges_from seen adj)).
Proof.
  intros Huv. induction adj as [|[k nb] adj IH]; intros seen Hus Hvs Hu Hv Hvu Huv'.
  - by apply elem_of_nil in Hu.
  - rewrite link_cons. unfold nbrs in Hvu, Huv'. simpl in Hvu, Huv'.
    destruct (decide (k = u)) as [->|Hku].
    + simpl in Hvu.
      rewrite bool_decide_eq_false_2 by done.
      rewrite link_cons, decide_False by done. simpl.
      rewrite edges_from_absorb by apply list_elem_of_here.
      rewrite filter_app, filter_cons_True, filter_nil by done.
      rewrite !length_app, !length_map, length_app. simpl. lia.
    + rewrite link_cons. destruct (decide (k = v)) as [->|Hkv].
      * simpl in Huv'.
        rewrite bool_decide_eq_false_2 by done. simpl.
        rewrite edges_from_absorb by apply list_elem_of_here.
        rewrite filter_app, filter_cons_True, filter_nil by done.
        rewrite !length_app, !length_map, length_app. simpl. lia.
      * simpl.
        rewrite !length_app.
        simpl in Hu, Hv. rewrite elem_of_cons in Hu, Hv.
        destruct Hu as [?|Hu]; [congruence|]. destruct Hv as [?|Hv]; [congruence|].
        rewrite IH; [lia|..];
          first [done | rewrite not_elem_of_cons; split; [congruence|done]].
Qed.

Lemma dict_mem_true {V} (k : nat) (d : list (nat * V)) :
  k ∈ map fst d -> nx.dict_mem k d = true.
Proof.
  intros Hk. unfold nx.dict_mem.
  destruct (nx.dict_get k d) eqn:Hget; [done|].
  by apply dict_get_None in Hget.
Qed.

(** One [add_edge] between two different nodes that are not joined yet: the
    nodes stay, the two become neighbours, and [G.edges] has one more edge. *)
Lemma add_edge_new (n u v c : nat) (G : nx.Graph) (R : nat -> nat -> Prop) :
  map fst (nx._node G) = seq 0 n ->
  map fst (nx._adj G) = seq 0 n ->
  (forall x y, y ∈ nbrs (nx._adj G) x <-> R x y) ->
  length (nx.edges G) = c ->
  u < n -> v < n -> u <> v -> ~ R u v -> ~ R v u ->
  let G' := nx.add_edge u v G in
  map fst (nx._node G') = seq 0 n
  /\ map fst (nx._adj G') = seq 0 n
  /\ (forall x y, y ∈ nbrs (nx._adj G') x
                  <-> R x y \/ (x = u /\ y = v) \/ (x = v /\ y = u))
  /\ length (nx.edges G') = S c.
Proof.
  intros Hnode Hadj Hnbrs Hcount Hu Hv Huv HRuv HRvu.
  assert (u ∈ seq 0 n) as Hu' by (rewrite elem_of_seq; lia).
  assert (v ∈ seq 0 n) as Hv' by (rewrite elem_of_seq; lia).
  unfold nx.add_edge, nx.touch.
  rewrite (dict_mem_true u) by by rewrite Hnode.
  rewrite (dict_mem_true v) by by rewrite Hnode.
  simpl. split; [done|]. split; [by rewrite !link_keys|]. split.
  - intros x y. rewrite nbrs_link by by rewrite link_keys, Hadj.
    rewrite nbrs_link by by rewrite Hadj.
    rewrite Hnbrs. tauto.
  - unfold nx.edges in *. simpl.
    rewrite edges_from_link; try done.
    + by rewrite Hcount.
    + apply not_elem_of_nil.
    + apply not_elem_of_nil.
    + by rewrite Hadj.
    + by rewrite Hadj.
    + by rewrite Hnbrs.
    + by rewrite Hnbrs.
Qed.

Lemma bond_loop_graph (n : nat) (bonds : list Bond) :
  forall (G : nx.Graph) (R : nat -> nat -> Prop) (c : nat) (ef : list (list Q)),
    map fst (nx._node G) = seq 0 n ->
    map fst (nx._adj G) = seq 0 n ->
    (forall x y, y ∈ nbrs (nx._adj G) x <-> R x y) ->
    length (nx.edges G) = c ->
    forallb (valid_bond n) bonds = true ->
    distinct_bonds bonds = true ->
    (forall bond, bond ∈ bonds ->
                  ~ R (GetBeginAtomIdx bond) (GetEndAtomIdx bond)
                  /\ ~ R (GetEndAtomIdx bond) (GetBeginAtomIdx bond)) ->
    let G' := snd (fold_left
                     (fun (acc : list (list Q) * nx.Graph) (bond : Bond) =>
                        (fst acc ++ [edge_feature bond],
                         nx.add_edge (GetBeginAtomIdx bond) (GetEndAtomIdx bond) (snd acc)))
                     bonds (ef, G)) in
    map fst (nx._node G') = seq 0 n
    /\ length (nx.edges G') = c + length bonds.
Proof.
  induction bonds as [|bond bonds IH];
    intros G R c ef Hnode Hadj Hnbrs Hcount Hvalid Hdistinct Hnew; simpl.
  - split; [done|lia].
  - simpl in Hvalid, Hdistinct.
    apply andb_prop in Hvalid as [Hb Hvalid].
    apply andb_prop in Hdistinct as [Hothers Hdistinct].
    apply bool_decide_eq_true in Hb as (Hu & Hv & Huv).
    destruct (Hnew bond) as [HRuv HRvu]; [apply list_elem_of_here|].
    destruct (add_edge_new n _ _ c G R Hnode Hadj Hnbrs Hcount Hu Hv Huv HRuv HRvu)
      as (Hnode' & Hadj' & Hnbrs' & Hcount').
    replace (c + S (length bonds)) with (S c + length bonds) by lia.
    apply (IH _ _ _ _ Hnode' Hadj' Hnbrs' Hcount' Hvalid Hdistinct).
    intros bond' Hin.
    destruct (Hnew bond') as [HR1 HR2]; [by apply list_elem_of_further|].
    rewrite forallb_forall in Hothers.
    specialize (Hothers bond'). rewrite <- list_elem_of_In in Hothers.
    specialize (Hothers Hin). apply negb_true_iff, bool_decide_eq_false in Hothers.
    unfold joins in Hothers. split; intros [?|[[? ?]|[? ?]]]; tauto.
Qed.

(** On a molecule with distinct bonds between its own atoms, the graph has
    one node per atom and one edge per bond; with a bond, the edge index has
    shape (2, bonds). *)
Lemma mol_to_graph_counts (mol : Mol) :
  well_formed mol = true ->
  let g := mol_to_graph mol in
  num_nodes g = length (GetAtoms mol)
  /\ num_edges g = length (GetBonds mol)
  /\ (GetBonds mol <> [] -> shape (edge_index g) = [2; length (GetBonds mol)]).
Proof.
  intros Hwf. apply andb_prop in Hwf as [Hvalid Hdistinct].
  destruct (atom_loop_graph (GetAtoms mol)) as (Hnode & Hadj & Hnbrs & Hedges).
  unfold mol_to_graph.
  destruct (atom_loop (GetAtoms mol)) as [nf G0]. simpl in Hnode, Hadj, Hnbrs, Hedges.
  destruct (bond_loop_graph (length (GetAtoms mol)) (GetBonds mol) G0 (fun _ _ => False) 0 []
              Hnode Hadj) as [Hnode' Hcount]; try done.
  { intros u v. rewrite Hnbrs. split; [by intros ?%elem_of_nil|done]. }
  { by rewrite Hedges. }
  { intros bond _. tauto. }
  fold (bond_loop (GetBonds mol) G0) in Hnode', Hcount.
  destruct (bond_loop (GetBonds mol) G0) as [ef G]. simpl in Hnode', Hcount. simpl.
  split; [|split].
  - unfold nx.nodes. by rewrite Hnode', length_seq.
  - done.
  - intros Hne. destruct (nx.edges G) as [|e edges] eqn:He.
    + destruct (GetBonds mol); [done|discriminate Hcount].
    + simpl. unfold t. simpl. by rewrite length_map, <- Hcount.
Qed.

Lemma sample_molecules_well_formed :
  well_formed ethanol = true /\ well_formed methane = true
  /\ well_formed aminoacetaldehyde = true.
Proof. by vm_compute. Qed.

(** C2: on aminoacetaldehyde, [C(C=O)N], the bonds are 0-1, 1=2, 0-3 in
    RDKit's order; the edge features keep that order, while the edge index is
    read from [G.edges], which lists (0,1), (0,3), (1,2). The second edge
    entry joins atoms 0 and 3 and carries the features of the double bond
    1=2: the entries are not paired bond by bond. *)
Theorem smiles_to_graph_edge_order_mismatch :
  let g := mol_to_graph aminoacetaldehyde in
  smiles_to_graph parse_samples "C(C=O)N" = Some g
  /\ rows (edge_index g) = [[0; 0; 1]; [1; 3; 2]]
  /\ rows (edge_attr g) = map edge_feature [single 0 1; double 1 2; single 0 3]
  /\ edge_entries g !! 1 = Some (0, 3, edge_feature (double 1 2))
  /\ edges_paired aminoacetaldehyde g = false.
Proof. vm_compute. repeat split; reflexivity. Qed.

(** C6: methane, [C], parses to one atom and no bond; its graph has node
    features of shape (1, 4), and an edge index and edge features of shape
    (0,), not (2, 0) and (0, 3). *)
Theorem smiles_to_graph_no_bond_shapes :
  let g := mol_to_graph methane in
  smiles_to_graph parse_samples "C" = Some g
  /\ shape (x g) = [1; 4]
  /\ num_edges g = 0
  /\ shape (edge_index g) = [0]
  /\ shape (edge_attr g) = [0]
  /\ shape (edge_index g) <> [2; num_edges g]
  /\ shape (edge_attr g) <> [num_edges g; 3].
Proof. vm_compute. repeat split; congruence. Qed.

(** ** The dataset loader *)

Section LoaderFacts.

Variable MolFromSmiles : string -> option Mol.

Lemma load_dataset_from (data : list Row) (acc : Loaded) :
  let l := fold_left (load_row MolFromSmiles) data acc in
  let kept := filter (fun row => is_Some (MolFromSmiles (iso_smiles row))) data in
  smiles_strs l = smiles_strs acc ++ map iso_smiles data
  /\ graphs l = graphs acc ++ omap (fun row => smiles_to_graph MolFromSmiles (iso_smiles row)) data
  /\ sequences l = sequences acc ++ map target_sequence kept
  /\ affinities l = affinities acc ++ map affinity kept.
Proof.
  revert acc. induction data as [|row data IH]; intros acc; simpl.
  - by rewrite !app_nil_r.
  - destruct (IH (load_row MolFromSmiles acc row)) as (Hs & Hg & Hq & Ha).
    rewrite Hs, Hg, Hq, Ha. clear IH Hs Hg Hq Ha.
    unfold load_row, smiles_to_graph.
    rewrite filter_cons.
    destruct (MolFromSmiles (iso_smiles row)) as [mol|] eqn:Hmol; simpl.
    + destruct (decide (is_Some (Some mol))) as [_|Hn];
        [|exfalso; apply Hn; eauto].
      simpl. by rewrite <- !app_assoc.
    + destruct (decide (is_Some (@None Mol))) as [Hs|_];
        [by destruct Hs|].
      by rewrite <- !app_assoc.
Qed.

(** The graphs, the sequences and the affinities are those of the rows
    that parse, in file order; the SMILES strings are those of all rows. *)
Lemma load_dataset_contents (data : list Row) :
  let l := load_dataset MolFromSmiles data in
  let kept := filter (fun row => is_Some (MolFromSmiles (iso_smiles row))) data in
  smiles_strs l = map iso_smiles data
  /\ graphs l = omap (fun row => smiles_to_graph MolFromSmiles (iso_smiles row)) data
  /\ sequences l = map target_sequence kept
  /\ affinities l = map affinity kept.
Proof. apply (load_dataset_from data (mkLoaded [] [] [] [])). Qed.

End LoaderFacts.

(** C1: a file whose first row does not parse and whose second row is
    ethanol. The row that fails is left out of the graphs, the sequences and
    the affinities, and its SMILES string stays in the first collection:
    index 0 pairs the SMILES string of row 0 with the graph, the sequence and
    the affinity of row 1. *)
Theorem load_dataset_keeps_failed_smiles :
  let data := [mkRow "not_a_molecule" "MKV" 5; mkRow "CCO" "MAA" 7] in
  let l := load_dataset parse_samples data in
  smiles_to_graph parse_samples "not_a_molecule" = None
  /\ smiles_strs l = ["not_a_molecule"; "CCO"]
  /\ graphs l = [mol_to_graph ethanol]
  /\ sequences l = ["MAA"]
  /\ affinities l = [7%Q]
  /\ loaded_rows l = [("not_a_molecule", mol_to_graph ethanol, "MAA", 7%Q)].
Proof. vm_compute. repeat split; reflexivity. Qed.

(** ** The weighted loss *)

Lemma Qltb_lt (a b : Q) : Qltb a b = true <-> (a < b)%Q.
Proof.
  unfold Qltb. rewrite negb_true_iff. split.
  - intros Hle. apply Qnot_le_lt. intros Hba.
    apply Qle_bool_iff in Hba. congruence.
  - intros Hlt. destruct (Qle_bool b a) eqn:Hle; [|done].
    apply Qle_bool_iff in Hle. exfalso. by apply (Qlt_not_le a b).
Qed.

Lemma weight_of_target (w t_i : Q) :
  (if Qltb 5 t_i then w else 1%Q) = example_weight w t_i.
Proof.
  unfold example_weight. destruct (Qlt_le_dec 5 t_i) as [Hlt|Hle].
  - apply Qltb_lt in Hlt. by rewrite Hlt.
  - destruct (Qltb 5 t_i) eqn:Hb; [|done].
    apply Qltb_lt in Hb. exfalso. by apply (Qlt_not_le 5 t_i).
Qed.

Lemma weighted_terms (w : Q) (p t : list Q) :
  zip_with_Q Qmult (map (fun t_i => if Qltb 5 t_i then w else 1%Q) t)
             (map (fun d => (d ^ 2)%Q) (zip_with_Q Qminus p t))
  = weighted_squares w p t.
Proof.
  revert t. induction p as [|p_i p IH]; intros [|t_i t]; simpl; try done.
  by rewrite IH, weight_of_target.
Qed.

Lemma zip_with_Q_length (f : Q -> Q -> Q) (a b : list Q) :
  length a = length b -> length (zip_with_Q f a b) = length a.
Proof.
  revert b. induction a as [|a0 a IH]; intros [|b0 b]; simpl; try done.
  intros Hlen. f_equal. apply IH. by injection Hlen.
Qed.

Lemma weighted_squares_length (w : Q) (p t : list Q) :
  length p = length t -> length (weighted_squares w p t) = length p.
Proof.
  revert t. induction p as [|p_i p IH]; intros [|t_i t]; simpl; try done.
  intros Hlen. f_equal. apply IH. by injection Hlen.
Qed.

Lemma weighted_squares_same (w : Q) (t : list Q) :
  (Qsum (weighted_squares w t t) == 0)%Q.
Proof.
  induction t as [|t_i t IH]; simpl; [reflexivity|].
  rewrite IH. unfold Qpower, Qpower_positive, pow_pos; simpl. ring.
Qed.

(** C3: on predictions and targets of one length, and at least one example,
    the loss is the mean of the terms [w_i * (p_i - t_i)^2], where [w_i] is
    the weight constant when [5 < t_i] and 1 otherwise; it is 0 when the
    predictions are the targets, and 500 for targets [0, 10], predictions
    [0, 0] and the weight constant 10. *)
Theorem WeightedMSELoss_is_weighted_mean (w : Q) (p t : list Q) :
  length p = length t ->
  p <> [] ->
  WeightedMSELoss_forward (mkWeightedMSELoss w) (Vec p) (Vec t)
  = Ok (fin (Qsum (weighted_squares w p t) / inject_Z (Z.of_nat (length p))))
  /\ (p = t ->
      (Qsum (weighted_squares w p t) / inject_Z (Z.of_nat (length p)) == 0)%Q)
  /\ (w = 10%Q -> p = [0%Q; 0%Q] -> t = [0%Q; 10%Q] ->
      (Qsum (weighted_squares w p t) / inject_Z (Z.of_nat (length p)) == 500)%Q).
Proof.
  intros Hlen Hne. split; [|split].
  - unfold WeightedMSELoss_forward, broadcast2; simpl.
    rewrite decide_True by done. simpl.
    rewrite decide_True
      by (by rewrite !length_map, zip_with_Q_length).
    simpl. rewrite weighted_terms.
    pose proof (weighted_squares_length w p t Hlen) as Hl.
    destruct (weighted_squares w p t) as [|s0 s] eqn:Hs.
    + destruct p; [done|discriminate Hl].
    + simpl. by rewrite <- Hl.
  - intros ->. rewrite weighted_squares_same. unfold Qdiv. ring.
  - intros -> -> ->. reflexivity.
Qed.

Lemma WeightedMSELoss_is_weighted_mean_witness :
  WeightedMSELoss_forward (mkWeightedMSELoss 10) (Vec [0%Q; 0%Q]) (Vec [0%Q; 10%Q])
  = Ok (fin (Qsum (weighted_squares 10 [0%Q; 0%Q] [0%Q; 10%Q]) / inject_Z 2)).
Proof.
  apply (WeightedMSELoss_is_weighted_mean 10 [0%Q; 0%Q] [0%Q; 10%Q]);
    [reflexivity | discriminate].
Defined.

(** ** Early stopping *)

Lemma float_lt_fin (a b : Q) : float_lt (fin a) (fin b) = true <-> (a < b)%Q.
Proof. apply Qltb_lt. Qed.

Lemma float_lt_inf (a : Q) : float_lt (fin a) inf = true.
Proof. reflexivity. Qed.

Lemma float_lt_nan (a : pyfloat) : float_lt nan a = false /\ float_lt a nan = false.
Proof. by destruct a. Qed.

(** C4: the controller writes the best model with [torch.save] and never
    makes the directory of the best-model path. With the file system as the
    main script leaves it, where the checkpoint directory exists and the
    directory [early_stop] inside it does not, the first call of a new
    controller with the loss 1.0 sets the best loss to 1.0 and the counter to
    0 and then raises: no bundle is written. With the directory made by
    hand, the controller with patience 2 and the losses 1.0, 1.1, 0.5, 0.6
    leaves the flag unset, a fifth loss 0.7 sets it, and the best-model file
    holds the bundle of the third call. *)
Theorem EarlyStopping_call_missing_directory :
  let new := @EarlyStopping_init small_externals 2 false "checkpoints/early_stop" in
  let best := "checkpoints/early_stop/best_model.pt" in
  (best_loss new = inf /\ counter new = 0%Z /\ early_stop new = false
   /\ path_str (checkpoint_path new) = best)
  /\ (exists s w',
         @EarlyStopping_call small_externals new (fin 1) 0 driver_world
         = (Raise (RuntimeError "Parent directory checkpoints/early_stop does not exist."),
            s, w')
         /\ best_loss s = fin 1 /\ counter s = 0%Z
         /\ files w' !! best = None)
  /\ (exists s4 w4,
         @EarlyStopping_calls small_externals new
           [fin 1; fin (11 # 10); fin (5 # 10); fin (6 # 10)] 0 prepared_world
         = (Ok tt, s4, w4)
         /\ early_stop s4 = false /\ counter s4 = 1%Z /\ best_loss s4 = fin (5 # 10))
  /\ (exists s5 w5,
         @EarlyStopping_calls small_externals new
           [fin 1; fin (11 # 10); fin (5 # 10); fin (6 # 10); fin (7 # 10)] 0 prepared_world
         = (Ok tt, s5, w5)
         /\ early_stop s5 = true /\ counter s5 = 2%Z /\ best_loss s5 = fin (5 # 10)
         /\ files w5 !! best
            = Some (mkBundle 2 (params prepared_world) (optimizer prepared_world)
                             (fin (5 # 10)))).
Proof.
  split; [by repeat split|].
  split; [|split].
  - eexists; eexists. split; [vm_compute; reflexivity|]. by repeat split.
  - eexists; eexists. split; [vm_compute; reflexivity|]. by repeat split.
  - eexists; eexists. split; [vm_compute; reflexivity|].
    split; [done|]. split; [done|]. split; [done|]. by vm_compute.
Qed.

(** ** Checkpoints *)

Lemma checkpoint_name_example :
  checkpoint_name 1 (fin (7925 # 10000)) = "epoch_2_loss_0.7925.pt".
Proof. reflexivity. Qed.

Lemma save_checkpoint_writes `{Externals} (epoch : Z) (loss : pyfloat) (dir : string)
      (w : World) :
  exists w1,
    save_checkpoint epoch loss dir w = (Ok tt, w1)
    /\ files w1 = <[path_join dir (checkpoint_name epoch loss) :=
                      mkBundle epoch (params w) (optimizer w) loss]> (files w)
    /\ params w1 = params w
    /\ optimizer w1 = optimizer w
    /\ dir ∈ dirs w1.
Proof.
  unfold save_checkpoint, torch_save, bind, get. simpl.
  destruct (bool_decide (dir ∈ dirs w)) eqn:Hd; simpl.
  - rewrite Hd. simpl. eexists. split; [reflexivity|]. simpl.
    repeat split; try done. by apply bool_decide_eq_true in Hd.
  - rewrite bool_decide_eq_true_2 by (apply elem_of_union_l, elem_of_singleton_2; done).
    simpl. eexists. split; [reflexivity|]. simpl.
    repeat split; try done. by apply elem_of_union_l, elem_of_singleton_2.
Qed.

Lemma copy_fitting_same (p state_dict : gmap string (Tensor Q)) :
  shape <$> state_dict = shape <$> p -> copy_fitting p state_dict = state_dict.
Proof.
  intros Hshape. apply map_eq. intros name. unfold copy_fitting.
  rewrite map_lookup_imap.
  assert (shape <$> state_dict !! name = shape <$> p !! name) as Hname
      by (by rewrite <- !lookup_fmap, Hshape).
  destruct (p !! name) as [old|], (state_dict !! name) as [new|]; simpl in *; try done.
  injection Hname as Hname. by rewrite decide_True.
Qed.

(** C8: a checkpoint is written under the name
    [epoch_{e+1}_loss_{L:.4f}.pt] in the directory; loading that file into a
    model with the same parameter names and shapes, and an optimizer with
    parameter groups of the same sizes, gives the saved parameters, the saved
    optimizer state, the epoch and the loss, all of them equal to what was
    saved. *)
Theorem checkpoint_round_trip `{Externals}
        (w : World) (epoch : Z) (loss : pyfloat) (dir : string) (w2 : World) :
  let path := path_join dir ("epoch_" +:+ pretty (epoch + 1)%Z +:+ "_loss_"
                                        +:+ format_4f loss +:+ ".pt") in
  files w2 !! path = files (snd (save_checkpoint epoch loss dir w)) !! path ->
  shape <$> params w2 = shape <$> params w ->
  map (fun g => length (group_params g)) (param_groups (optimizer w2))
  = map (fun g => length (group_params g)) (param_groups (optimizer w)) ->
  fst (save_checkpoint epoch loss dir w) = Ok tt
  /\ exists w3,
      load_checkpoint path w2 = (Ok (epoch, loss), w3)
      /\ params w3 = params w
      /\ optimizer w3 = optimizer w.
Proof.
  intros path Hfile Hshape Hgroups.
  destruct (save_checkpoint_writes epoch loss dir w) as (w1 & Hsave & Hfiles & _).
  rewrite Hsave in Hfile |- *. simpl in Hfile. split; [done|].
  rewrite Hfiles in Hfile. fold (checkpoint_name epoch loss) in path.
  subst path. rewrite lookup_insert_eq in Hfile.
  unfold load_checkpoint, torch_load, bind, get. simpl. rewrite Hfile. simpl.
  unfold model_load_state_dict, bind, get, modify. simpl.
  rewrite bool_decide_eq_true_2 by done. simpl.
  unfold optimizer_load_state_dict, bind, get. simpl.
  rewrite bool_decide_eq_true_2 by done. simpl.
  eexists. split; [reflexivity|]. simpl. split; [|done].
  by apply copy_fitting_same.
Qed.

Lemma checkpoint_round_trip_witness :
  exists w3,
    @load_checkpoint small_externals
      (@path_join small_externals "checkpoints" "epoch_2_loss_0.7925.pt")
      (set_files (files (snd (save_checkpoint 1 (fin (7925 # 10000)) "checkpoints"
                                              small_world)))
                 fresh_world)
    = (Ok (1%Z, fin (7925 # 10000)), w3)
    /\ params w3 = params small_world
    /\ optimizer w3 = optimizer small_world.
Proof.
  apply (@checkpoint_round_trip small_externals small_world 1 (fin (7925 # 10000))
           "checkpoints"
           (set_files (files (snd (save_checkpoint 1 (fin (7925 # 10000)) "checkpoints"
                                                   small_world)))
                      fresh_world));
    [reflexivity | by vm_compute | reflexivity].
Defined.

(** ** What the forward pass can change and raise *)

Create HintDb tame.

Section Tame.

Context `{Externals}.

Lemma same_store_refl (w : World) : same_store w w.
Proof. by repeat split. Qed.

Lemma same_store_trans (w1 w2 w3 : World) :
  same_store w1 w2 -> same_store w2 w3 -> same_store w1 w3.
Proof.
  intros (? & ? & ? & ? & ? & ?) (? & ? & ? & ? & ? & ?).
  repeat split; congruence.
Qed.

Lemma tame_ret (allowed : exn -> Prop) {A} (a : A) : tame allowed (ret a).
Proof.
  intros w r w' [= <- <-]. split; [apply same_store_refl|]. by split.
Qed.

Lemma tame_get (allowed : exn -> Prop) {A} (f : World -> A) : tame allowed (get f).
Proof.
  intros w r w' [= <- <-]. split; [apply same_store_refl|]. by split.
Qed.

Lemma tame_raise (allowed : exn -> Prop) {A} (e : exn) :
  allowed e -> tame allowed (@raise _ A e).
Proof.
  intros He w r w' [= <- <-]. split; [apply same_store_refl|].
  split; [done|]. by intros e' [= <-].
Qed.

Lemma tame_lift (allowed : exn -> Prop) {A} (c : outcome A) :
  tame_outcome allowed c -> tame allowed (lift c).
Proof.
  intros Hc w r w' [= <- <-]. split; [apply same_store_refl|]. by split.
Qed.

Lemma tame_with_rng (allowed : exn -> Prop) {A} (f : Rng -> A * Rng) :
  tame allowed (with_rng f).
Proof.
  intros w r w'. unfold with_rng. destruct (f (rng w)) as [a g].
  intros [= <- <-]. by repeat split.
Qed.

Lemma tame_bind (allowed : exn -> Prop) {A B} (c : M A) (k : A -> M B) :
  tame allowed c -> (forall a, tame allowed (k a)) -> tame allowed (bind c k).
Proof.
  intros Hc Hk w r w'. unfold bind.
  destruct (c w) as [[e|a] w1] eqn:Hcw.
  - intros [= <- <-]. destruct (Hc _ _ _ Hcw) as (Hs & Ht & He).
    split; [done|]. split; [done|]. intros e' [= <-]. by apply He.
  - intros Hka. destruct (Hc _ _ _ Hcw) as (Hs1 & Ht1 & _).
    destruct (Hk a _ _ _ Hka) as (Hs2 & Ht2 & He).
    split; [by apply (same_store_trans w w1 w')|]. split; [congruence|done].
Qed.

Lemma tame_weaken (P Q : exn -> Prop) {A} (c : M A) :
  (forall e, P e -> Q e) -> tame P c -> tame Q c.
Proof.
  intros HPQ Hc w r w' Hcw. destruct (Hc _ _ _ Hcw) as (Hs & Ht & He).
  split; [done|]. split; [done|]. intros e Hr. by apply HPQ, He.
Qed.

Lemma tame_size {A} (x : Tensor A) (i : nat) : tame_outcome shape_error (size x i).
Proof.
  intros e. unfold size. destruct (shape x !! i); [done|].
  intros [= <-]. exact I.
Qed.

Lemma tame_torch_cat (ts : list (Tensor Q)) : tame_outcome shape_error (torch_cat ts).
Proof.
  intros e. unfold torch_cat.
  repeat case_match; try done; intros [= <-]; exact I.
Qed.

Lemma tame_torch_mul (a b : Tensor Q) : tame_outcome shape_error (torch_mul a b).
Proof.
  intros e. unfold torch_mul.
  repeat case_match; try done; intros [= <-]; exact I.
Qed.

Lemma tame_global_mean_pool (x : Tensor Q) (batch : list nat) :
  tame_outcome shape_error (global_mean_pool x batch).
Proof.
  intros e. unfold global_mean_pool.
  repeat case_match; try done; intros [= <-]; exact I.
Qed.

Lemma tame_Linear_forward (p : gmap string (Tensor Q)) (l : Linear) (x : Tensor Q) :
  tame_outcome shape_error (Linear_forward p l x).
Proof.
  intros e. unfold Linear_forward.
  repeat case_match; try done; intros [= <-]; exact I.
Qed.

End Tame.

#[export] Hint Resolve tame_ret tame_get tame_with_rng tame_lift tame_size tame_torch_cat
  tame_torch_mul tame_global_mean_pool tame_Linear_forward : tame.

Ltac tame_step :=
  first
    [ apply tame_bind; [|intros ?]
    | apply tame_raise; exact I
    | match goal with
      | |- tame _ (if ?b then _ else _) => destruct b
      | |- tame _ (match ?a with _ => _ end) => destruct a
      end
    | solve [eauto with tame] ].

Ltac tame_auto := repeat tame_step.

Section TameLayers.

Context `{Externals}.

Lemma tame_linear (l : Linear) (x : Tensor Q) : tame shape_error (linear l x).
Proof. unfold linear. tame_auto. Qed.

Lemma tame_Dropout (p : Q) (x : Tensor Q) : tame shape_error (Dropout p x).
Proof. unfold Dropout. tame_auto. Qed.

Lemma tame_attend (name : string) (embed_dim num_heads : nat) (dropout : Q)
      (query key value : Tensor Q) :
  tame shape_error (attend name embed_dim num_heads dropout query key value).
Proof. unfold attend. tame_auto. Qed.

Hint Resolve tame_linear tame_Dropout tame_attend : tame.

Lemma tame_ProteinEncoder_forward (batch_sequences : list string) :
  tame shape_error (ProteinEncoder_forward batch_sequences).
Proof. unfold ProteinEncoder_forward. tame_auto. Qed.

Lemma tame_GNNEncoder_forward (x : Tensor Q) (edge_index : Tensor nat)
      (edge_attr : Tensor Q) (batch : list nat) :
  tame shape_error (GNNEncoder_forward x edge_index edge_attr batch).
Proof. unfold GNNEncoder_forward. tame_auto. Qed.

Lemma tame_CrossLayer_pad (e : Tensor Q) (max_dim : nat) :
  tame shape_error (CrossLayer_pad e max_dim).
Proof. unfold CrossLayer_pad. tame_auto. Qed.

Hint Resolve tame_ProteinEncoder_forward tame_GNNEncoder_forward tame_CrossLayer_pad : tame.

Lemma tame_CrossLayer_forward (self : CrossLayer) (pe de : Tensor Q) :
  tame shape_error (CrossLayer_forward self pe de).
Proof. unfold CrossLayer_forward. tame_auto. Qed.

Lemma tame_SelfAttentionLayer_forward (self : SelfAttentionLayer) (x : Tensor Q) :
  tame shape_error (SelfAttentionLayer_forward self x).
Proof. unfold SelfAttentionLayer_forward. tame_auto. Qed.

Lemma tame_CrossAttentionLayer_forward (self : CrossAttentionLayer) (pe de : Tensor Q) :
  tame shape_error (CrossAttentionLayer_forward self pe de).
Proof. unfold CrossAttentionLayer_forward. tame_auto. Qed.

Lemma tame_CapsuleLayer_forward (self : CapsuleLayerConfig) (x : Tensor Q) :
  tame shape_error (CapsuleLayer_forward self x).
Proof. unfold CapsuleLayer_forward. tame_auto. Qed.

Hint Resolve tame_CrossLayer_forward tame_SelfAttentionLayer_forward
  tame_CrossAttentionLayer_forward tame_CapsuleLayer_forward : tame.

Lemma tame_embeddings (protein_seq : list string) (drug_graph : Batch.t) :
  tame shape_error (embeddings protein_seq drug_graph).
Proof. unfold embeddings. tame_auto. Qed.

Lemma tame_fusion (self : AffinityPredictionModel) (pe de : Tensor Q) :
  tame shape_error (fusion self pe de).
Proof. unfold fusion. tame_auto. Qed.

Lemma tame_regression_head (self : AffinityPredictionModel) (combined : Tensor Q) :
  tame shape_error (regression_head self combined).
Proof. unfold regression_head. tame_auto. Qed.

Lemma tame_assert_same_batch_size (pe de : Tensor Q) :
  tame any_exn (assert_same_batch_size pe de).
Proof.
  unfold assert_same_batch_size.
  apply tame_bind; [apply (tame_weaken shape_error); [done|]; tame_auto|intros n1].
  apply tame_bind; [apply (tame_weaken shape_error); [done|]; tame_auto|intros n2].
  destruct (decide (n1 = n2)); [apply tame_ret|by apply tame_raise].
Qed.

(** The forward pass changes the random generator only. *)
Lemma tame_forward (self : AffinityPredictionModel) (protein_seq : list string)
      (drug_graph : Batch.t) :
  tame any_exn (forward self protein_seq drug_graph).
Proof.
  unfold forward, head_input.
  apply tame_bind; [|intros combined;
                     apply (tame_weaken shape_error); [done|apply tame_regression_head]].
  apply tame_bind; [apply (tame_weaken shape_error); [done|apply tame_embeddings]|].
  intros pd. apply tame_bind; [apply tame_assert_same_batch_size|intros _].
  apply (tame_weaken shape_error); [done|apply tame_fusion].
Qed.

End TameLayers.

(** ** The batch-size assertion *)

Lemma pool_size_distinct (batch : list nat) :
  contiguous batch -> pool_size batch = distinct_molecules batch.
Proof.
  intros Hc. unfold distinct_molecules.
  assert (remove_dups batch ≡ₚ seq 0 (pool_size batch)) as Hperm.
  { apply NoDup_Permutation; [apply NoDup_remove_dups|apply NoDup_seq|].
    intros j. rewrite elem_of_remove_dups, elem_of_seq. split.
    - intros Hj. split; [lia|]. simpl.
      destruct batch as [|b batch]; [by apply elem_of_nil in Hj|].
      unfold pool_size. apply max_list_elem_of_le in Hj. lia.
    - intros [_ Hj]. unfold contiguous in Hc.
      rewrite forallb_forall in Hc.
      specialize (Hc j). rewrite in_seq in Hc.
      apply bool_decide_eq_true in Hc; [done|lia]. }
  by rewrite Hperm, length_seq.
Qed.

Section Assertion.

Context `{Externals}.

Lemma embeddings_shapes (protein_seq : list string) (drug_graph : Batch.t)
      (w w1 : World) (pe de : Tensor Q) :
  embeddings protein_seq drug_graph w = (Ok (pe, de), w1) ->
  exists n_protein hidden width,
    shape pe = [n_protein; hidden]
    /\ shape de = [pool_size (Batch.batch drug_graph); width].
Proof.
  unfold embeddings, ProteinEncoder_forward, GNNEncoder_forward, bind, get, with_rng,
    lift, ret, raise.
  simpl.
  destruct (pretrained_model (params w) (training w) (rng w) protein_seq)
    as [outputs r].
  destruct (hs_tokens outputs); [done|]. simpl.
  destruct (global_mean_pool _ _) as [e|d] eqn:Hpool; simpl; [done|].
  intros [= <- <- <-].
  unfold global_mean_pool in Hpool.
  repeat case_match; try done.
  injection Hpool as <-. simpl. eauto.
Qed.

(** With both embeddings computed, [forward] raises the assertion exactly
    when the numbers of rows differ. *)
Lemma forward_assertion (model : AffinityPredictionModel) (protein_seq : list string)
      (drug_graph : Batch.t) (w w1 : World) (pe de : Tensor Q) (n_protein n_drug : nat) :
  embeddings protein_seq drug_graph w = (Ok (pe, de), w1) ->
  size pe 0 = Ok n_protein ->
  size de 0 = Ok n_drug ->
  (n_protein <> n_drug ->
   forward model protein_seq drug_graph w
   = (Raise (AssertionError (mismatch_message n_protein n_drug)), w1))
  /\ (n_protein = n_drug ->
      forall msg w', forward model protein_seq drug_graph w
                     <> (Raise (AssertionError msg), w')).
Proof.
  intros Hemb Hp Hd. split.
  - intros Hne. unfold forward, head_input, bind. rewrite Hemb. simpl.
    unfold assert_same_batch_size, bind, lift. rewrite Hp, Hd.
    by rewrite decide_False.
  - intros Heq msg w' Hfwd.
    unfold forward, head_input, bind in Hfwd. rewrite Hemb in Hfwd. simpl in Hfwd.
    unfold assert_same_batch_size, bind, lift in Hfwd. rewrite Hp, Hd in Hfwd.
    rewrite decide_True in Hfwd by done. simpl in Hfwd.
    assert (tame shape_error
              (bind (fusion model pe de) (regression_head model))) as Ht.
    { apply tame_bind; [apply tame_fusion|intros c; apply tame_regression_head]. }
    unfold bind in Ht.
    destruct (Ht w1 _ _ Hfwd) as (_ & _ & He).
    destruct (He _ eq_refl).
Qed.

End Assertion.




(** ** The input of the regression head *)

Section HeadInput.

Context `{Externals}.

Lemma bind_Ok_inv {A B} (c : M A) (k : A -> M B) (w w' : World) (b : B) :
  bind c k w = (Ok b, w') ->
  exists a w1, c w = (Ok a, w1) /\ k a w1 = (Ok b, w').
Proof.
  unfold bind. destruct (c w) as [[e|a] w1]; [done|]. eauto.
Qed.

Lemma lift_Ok_inv {A} (c : outcome A) (w w' : World) (a : A) :
  lift c w = (Ok a, w') -> c = Ok a /\ w' = w.
Proof. by intros [= -> ->]. Qed.

Lemma get_Ok_inv {A} (f : World -> A) (w w' : World) (a : A) :
  get f w = (Ok a, w') -> a = f w /\ w' = w.
Proof. by intros [= <- <-]. Qed.

Lemma Linear_forward_shape (p : gmap string (Tensor Q)) (l : Linear) (x y : Tensor Q) :
  Linear_forward p l x = Ok y ->
  exists n, shape x = [n; in_features l] /\ shape y = [n; out_features l].
Proof.
  unfold Linear_forward. repeat case_match; try done.
  intros [= <-]. subst. simpl. eauto.
Qed.

Lemma linear_shape (l : Linear) (x y : Tensor Q) (w w' : World) :
  linear l x w = (Ok y, w') ->
  exists n, shape x = [n; in_features l] /\ shape y = [n; out_features l].
Proof.
  unfold linear. intros Hl.
  apply bind_Ok_inv in Hl as (p & w1 & _ & Hl).
  apply lift_Ok_inv in Hl as [Hl _]. by apply Linear_forward_shape in Hl.
Qed.

Lemma CrossLayer_forward_shape (self : CrossLayer) (pe de c : Tensor Q) (w w' : World) :
  CrossLayer_forward self pe de w = (Ok c, w') ->
  exists n, shape c = [n; out_features (cl_fc3 self)].
Proof.
  unfold CrossLayer_forward. intros Hc.
  repeat (apply bind_Ok_inv in Hc as (? & ? & _ & Hc)).
  apply lift_Ok_inv in Hc as [Hc _].
  apply Linear_forward_shape in Hc as (n & _ & Hc). eauto.
Qed.

Lemma CrossAttentionLayer_forward_shape (self : CrossAttentionLayer) (pe de c : Tensor Q)
      (w w' : World) :
  CrossAttentionLayer_forward self pe de w = (Ok c, w') ->
  exists n, shape c = [n; out_features (fusion_fc self)].
Proof.
  unfold CrossAttentionLayer_forward. intros Hc.
  repeat (apply bind_Ok_inv in Hc as (? & ? & _ & Hc)).
  apply lift_Ok_inv in Hc as [Hc _].
  apply Linear_forward_shape in Hc as (n & _ & Hc). eauto.
Qed.

Lemma regression_head_shape (self : AffinityPredictionModel) (combined : Tensor Q)
      (predictions : vec) (w w' : World) :
  regression_head self combined w = (Ok predictions, w') ->
  exists n, shape combined = [n; in_features (fc1 self)].
Proof.
  unfold regression_head. intros Hr.
  apply bind_Ok_inv in Hr as (y & w1 & Hl & _).
  apply linear_shape in Hl as (n & Hl & _). eauto.
Qed.

Lemma assert_same_batch_size_Ok (pe de : Tensor Q) (w w' : World) (u : unit) :
  assert_same_batch_size pe de w = (Ok u, w') ->
  w' = w /\ exists n, size pe 0 = Ok n /\ size de 0 = Ok n.
Proof.
  unfold assert_same_batch_size. intros Ha.
  apply bind_Ok_inv in Ha as (n1 & w1 & Hn1 & Ha).
  apply lift_Ok_inv in Hn1 as [Hn1 ->].
  apply bind_Ok_inv in Ha as (n2 & w2 & Hn2 & Ha).
  apply lift_Ok_inv in Hn2 as [Hn2 ->].
  destruct (decide (n1 = n2)) as [<-|]; [|done].
  injection Ha as <-. eauto.
Qed.

Lemma has_rows_shape (n : nat) (x : Tensor Q) :
  has_rows n x = true -> exists width, shape x = [n; width].
Proof.
  unfold has_rows. repeat case_match; try done.
  intros Hn. apply bool_decide_eq_true in Hn. subst. eauto.
Qed.

Lemma torch_cat_Ok (ts : list (Tensor Q)) (c : Tensor Q) :
  torch_cat ts = Ok c ->
  exists n,
    shape c = [n; sum_list (widths ts)]
    /\ rows c = cat_rows (map rows ts) n
    /\ forallb (has_rows n) ts = true.
Proof.
  unfold torch_cat. destruct ts as [|x0 ts]; [done|].
  destruct (shape x0) as [|n [|k [|]]] eqn:Hs; try done.
  destruct (forallb (has_rows n) (x0 :: ts)) eqn:Hall; [|done].
  intros [= <-]. exists n. by simpl.
Qed.

(** Row [i] of a concatenation is the rows [i] of the parts, joined in
    order. *)
Lemma cat_rows_six (m1 m2 m3 m4 m5 m6 : list (list Q)) (n i : nat) (row : list Q) :
  cat_rows [m1; m2; m3; m4; m5; m6] n !! i = Some row ->
  exists r1 r2 r3 r4 r5 r6,
    m1 !! i = Some r1 /\ m2 !! i = Some r2 /\ m3 !! i = Some r3
    /\ m4 !! i = Some r4 /\ m5 !! i = Some r5 /\ m6 !! i = Some r6
    /\ row = r1 ++ r2 ++ r3 ++ r4 ++ r5 ++ r6.
Proof.
  simpl. intros Hrow.
  apply lookup_zip_with_Some in Hrow as (r1 & t1 & -> & H1 & Hrow).
  apply lookup_zip_with_Some in Hrow as (r2 & t2 & -> & H2 & Hrow).
  apply lookup_zip_with_Some in Hrow as (r3 & t3 & -> & H3 & Hrow).
  apply lookup_zip_with_Some in Hrow as (r4 & t4 & -> & H4 & Hrow).
  apply lookup_zip_with_Some in Hrow as (r5 & t5 & -> & H5 & Hrow).
  apply lookup_zip_with_Some in Hrow as (r6 & t6 & -> & H6 & Hrow).
  apply lookup_replicate in Hrow as [-> _].
  exists r1, r2, r3, r4, r5, r6. by rewrite app_nil_r.
Qed.

Lemma linear_returns (l : Linear) (x : Tensor Q) (n : nat) (w : World) :
  shape x = [n; in_features l] ->
  exists y, linear l x w = (Ok y, w) /\ shape y = [n; out_features l].
Proof.
  intros Hs. unfold linear, bind, get, lift, Linear_forward. simpl. rewrite Hs.
  rewrite decide_True by done. eexists. split; [reflexivity|done].
Qed.

Lemma linear_raises (l : Linear) (x : Tensor Q) (n k : nat) (w : World) :
  shape x = [n; k] -> k <> in_features l ->
  exists e, linear l x w = (Raise e, w).
Proof.
  intros Hs Hk. unfold linear, bind, get, lift, Linear_forward. simpl. rewrite Hs.
  rewrite decide_False by done. eauto.
Qed.

Lemma bind_returns {A B} (c : M A) (k : A -> M B) (a : A) (w w1 : World) :
  c w = (Ok a, w1) -> bind c k w = k a w1.
Proof. intros Hc. unfold bind. by rewrite Hc. Qed.

Lemma Dropout_returns (p : Q) (x : Tensor Q) (w : World) :
  exists y w', Dropout p x w = (Ok y, w') /\ shape y = shape x.
Proof.
  unfold Dropout, bind, get, with_rng, ret. simpl.
  destruct (training w).
  - destruct (dropout_mask _ _ _) as [mask r]. simpl. eauto.
  - eauto.
Qed.

(** The head returns exactly when its first layer accepts the width of its
    input, the three layers being sized in a chain. *)
Lemma regression_head_returns_iff (self : AffinityPredictionModel) (combined : Tensor Q)
      (n k : nat) (w : World) :
  in_features (fc2 self) = out_features (fc1 self) ->
  in_features (fc3 self) = out_features (fc2 self) ->
  shape combined = [n; k] ->
  (exists predictions w', regression_head self combined w = (Ok predictions, w'))
  <-> k = in_features (fc1 self).
Proof.
  intros H2 H3 Hs. split.
  - intros (predictions & w' & Hr).
    apply regression_head_shape in Hr as (m & Hm). congruence.
  - intros ->. unfold regression_head.
    destruct (linear_returns (fc1 self) combined n w Hs) as (x1 & Hx1 & Hs1).
    rewrite (bind_returns _ _ x1 w w Hx1).
    destruct (Dropout_returns (2 # 10) (relu x1) w) as (y1 & w1 & Hy1 & Hsy1).
    rewrite (bind_returns _ _ y1 w w1 Hy1).
    simpl in Hsy1. rewrite Hs1, <- H2 in Hsy1.
    destruct (linear_returns (fc2 self) y1 n w1 Hsy1) as (x2 & Hx2 & Hs2).
    rewrite (bind_returns _ _ x2 w1 w1 Hx2).
    destruct (Dropout_returns (2 # 10) (relu x2) w1) as (y2 & w2 & Hy2 & Hsy2).
    rewrite (bind_returns _ _ y2 w1 w2 Hy2).
    simpl in Hsy2. rewrite Hs2, <- H3 in Hsy2.
    destruct (linear_returns (fc3 self) y2 n w2 Hsy2) as (x3 & Hx3 & Hs3).
    rewrite (bind_returns _ _ x3 w2 w2 Hx3). eauto.
Qed.

(** The cross-attention layer accepts embeddings of the widths it was built
    for only. *)
Lemma CrossAttentionLayer_forward_inputs (self : CrossAttentionLayer) (pe de c : Tensor Q)
      (w w' : World) :
  CrossAttentionLayer_forward self pe de w = (Ok c, w') ->
  exists n1 n2,
    shape pe = [n1; in_features (protein_query self)]
    /\ shape de = [n2; in_features (drug_query self)].
Proof.
  unfold CrossAttentionLayer_forward. intros Hc.
  apply bind_Ok_inv in Hc as (pq & w1 & Hpq & Hc).
  apply bind_Ok_inv in Hc as (dq & w2 & Hdq & Hc).
  apply linear_shape in Hpq as (n1 & Hpq & _).
  apply linear_shape in Hdq as (n2 & Hdq & _). eauto.
Qed.

End HeadInput.




(** ** The training and evaluation loops *)

(** C10: [train_model] returns the same value and leaves the same state
    whatever criterion it is given: the loss of every batch is that of
    [WeightedMSELoss(weight=10)]. *)
Theorem train_model_ignores_criterion `{Externals}
        (model : AffinityPredictionModel) (data_loader : list Batch.t)
        (criterion1 criterion2 : vec -> vec -> outcome pyfloat) (w : World) :
  train_model model data_loader criterion1 w = train_model model data_loader criterion2 w
  /\ train_model model data_loader criterion1 w
     = bind (train_loop model (WeightedMSELoss_forward (mkWeightedMSELoss 10)) data_loader
                        (fin 0))
            (fun total_loss => lift (float_div_len total_loss (length data_loader)))
            (set_training true w).
Proof. split; reflexivity. Qed.

Section Evaluation.

Context `{Externals}.

Lemma evaluate_loop_results (model : AffinityPredictionModel)
      (criterion : vec -> vec -> outcome pyfloat) (batches : list Batch.t) :
  forall (acc acc' : EvalAcc) (w w' : World),
    evaluate_loop model criterion batches acc w = (Ok acc', w') ->
    exists results,
      batch_results model criterion batches w = (Ok results, w')
      /\ length results = length batches
      /\ acc_total_loss acc'
         = fold_left float_add (map br_loss results) (acc_total_loss acc)
      /\ all_preds acc' = all_preds acc ++ concat (map br_preds results)
      /\ all_targets acc' = all_targets acc ++ concat (map br_targets results).
Proof.
  induction batches as [|batch rest IH]; intros acc acc' w w' Hloop.
  - injection Hloop as <- <-. exists []. simpl. by rewrite !app_nil_r.
  - simpl in Hloop. apply bind_Ok_inv in Hloop as (acc1 & w1 & Hbatch & Hrest).
    unfold evaluate_batch in Hbatch.
    apply bind_Ok_inv in Hbatch as (predictions & w2 & Hfwd & Hbatch).
    apply bind_Ok_inv in Hbatch as (loss & w3 & Hloss & Hbatch).
    apply lift_Ok_inv in Hloss as [Hloss ->].
    apply bind_Ok_inv in Hbatch as (preds & w4 & Hpreds & Hbatch).
    apply lift_Ok_inv in Hpreds as [Hpreds ->].
    apply bind_Ok_inv in Hbatch as (targets & w5 & Htargets & Hbatch).
    apply lift_Ok_inv in Htargets as [Htargets ->].
    injection Hbatch as <- <-.
    destruct (IH _ _ _ _ Hrest) as (results & Hres & Hlen & Htot & Hp & Ht).
    exists (mkBatchResult preds targets loss :: results). split.
    { simpl. unfold bind, lift. rewrite Hfwd, Hloss, Hpreds, Htargets.
      unfold bind in Hres. by rewrite Hres. }
    simpl in *. rewrite Hlen, Htot, Hp, Ht. by rewrite <- !app_assoc.
Qed.

Lemma tame_evaluate_loop (model : AffinityPredictionModel)
      (criterion : vec -> vec -> outcome pyfloat) (batches : list Batch.t) :
  forall acc, tame any_exn (evaluate_loop model criterion batches acc).
Proof.
  induction batches as [|batch rest IH]; intros acc; simpl.
  - apply tame_ret.
  - apply tame_bind; [|intros acc'; apply IH].
    unfold evaluate_batch.
    apply tame_bind; [apply tame_forward|intros predictions].
    repeat (apply tame_bind; [by apply tame_lift|intros ?]).
    apply tame_ret.
Qed.

End Evaluation.

(** The loss that the loop adds up, against the sum written out. *)
Lemma float_eq_refl (a : pyfloat) : float_eq a a.
Proof. by destruct a. Qed.

Lemma float_eq_trans (a b c : pyfloat) : float_eq a b -> float_eq b c -> float_eq a c.
Proof. destruct a, b, c; simpl; try done. apply Qeq_trans. Qed.

Lemma sum_losses_add (a x : pyfloat) (l : list pyfloat) :
  float_eq (sum_losses (float_add a x :: l)) (sum_losses (a :: x :: l)).
Proof.
  unfold sum_losses, finite_losses.
  destruct a as [| |qa|], x as [| |qx|]; simpl;
    destruct (existsb is_nan l), (existsb is_inf l), (existsb is_neg_inf l); simpl;
    try exact I.
  all: unfold Qsum; simpl; ring.
Qed.

Lemma fold_float_add (l : list pyfloat) :
  forall a, float_eq (fold_left float_add l a) (sum_losses (a :: l)).
Proof.
  induction l as [|x l IH]; intros a; simpl.
  - destruct a; simpl; try done. unfold Qsum. simpl. ring.
  - eapply float_eq_trans; [apply IH|apply sum_losses_add].
Qed.

Lemma sum_losses_from_zero (l : list pyfloat) :
  float_eq (fold_left float_add l (fin 0)) (sum_losses l).
Proof.
  eapply float_eq_trans; [apply fold_float_add|].
  unfold sum_losses, finite_losses. simpl.
  destruct (existsb is_nan l), (existsb is_inf l), (existsb is_neg_inf l); simpl;
    try exact I.
  apply Qplus_0_l.
Qed.

Lemma float_div_len_mean (total avg : pyfloat) (losses : list pyfloat) :
  float_eq total (sum_losses losses) ->
  float_div_len total (length losses) = Ok avg ->
  losses <> [] /\ float_eq avg (mean_loss losses).
Proof.
  intros Htotal. unfold float_div_len, mean_loss.
  destruct losses as [|l0 losses]; [done|].
  intros [= <-]. split; [done|].
  destruct total as [| |x|], (sum_losses (l0 :: losses)) as [| |y|]; simpl in *; try done.
  by rewrite Htotal.
Qed.



(** ** The edges of the graph and the bonds of the molecule *)

Lemma edges_from_app (l1 l2 : list (nat * list nat)) :
  forall seen,
    nx.edges_from seen (l1 ++ l2)
    = nx.edges_from seen l1 ++ nx.edges_from (reverse (map fst l1) ++ seen) l2.
Proof.
  induction l1 as [|[k nb] l1 IH]; intros seen; simpl; [done|].
  rewrite IH, reverse_cons, <- !app_assoc. done.
Qed.

Lemma dict_get_middle {V} (k : nat) (v : V) (pre post : list (nat * V)) :
  k ∉ map fst pre -> nx.dict_get k (pre ++ (k, v) :: post) = Some v.
Proof.
  induction pre as [|[k' v'] pre IH]; simpl.
  - intros _. by rewrite decide_True.
  - rewrite not_elem_of_cons. intros [Hne Hk]. rewrite decide_False by congruence. by apply IH.
Qed.

Lemma link_middle (u v : nat) (nb : list nat) (pre post : list (nat * list nat)) :
  u ∉ map fst pre ->
  nx.link u v (pre ++ (u, nb) :: post)
  = pre ++ (u, if bool_decide (v ∈ nb) then nb else nb ++ [v]) :: post.
Proof.
  induction pre as [|[k nb'] pre IH]; simpl.
  - intros _. by rewrite link_cons, decide_True.
  - rewrite not_elem_of_cons. intros [Hne Hk].
    rewrite link_cons, decide_False by congruence. by rewrite IH.
Qed.

Lemma link_skip (u v : nat) (pre post : list (nat * list nat)) :
  u ∉ map fst pre -> nx.link u v (pre ++ post) = pre ++ nx.link u v post.
Proof.
  induction pre as [|[k nb'] pre IH]; simpl; [done|].
  rewrite not_elem_of_cons. intros [Hne Hk].
  rewrite link_cons, decide_False by congruence. by rewrite IH.
Qed.

Lemma keys_split (n u : nat) (adj : list (nat * list nat)) :
  map fst adj = seq 0 n -> u < n ->
  exists pre post,
    adj = pre ++ (u, nbrs adj u) :: post
    /\ map fst pre = seq 0 u
    /\ map fst post = seq (S u) (n - S u).
Proof.
  intros Hkeys Hu.
  assert (exists nb, adj !! u = Some (u, nb)) as [nb Hnb].
  { assert (map fst adj !! u = Some u) as Hl by (rewrite Hkeys; apply lookup_seq; lia).
    change (map fst adj) with (fst <$> adj) in Hl. rewrite list_lookup_fmap in Hl.
    destruct (adj !! u) as [[k nb]|]; [|done]. simpl in Hl. injection Hl as ->. eauto. }
  pose proof (take_drop_middle adj u (u, nb) Hnb) as Hsplit.
  assert (map fst (take u adj) = seq 0 u) as Hpre.
  { rewrite <- firstn_map, Hkeys, take_seq. f_equal. lia. }
  assert (map fst (drop (S u) adj) = seq (S u) (n - S u)) as Hpost.
  { by rewrite <- skipn_map, Hkeys, drop_seq. }
  exists (take u adj), (drop (S u) adj). split; [|done].
  rewrite <- Hsplit at 1. do 2 f_equal.
  unfold nbrs. rewrite <- Hsplit, dict_get_middle; [done|].
  rewrite Hpre, elem_of_seq. lia.
Qed.

Lemma edges_elem (n u v : nat) (adj : list (nat * list nat)) :
  map fst adj = seq 0 n -> u < n -> v ∈ nbrs adj u -> u <= v ->
  (u, v) ∈ nx.edges_from [] adj.
Proof.
  intros Hkeys Hu Hv Huv.
  destruct (keys_split n u adj Hkeys Hu) as (pre & post & Hadj & Hpre & _).
  rewrite Hadj, edges_from_app. apply elem_of_app. right. simpl.
  apply elem_of_app. left.
  change (map (pair u) ?l) with (pair u <$> l).
  apply list_elem_of_fmap. exists v. split; [done|].
  apply list_elem_of_filter. split; [|done].
  rewrite app_nil_r, elem_of_reverse, Hpre, elem_of_seq. lia.
Qed.

Lemma edges_elem_inv (n u v : nat) (adj : list (nat * list nat)) :
  map fst adj = seq 0 n ->
  (u, v) ∈ nx.edges_from [] adj ->
  u < n /\ v ∈ nbrs adj u /\ u <= v.
Proof.
  intros Hkeys.
  assert (forall l seen k,
             map fst l = seq k (length l) ->
             (forall j, j < k -> j ∈ seen) ->
             (u, v) ∈ nx.edges_from seen l ->
             k <= u < k + length l /\ v ∈ nbrs l u /\ u <= v) as Hgen.
  { induction l as [|[k' nb] l IH]; intros seen k Hk Hseen Hin; simpl in *.
    - by apply elem_of_nil in Hin.
    - injection Hk as -> Hk. apply elem_of_app in Hin as [Hin|Hin].
      + change (map (pair k) ?l) with (pair k <$> l) in Hin.
        apply list_elem_of_fmap in Hin as (y & [= -> ->] & Hy).
        apply list_elem_of_filter in Hy as [Hns Hy].
        split; [lia|]. unfold nbrs. simpl. rewrite decide_True by done. split; [done|].
        destruct (decide (k <= y)); [done|]. exfalso. apply Hns, Hseen. lia.
      + destruct (IH (k :: seen) (S k) Hk) as (Hu & Hv & Huv); [|done|].
        { intros j Hj. destruct (decide (j = k)) as [->|]; [apply list_elem_of_here|].
          apply list_elem_of_further, Hseen. lia. }
        split; [lia|]. split; [|done].
        unfold nbrs in *. simpl. rewrite decide_False by lia. done. }
  intros Hin. destruct (Hgen adj [] 0) as (Hu & Hv & Huv); try done.
  - rewrite Hkeys. f_equal. by rewrite <- (length_map fst), Hkeys, length_seq.
  - lia.
  - split; [|done]. rewrite <- (length_map fst), Hkeys, length_seq in Hu. lia.
Qed.

Lemma add_edge_nbrs (n u v : nat) (G : nx.Graph) (R : nat -> nat -> Prop) :
  map fst (nx._node G) = seq 0 n ->
  map fst (nx._adj G) = seq 0 n ->
  (forall x y, y ∈ nbrs (nx._adj G) x <-> R x y) ->
  u < n -> v < n ->
  let G' := nx.add_edge u v G in
  map fst (nx._node G') = seq 0 n
  /\ map fst (nx._adj G') = seq 0 n
  /\ (forall x y, y ∈ nbrs (nx._adj G') x
                  <-> R x y \/ (x = u /\ y = v) \/ (x = v /\ y = u)).
Proof.
  intros Hnode Hadj Hnbrs Hu Hv.
  assert (u ∈ seq 0 n) as Hu' by (rewrite elem_of_seq; lia).
  assert (v ∈ seq 0 n) as Hv' by (rewrite elem_of_seq; lia).
  unfold nx.add_edge, nx.touch.
  rewrite (dict_mem_true u) by by rewrite Hnode.
  rewrite (dict_mem_true v) by by rewrite Hnode.
  simpl. split; [done|]. split; [by rewrite !link_keys|].
  intros x y. rewrite nbrs_link by by rewrite link_keys, Hadj.
  rewrite nbrs_link by by rewrite Hadj.
  rewrite Hnbrs. tauto.
Qed.

Lemma bond_loop_nbrs (n : nat) (bonds : list Bond) :
  forall (G : nx.Graph) (R : nat -> nat -> Prop) (ef : list (list Q)),
    map fst (nx._node G) = seq 0 n ->
    map fst (nx._adj G) = seq 0 n ->
    (forall x y, y ∈ nbrs (nx._adj G) x <-> R x y) ->
    forallb (valid_bond n) bonds = true ->
    let G' := snd (fold_left
                     (fun (acc : list (list Q) * nx.Graph) (bond : Bond) =>
                        (fst acc ++ [edge_feature bond],
                         nx.add_edge (GetBeginAtomIdx bond) (GetEndAtomIdx bond) (snd acc)))
                     bonds (ef, G)) in
    map fst (nx._adj G') = seq 0 n
    /\ (forall x y, y ∈ nbrs (nx._adj G') x
                    <-> R x y \/ exists bond, bond ∈ bonds /\ joins bond x y).
Proof.
  induction bonds as [|bond bonds IH]; intros G R ef Hnode Hadj Hnbrs Hvalid; simpl.
  - split; [done|]. intros x y. rewrite Hnbrs. split; [tauto|].
    intros [?|(b & Hb & _)]; [done|]. by apply elem_of_nil in Hb.
  - simpl in Hvalid. apply andb_prop in Hvalid as [Hb Hvalid].
    apply bool_decide_eq_true in Hb as (Hu & Hv & Huv).
    destruct (add_edge_nbrs n _ _ G R Hnode Hadj Hnbrs Hu Hv) as (Hnode' & Hadj' & Hnbrs').
    destruct (IH _ _ (ef ++ [edge_feature bond]) Hnode' Hadj' Hnbrs' Hvalid) as [Hk Hn].
    split; [done|]. intros x y. rewrite Hn. unfold joins. split.
    + intros [[?|Hnew]|(b & Hb & Hj)].
      * by left.
      * right. exists bond. split; [apply list_elem_of_here|].
        destruct Hnew as [[-> ->]|[-> ->]]; [by left|by right].
      * right. exists b. split; [by apply list_elem_of_further|done].
    + intros [?|(b & Hb & Hj)]; [by left; left|].
      apply elem_of_cons in Hb as [->|Hb].
      * left. right. destruct Hj as [[<- <-]|[<- <-]]; [by left|by right].
      * right. eauto.
Qed.

Lemma mol_to_graph_unfold (mol : Mol) :
  let G0 := snd (atom_loop (GetAtoms mol)) in
  let G := snd (bond_loop (GetBonds mol) G0) in
  mol_to_graph mol
  = mkData (torch_tensor (map (map inject_Z) (fst (atom_loop (GetAtoms mol)))))
           (t 0 (torch_tensor (map pair_to_list (nx.edges G))))
           (torch_tensor (fst (bond_loop (GetBonds mol) G0)))
           (length (nx.nodes G))
           (length (nx.edges G)).
Proof.
  unfold mol_to_graph. destruct (atom_loop (GetAtoms mol)) as [nf G0]. simpl.
  by destruct (bond_loop (GetBonds mol) G0) as [ef G].
Qed.

Lemma edge_columns_edges (es : list (nat * nat)) (xs ea : Tensor Q) (n m : nat) :
  edge_columns (mkData xs (t 0 (torch_tensor (map pair_to_list es))) ea n m) = es.
Proof.
  unfold edge_columns. simpl. destruct es as [|e es]; [done|].
  unfold t, column. simpl. rewrite !map_map. simpl.
  f_equal; [by destruct e|].
  change (map ?f es) with (f <$> es). apply zip_fst_snd.
Qed.

Lemma final_graph (mol : Mol) :
  forallb (valid_bond (length (GetAtoms mol))) (GetBonds mol) = true ->
  let G := snd (bond_loop (GetBonds mol) (snd (atom_loop (GetAtoms mol)))) in
  map fst (nx._adj G) = seq 0 (length (GetAtoms mol))
  /\ (forall x y, y ∈ nbrs (nx._adj G) x
                  <-> exists bond, bond ∈ GetBonds mol /\ joins bond x y).
Proof.
  intros Hvalid.
  destruct (atom_loop_graph (GetAtoms mol)) as (Hnode & Hadj & Hnbrs & _).
  destruct (bond_loop_nbrs (length (GetAtoms mol)) (GetBonds mol)
              (snd (atom_loop (GetAtoms mol))) (fun _ _ => False) [] Hnode Hadj)
    as [Hkeys Hn]; [|done|].
  { intros x y. rewrite Hnbrs. split; [by intros ?%elem_of_nil|done]. }
  split; [done|]. intros x y. unfold bond_loop. rewrite Hn. tauto.
Qed.

Lemma norm_bond_joins (bond bond' : Bond) :
  norm_bond bond' = norm_bond bond <->
  joins bond' (GetBeginAtomIdx bond) (GetEndAtomIdx bond).
Proof. unfold norm_bond, joins. split; [intros [= ? ?]; lia|intros ?; f_equal; lia]. Qed.

Lemma distinct_bonds_NoDup (bonds : list Bond) :
  distinct_bonds bonds = true -> NoDup (map norm_bond bonds).
Proof.
  induction bonds as [|bond bonds IH]; simpl; [intros _; constructor|].
  intros [Hothers Hdistinct]%andb_prop. constructor; [|by apply IH].
  change (map norm_bond bonds) with (norm_bond <$> bonds).
  intros (bond' & Heq & Hin)%list_elem_of_fmap.
  rewrite forallb_forall in Hothers. specialize (Hothers bond').
  rewrite <- list_elem_of_In in Hothers. specialize (Hothers Hin).
  apply negb_true_iff, bool_decide_eq_false in Hothers.
  apply Hothers, norm_bond_joins. done.
Qed.

(** X1: for a molecule whose bonds join distinct pairs of its own atoms, the
    columns of the edge index are the bonds, each one once, written with the
    smaller atom index first whichever atom the bond begins at. *)
Theorem edge_index_holds_each_bond_once (mol : Mol) :
  well_formed mol = true ->
  edge_columns (mol_to_graph mol) ≡ₚ map norm_bond (GetBonds mol)
  /\ (forall u v, (u, v) ∈ edge_columns (mol_to_graph mol) -> u < v).
Proof.
  intros Hwf. pose proof Hwf as Hwf'.
  apply andb_prop in Hwf' as [Hvalid Hdistinct].
  destruct (mol_to_graph_counts mol Hwf) as (_ & Hcount & _).
  destruct (final_graph mol Hvalid) as [Hkeys Hnbrs].
  rewrite mol_to_graph_unfold in *. simpl in Hcount.
  rewrite edge_columns_edges.
  set (G := snd (bond_loop (GetBonds mol) (snd (atom_loop (GetAtoms mol))))) in *.
  split.
  - symmetry. apply submseteq_length_Permutation.
    + apply NoDup_submseteq; [by apply distinct_bonds_NoDup|].
      change (map norm_bond (GetBonds mol)) with (norm_bond <$> GetBonds mol).
      intros e (bond & -> & Hin)%list_elem_of_fmap.
      rewrite forallb_forall in Hvalid. specialize (Hvalid bond).
      rewrite <- list_elem_of_In in Hvalid. specialize (Hvalid Hin).
      apply bool_decide_eq_true in Hvalid as (Hu & Hv & Huv).
      unfold nx.edges, norm_bond.
      apply (edges_elem (length (GetAtoms mol))); [done|lia| |lia].
      apply Hnbrs. exists bond. split; [done|]. unfold joins. lia.
    + by rewrite length_map, Hcount.
  - intros u v Hin. unfold nx.edges in Hin.
    apply (edges_elem_inv (length (GetAtoms mol))) in Hin as (Hu & Hv & Huv); [|done].
    apply Hnbrs in Hv as (bond & Hin & Hj).
    rewrite forallb_forall in Hvalid. specialize (Hvalid bond).
    rewrite <- list_elem_of_In in Hvalid. specialize (Hvalid Hin).
    apply bool_decide_eq_true in Hvalid as (_ & _ & Hne).
    unfold joins in Hj. lia.
Qed.

Lemma edge_index_holds_each_bond_once_witness :
  edge_columns (mol_to_graph aminoacetaldehyde) ≡ₚ map norm_bond (GetBonds aminoacetaldehyde).
Proof.
  apply (edge_index_holds_each_bond_once aminoacetaldehyde). reflexivity.
Defined.

Lemma filter_all_seen (seen nb : list nat) :
  (forall y, y ∈ nb -> y ∈ seen) -> filter (fun nbr => nbr ∉ seen) nb = [].
Proof.
  induction nb as [|y nb IH]; intros Hall; [done|].
  rewrite filter_cons_False.
  - apply IH. intros z Hz. by apply Hall, list_elem_of_further.
  - intros Hn. apply Hn, Hall, list_elem_of_here.
Qed.

Lemma edges_from_all_seen (post : list (nat * list nat)) :
  forall seen,
    (forall k nb y, (k, nb) ∈ post -> y ∈ nb -> y ∈ seen) ->
    nx.edges_from seen post = [].
Proof.
  induction post as [|[k nb] post IH]; intros seen Hall; simpl; [done|].
  rewrite filter_all_seen.
  - simpl. apply IH. intros k' nb' y Hin Hy.
    apply list_elem_of_further. by apply (Hall k' nb'); [apply list_elem_of_further|].
  - intros y Hy. by apply (Hall k nb); [apply list_elem_of_here|].
Qed.

Lemma dict_get_elem {V} (k : nat) (v : V) (d : list (nat * V)) :
  NoDup (map fst d) -> (k, v) ∈ d -> nx.dict_get k d = Some v.
Proof.
  induction d as [|[k' v'] d IH]; simpl.
  - intros _ Hin. by apply elem_of_nil in Hin.
  - intros [Hk' Hnd]%NoDup_cons [[= -> ->]|Hin]%elem_of_cons.
    + by rewrite decide_True.
    + rewrite decide_False; [by apply IH|].
      intros ->. apply Hk'.
      change (map fst d) with (fst <$> d). apply list_elem_of_fmap.
      eexists. split; [|exact Hin]. done.
Qed.

Lemma link_comm (u v : nat) (adj : list (nat * list nat)) :
  u <> v -> nx.link v u (nx.link u v adj) = nx.link u v (nx.link v u adj).
Proof.
  intros Huv. induction adj as [|[k nb] adj IH]; [done|].
  rewrite !(link_cons _ _ k nb adj).
  destruct (decide (k = u)) as [Hku|Hku]; destruct (decide (k = v)) as [Hkv|Hkv];
    try congruence; rewrite !link_cons.
  - rewrite (decide_False (P := k = v)), (decide_True (P := k = u)) by done. done.
  - rewrite (decide_False (P := k = u)), (decide_True (P := k = v)) by done. done.
  - rewrite (decide_False (P := k = u)), (decide_False (P := k = v)) by done.
    by rewrite IH.
Qed.

(** Adding the edge [a]-[b], [a < b], when no later node than [a] has a
    neighbour above [a]: the edge comes last in [G.edges]. *)
Lemma edges_from_link_last (n a b : nat) (adj : list (nat * list nat)) :
  map fst adj = seq 0 n ->
  a < b -> b < n ->
  b ∉ nbrs adj a ->
  (forall k y, a < k -> y ∈ nbrs adj k -> y <= a) ->
  nx.edges_from [] (nx.link b a (nx.link a b adj)) = nx.edges_from [] adj ++ [(a, b)].
Proof.
  intros Hkeys Hab Hb Hnew Hlater.
  destruct (keys_split n a adj Hkeys) as (pre & post & Hadj & Hpre & Hpost); [lia|].
  assert (NoDup (map fst adj)) as Hnd by (rewrite Hkeys; apply NoDup_seq).
  assert (a ∉ map fst pre) as Ha by (rewrite Hpre, elem_of_seq; lia).
  assert (b ∉ map fst pre) as Hb' by (rewrite Hpre, elem_of_seq; lia).
  assert (nx.edges_from (a :: reverse (map fst pre) ++ []) post = []) as Hnil.
  { apply edges_from_all_seen. intros k nb y Hin Hy.
    assert (a < k) as Hk.
    { assert (k ∈ map fst post) as Hk.
      { change (map fst post) with (fst <$> post).
        apply list_elem_of_fmap. by exists (k, nb). }
      rewrite Hpost, elem_of_seq in Hk. lia. }
    assert (nbrs adj k = nb) as Hnb.
    { unfold nbrs. rewrite (dict_get_elem k nb adj Hnd); [done|].
      rewrite Hadj. apply elem_of_app. right. by apply list_elem_of_further. }
    specialize (Hlater k y Hk). rewrite Hnb in Hlater. specialize (Hlater Hy).
    destruct (decide (y = a)) as [->|]; [apply list_elem_of_here|].
    apply list_elem_of_further. rewrite app_nil_r, elem_of_reverse, Hpre, elem_of_seq. lia. }
  rewrite Hadj at 1 2.
  rewrite link_middle by done. rewrite bool_decide_eq_false_2 by done.
  rewrite link_skip by done. rewrite link_cons, decide_False by lia.
  rewrite !edges_from_app. simpl.
  rewrite edges_from_absorb by apply list_elem_of_here.
  rewrite Hnil, filter_app, filter_cons_True, filter_nil.
  - rewrite map_app. simpl. by rewrite !app_nil_r, <- app_assoc.
  - rewrite app_nil_r, elem_of_reverse, Hpre, elem_of_seq. lia.
Qed.

Lemma bond_loop_sorted (n : nat) (bonds : list Bond) :
  forall (G : nx.Graph) (R : nat -> nat -> Prop) (m : nat) (ef : list (list Q)),
    map fst (nx._node G) = seq 0 n ->
    map fst (nx._adj G) = seq 0 n ->
    (forall x y, y ∈ nbrs (nx._adj G) x <-> R x y) ->
    (forall x y, R x y -> Nat.min x y <= m) ->
    forallb (valid_bond n) bonds = true ->
    distinct_bonds bonds = true ->
    (forall bond, bond ∈ bonds ->
                  ~ R (GetBeginAtomIdx bond) (GetEndAtomIdx bond)
                  /\ ~ R (GetEndAtomIdx bond) (GetBeginAtomIdx bond)) ->
    sorted_from m bonds = true ->
    let G' := snd (fold_left
                     (fun (acc : list (list Q) * nx.Graph) (bond : Bond) =>
                        (fst acc ++ [edge_feature bond],
                         nx.add_edge (GetBeginAtomIdx bond) (GetEndAtomIdx bond) (snd acc)))
                     bonds (ef, G)) in
    nx.edges G' = nx.edges G ++ map norm_bond bonds.
Proof.
  induction bonds as [|bond bonds IH];
    intros G R m ef Hnode Hadj Hnbrs Hmin Hvalid Hdistinct Hnew Hsorted; simpl.
  - by rewrite app_nil_r.
  - simpl in Hvalid, Hdistinct, Hsorted.
    apply andb_prop in Hvalid as [Hb Hvalid].
    apply andb_prop in Hdistinct as [Hothers Hdistinct].
    apply andb_prop in Hsorted as [Hm Hsorted].
    apply bool_decide_eq_true in Hb as (Hu & Hv & Huv).
    apply bool_decide_eq_true in Hm. simpl in Hm.
    destruct (Hnew bond) as [HRuv HRvu]; [apply list_elem_of_here|].
    destruct (add_edge_nbrs n _ _ G R Hnode Hadj Hnbrs Hu Hv) as (Hnode' & Hadj' & Hnbrs').
    rewrite (IH _ _ (fst (norm_bond bond)) _ Hnode' Hadj' Hnbrs'); try done.
    + rewrite (cons_middle (norm_bond bond)), app_assoc. f_equal.
      unfold nx.edges, nx.add_edge, nx.touch.
      assert (GetBeginAtomIdx bond ∈ seq 0 n) as Hu' by (rewrite elem_of_seq; lia).
      assert (GetEndAtomIdx bond ∈ seq 0 n) as Hv' by (rewrite elem_of_seq; lia).
      rewrite (dict_mem_true (GetBeginAtomIdx bond)) by by rewrite Hnode.
      rewrite (dict_mem_true (GetEndAtomIdx bond)) by by rewrite Hnode.
      simpl. unfold norm_bond.
      destruct (decide (GetBeginAtomIdx bond < GetEndAtomIdx bond)) as [Hlt|Hge].
      * rewrite Nat.min_l, Nat.max_r by lia.
        apply (edges_from_link_last n); try done.
        -- by rewrite Hnbrs.
        -- intros k y Hk Hy. apply Hnbrs, Hmin in Hy. simpl in Hm. lia.
      * rewrite Nat.min_r, Nat.max_l by lia.
        rewrite <- link_comm by done.
        apply (edges_from_link_last n); try done; try lia.
        -- by rewrite Hnbrs.
        -- intros k y Hk Hy. apply Hnbrs, Hmin in Hy. simpl in Hm. lia.
    + intros x y [HR|[[-> ->]|[-> ->]]]; simpl.
      * apply Hmin in HR. lia.
      * lia.
      * lia.
    + intros bond' Hin.
      destruct (Hnew bond') as [HR1 HR2]; [by apply list_elem_of_further|].
      rewrite forallb_forall in Hothers.
      specialize (Hothers bond'). rewrite <- list_elem_of_In in Hothers.
      specialize (Hothers Hin). apply negb_true_iff, bool_decide_eq_false in Hothers.
      unfold joins in Hothers. split; intros [?|[[? ?]|[? ?]]]; tauto.
Qed.

Lemma zip_map_both {A B C} (f : A -> B) (g : A -> C) (l : list A) :
  zip (map f l) (map g l) = map (fun a => (f a, g a)) l.
Proof. induction l as [|a l IH]; simpl; [done|by rewrite IH]. Qed.

Lemma Qlist_eqb_refl (a : list Q) : Qlist_eqb a a = true.
Proof.
  induction a as [|q a IH]; simpl; [done|].
  rewrite IH, andb_true_r. apply Qeq_bool_iff. reflexivity.
Qed.

Lemma describes_own_bond (bond : Bond) :
  describes bond (norm_bond bond, edge_feature bond) = true.
Proof.
  unfold describes, norm_bond. rewrite Qlist_eqb_refl. simpl.
  apply orb_true_iff.
  destruct (decide (GetBeginAtomIdx bond <= GetEndAtomIdx bond)).
  - left. apply bool_decide_eq_true. lia.
  - right. apply bool_decide_eq_true. lia.
Qed.

(** X2: when the bonds are listed in non-decreasing order of their smaller
    atom index, column [i] of the edge index is bond [i] and row [i] of the
    edge features holds the features of bond [i]: every edge entry describes
    its bond. *)
Theorem edge_entries_follow_sorted_bonds (mol : Mol) :
  well_formed mol = true ->
  sorted_from 0 (GetBonds mol) = true ->
  edge_columns (mol_to_graph mol) = map norm_bond (GetBonds mol)
  /\ edge_entries (mol_to_graph mol)
     = map (fun bond => (norm_bond bond, edge_feature bond)) (GetBonds mol)
  /\ edges_paired mol (mol_to_graph mol) = true.
Proof.
  intros Hwf Hsorted. apply andb_prop in Hwf as [Hvalid Hdistinct].
  destruct (atom_loop_graph (GetAtoms mol)) as (Hnode & Hadj & Hnbrs & Hedges).
  pose proof (bond_loop_sorted (length (GetAtoms mol)) (GetBonds mol)
                (snd (atom_loop (GetAtoms mol))) (fun _ _ => False) 0 [] Hnode Hadj)
    as Horder.
  simpl in Horder. fold (bond_loop (GetBonds mol) (snd (atom_loop (GetAtoms mol)))) in Horder.
  rewrite Hedges in Horder. simpl in Horder.
  assert (edge_columns (mol_to_graph mol) = map norm_bond (GetBonds mol)) as Hcols.
  { rewrite mol_to_graph_unfold, edge_columns_edges. apply Horder; try done.
    - intros x y. rewrite Hnbrs. split; [by intros ?%elem_of_nil|done].
    - intros bond _. tauto. }
  assert (edge_entries (mol_to_graph mol)
          = map (fun bond => (norm_bond bond, edge_feature bond)) (GetBonds mol)) as Hentries.
  { change (edge_entries (mol_to_graph mol))
      with (zip (edge_columns (mol_to_graph mol)) (rows (edge_attr (mol_to_graph mol)))).
    rewrite Hcols. destruct (mol_to_graph_features mol) as [_ ->].
    apply zip_map_both. }
  split; [done|]. split; [done|].
  unfold edges_paired. rewrite Hentries.
  apply forallb_forall. intros entry Hin.
  apply in_map_iff in Hin as (bond & <- & Hin).
  apply existsb_exists. exists bond. split; [done|apply describes_own_bond].
Qed.

Lemma edge_entries_follow_sorted_bonds_witness :
  edges_paired ethanol (mol_to_graph ethanol) = true.
Proof.
  apply (edge_entries_follow_sorted_bonds ethanol); reflexivity.
Defined.

(** X3: for a molecule with at least one bond, whose bonds join distinct
    pairs of its own atoms, the graph has node features of shape (atoms, 4),
    an edge index of shape (2, bonds), edge features of shape (bonds, 3), and
    the stored counts are the numbers of atoms and bonds. *)
Theorem smiles_to_graph_shapes (mol : Mol) :
  well_formed mol = true ->
  GetBonds mol <> [] ->
  let g := mol_to_graph mol in
  shape (x g) = [length (GetAtoms mol); 4]
  /\ shape (edge_index g) = [2; length (GetBonds mol)]
  /\ shape (edge_attr g) = [length (GetBonds mol); 3]
  /\ num_nodes g = length (GetAtoms mol)
  /\ num_edges g = length (GetBonds mol).
Proof.
  intros Hwf Hbonds g.
  assert (GetAtoms mol <> []) as Hatoms.
  { apply andb_prop in Hwf as [Hvalid _].
    destruct (GetBonds mol) as [|bond bonds]; [done|]. simpl in Hvalid.
    apply andb_prop in Hvalid as [Hb _]. apply bool_decide_eq_true in Hb as (Hu & _).
    intros Hnil. rewrite Hnil in Hu. simpl in Hu. lia. }
  destruct (mol_to_graph_feature_shapes mol Hatoms Hbonds) as [Hx He].
  destruct (mol_to_graph_counts mol Hwf) as (Hn & Hm & Hi).
  repeat split; try done. by apply Hi.
Qed.

Lemma smiles_to_graph_shapes_witness :
  shape (edge_index (mol_to_graph aminoacetaldehyde)) = [2; 3].
Proof.
  apply (smiles_to_graph_shapes aminoacetaldehyde); [reflexivity|discriminate].
Defined.

Section LoaderAlignment.

Variable MolFromSmiles : string -> option Mol.

Lemma load_row_step (acc : Loaded) (row : Row) :
  length (graphs acc) = length (sequences acc) ->
  length (sequences acc) = length (affinities acc) ->
  let acc' := load_row MolFromSmiles acc row in
  zip (zip (graphs acc') (sequences acc')) (affinities acc')
  = zip (zip (graphs acc) (sequences acc)) (affinities acc)
        ++ option_list ((loaded_triple MolFromSmiles) row)
  /\ length (graphs acc') = length (sequences acc')
  /\ length (sequences acc') = length (affinities acc')
  /\ length (smiles_strs acc') = S (length (smiles_strs acc))
  /\ length (graphs acc')
     = length (graphs acc) + length (option_list ((loaded_triple MolFromSmiles) row)).
Proof.
  intros Hgs Hsa. unfold load_row, loaded_triple.
  destruct (smiles_to_graph MolFromSmiles (iso_smiles row)) as [graph|]; simpl.
  - rewrite !zip_with_app by (rewrite ?length_zip_with; lia).
    rewrite !length_app. simpl. repeat split; try done; lia.
  - rewrite app_nil_r, length_app. simpl. repeat split; try done; lia.
Qed.

Lemma omap_cons_app {A B} (f : A -> option B) (a : A) (l : list A) :
  omap f (a :: l) = option_list (f a) ++ omap f l.
Proof. simpl. by destruct (f a). Qed.

Lemma load_dataset_triples_from (data : list Row) (acc : Loaded) :
  length (graphs acc) = length (sequences acc) ->
  length (sequences acc) = length (affinities acc) ->
  let l := fold_left (load_row MolFromSmiles) data acc in
  zip (zip (graphs l) (sequences l)) (affinities l)
  = zip (zip (graphs acc) (sequences acc)) (affinities acc) ++ omap (loaded_triple MolFromSmiles) data
  /\ length (graphs l) = length (sequences l)
  /\ length (sequences l) = length (affinities l)
  /\ length (smiles_strs l) = length (smiles_strs acc) + length data
  /\ length (graphs l) = length (graphs acc) + length (omap (loaded_triple MolFromSmiles) data).
Proof.
  revert acc. induction data as [|row data IH]; intros acc Hgs Hsa.
  - simpl. rewrite app_nil_r. repeat split; try done; lia.
  - destruct (load_row_step acc row Hgs Hsa) as (Hz & H1 & H2 & H3 & H4).
    destruct (IH _ H1 H2) as (Hz' & H1' & H2' & H3' & H4').
    cbv zeta. rewrite omap_cons_app, length_app.
    change (fold_left (load_row MolFromSmiles) (row :: data) acc)
      with (fold_left (load_row MolFromSmiles) data (load_row MolFromSmiles acc row)).
    rewrite Hz', Hz, <- app_assoc.
    repeat split; try done; simpl; lia.
Qed.

(** X4: the graphs, the sequences and the affinities that [load_dataset]
    returns have one length, and entry [i] of the three comes from one row:
    they are the graph, the sequence and the affinity of the rows whose
    SMILES string parses, in file order. *)
Theorem load_dataset_aligned_triples (data : list Row) :
  let l := load_dataset MolFromSmiles data in
  zip (zip (graphs l) (sequences l)) (affinities l) = omap (loaded_triple MolFromSmiles) data
  /\ length (graphs l) = length (sequences l)
  /\ length (sequences l) = length (affinities l).
Proof.
  destruct (load_dataset_triples_from data (mkLoaded [] [] [] []) eq_refl eq_refl)
    as (Hz & H1 & H2 & _).
  by repeat split.
Qed.

(** X5: the SMILES strings that [load_dataset] returns are those of all
    rows; their number exceeds the number of graphs by the number of rows
    that do not parse, so the four collections have one length exactly when
    every row parses. *)
Theorem load_dataset_smiles_count (data : list Row) :
  let l := load_dataset MolFromSmiles data in
  let failed := filter (fun row => ~ is_Some (MolFromSmiles (iso_smiles row))) data in
  smiles_strs l = map iso_smiles data
  /\ length (smiles_strs l) = length (graphs l) + length failed
  /\ (length (smiles_strs l) = length (graphs l)
      <-> forall row, row ∈ data -> is_Some (MolFromSmiles (iso_smiles row))).
Proof.
  intros l failed.
  destruct (load_dataset_contents MolFromSmiles data) as (Hs & _).
  destruct (load_dataset_triples_from data (mkLoaded [] [] [] []) eq_refl eq_refl)
    as (_ & _ & _ & Hn & Hg).
  simpl in Hn, Hg.
  change (length (smiles_strs l) = length data) in Hn.
  change (length (graphs l) = length (omap (loaded_triple MolFromSmiles) data)) in Hg.
  assert (length data = length (omap (loaded_triple MolFromSmiles) data) + length failed) as Hcount.
  { subst failed. clear. induction data as [|row data IH]; [done|].
    rewrite filter_cons, omap_cons_app, length_app.
    unfold loaded_triple at 1, smiles_to_graph.
    destruct (MolFromSmiles (iso_smiles row)) as [mol|]; simpl.
    - f_equal. exact IH.
    - rewrite Nat.add_succ_r. f_equal. exact IH. }
  split; [done|]. split; [lia|]. split.
  - intros Heq row Hin.
    assert (length failed = 0) as Hnil by lia.
    apply length_zero_iff_nil in Hnil.
    destruct (decide (is_Some (MolFromSmiles (iso_smiles row)))) as [|Hnot]; [done|].
    assert (row ∈ failed) as Hf by (by apply list_elem_of_filter).
    rewrite Hnil in Hf. by apply elem_of_nil in Hf.
  - intros Hall. assert (failed = []) as ->; [|simpl in *; lia].
    subst failed. clear -Hall. induction data as [|row data IH]; [done|].
    rewrite filter_cons_False.
    + apply IH. intros r Hr. by apply Hall, list_elem_of_further.
    + intros Hnot. apply Hnot, Hall, list_elem_of_here.
Qed.

End LoaderAlignment.

(** ** More on the weighted loss *)

Lemma Qsquare_nonneg (d : Q) : (0 <= d * d)%Q.
Proof.
  destruct d as [n m]. unfold Qle, Qmult. simpl. rewrite Z.mul_1_r.
  apply Z.square_nonneg.
Qed.

Lemma Qsum_nonneg (v : list Q) : Forall (fun a => (0 <= a)%Q) v -> (0 <= Qsum v)%Q.
Proof.
  induction 1 as [|a v Ha _ IH]; simpl; [apply Qle_refl|].
  replace 0%Q with (0 + 0)%Q by done. by apply Qplus_le_compat.
Qed.

Lemma torch_mean_nonneg (e : vec) (q : Q) :
  Forall (fun a => (0 <= a)%Q) (entries e) -> torch_mean e = fin q -> (0 <= q)%Q.
Proof.
  destruct e as [a|[|a v]]; simpl.
  - intros Ha [= <-]. by inversion Ha.
  - done.
  - intros Hv [= <-]. apply Qle_shift_div_l; [reflexivity|].
    rewrite Qmult_0_l. by apply (Qsum_nonneg (a :: v)).
Qed.

Lemma zip_with_Q_Forall (P : Q -> Prop) (f : Q -> Q -> Q) (a b : list Q) :
  (forall x y, x ∈ a -> y ∈ b -> P (f x y)) -> Forall P (zip_with_Q f a b).
Proof.
  revert b. induction a as [|x a IH]; intros [|y b] Hf; simpl; try constructor.
  - apply Hf; apply list_elem_of_here.
  - apply IH. intros x' y' Hx Hy. by apply Hf; apply list_elem_of_further.
Qed.

Lemma Forall_map_elem (P : Q -> Prop) (g : Q -> Q) (u : list Q) :
  (forall x, x ∈ u -> P (g x)) -> Forall P (map g u).
Proof.
  induction u as [|x u IH]; intros Hg; simpl; constructor.
  - apply Hg, list_elem_of_here.
  - apply IH. intros y Hy. by apply Hg, list_elem_of_further.
Qed.

Lemma broadcast2_Forall (P : Q -> Prop) (f : Q -> Q -> Q) (a b e : vec) :
  (forall x y, x ∈ entries a -> y ∈ entries b -> P (f x y)) ->
  broadcast2 f a b = Ok e ->
  Forall P (entries e).
Proof.
  intros Hf. unfold broadcast2.
  destruct a as [x|u], b as [y|v]; cbn [entries] in *.
  - intros [= <-]. cbn [entries]. constructor; [|constructor].
    apply Hf; apply list_elem_of_here.
  - intros [= <-]. cbn [entries]. apply Forall_map_elem. intros y Hy.
    apply Hf; [apply list_elem_of_here|done].
  - intros [= <-]. cbn [entries]. apply Forall_map_elem. intros x Hx.
    apply Hf; [done|apply list_elem_of_here].
  - destruct (decide (length u = length v)).
    + intros [= <-]. cbn [entries]. by apply zip_with_Q_Forall.
    + destruct u as [|x [|x' u]].
      * destruct v as [|y [|y' v]]; try done.
        intros [= <-]. constructor.
      * intros [= <-]. cbn [entries]. apply Forall_map_elem. intros y Hy.
        apply Hf; [apply list_elem_of_here|done].
      * destruct v as [|y [|y' v]]; try done.
        intros [= <-]. cbn [entries].
        apply (Forall_map_elem P (fun a => f a y) (x :: x' :: u)). intros x0 Hx.
        apply Hf; [done|apply list_elem_of_here].
Qed.

Lemma entries_vmap (f : Q -> Q) (a : vec) : entries (vmap f a) = map f (entries a).
Proof. by destruct a. Qed.

(** X6: with a weight constant that is not negative, a loss that is a number
    is not negative, whatever the shapes of the predictions and targets. *)
Theorem WeightedMSELoss_nonneg (w : Q) (preds targets : vec) (q : Q) :
  (0 <= w)%Q ->
  WeightedMSELoss_forward (mkWeightedMSELoss w) preds targets = Ok (fin q) ->
  (0 <= q)%Q.
Proof.
  intros Hw. unfold WeightedMSELoss_forward. simpl.
  destruct (broadcast2 Qminus preds targets) as [|d] eqn:Hd; simpl; [done|].
  destruct (broadcast2 Qmult _ _) as [|e] eqn:He; simpl; [done|].
  intros [= Hq]. apply (torch_mean_nonneg e); [|done].
  eapply (broadcast2_Forall (fun a => (0 <= a)%Q) Qmult); [|exact He].
  intros x y Hx Hy. rewrite entries_vmap in Hx, Hy.
  apply list_elem_of_In, in_map_iff in Hx as (t_i & <- & _).
  apply list_elem_of_In, in_map_iff in Hy as (d_i & <- & _).
  apply Qmult_le_0_compat.
  - by destruct (Qltb 5 t_i).
  - apply Qsquare_nonneg.
Qed.

Lemma WeightedMSELoss_nonneg_witness :
  WeightedMSELoss_forward (mkWeightedMSELoss 10) (Vec [1%Q]) (Vec [6%Q; 2%Q])
  = Ok (fin (251 # 2))
  /\ (0 <= 251 # 2)%Q.
Proof.
  split; [reflexivity|].
  apply (WeightedMSELoss_nonneg 10 (Vec [1%Q]) (Vec [6%Q; 2%Q]) (251 # 2));
    [discriminate|reflexivity].
Defined.

(** X7: on two one-dimensional tensors the loss raises exactly when the
    lengths differ and neither is 1: a single prediction or a single target
    is broadcast against the other tensor without an error. *)
Theorem WeightedMSELoss_raises_iff (w : Q) (p t : list Q) :
  (exists e, WeightedMSELoss_forward (mkWeightedMSELoss w) (Vec p) (Vec t) = Raise e)
  <-> length p <> length t /\ length p <> 1 /\ length t <> 1.
Proof.
  unfold WeightedMSELoss_forward, broadcast2. cbn [vmap weight bind_outcome].
  destruct (decide (length p = length t)) as [Heq|Hne].
  - cbn [bind_outcome vmap]. rewrite decide_True
      by (by rewrite !length_map, zip_with_Q_length).
    split; [by intros [e ?]|]. by intros [? _].
  - destruct p as [|p0 [|p1 p]].
    + destruct t as [|t0 [|t1 t]]; [done| |].
      * cbn. split; [by intros [e ?]|]. by intros (_ & _ & ?).
      * cbn. split; [intros _|eauto]. by repeat split.
    + cbn [bind_outcome vmap]. rewrite decide_True by (by rewrite !length_map).
      split; [by intros [e ?]|]. by intros (_ & ? & _).
    + destruct t as [|t0 [|t1 t]].
      * cbn. split; [intros _|eauto]. by repeat split.
      * cbn. split; [by intros [e ?]|]. by intros (_ & _ & ?).
      * cbn [bind_outcome]. split; [intros _|eauto]. by repeat split.
Qed.

(** X8: when no target is above 5, the weight constant has no effect on the
    loss. *)
Theorem WeightedMSELoss_weight_unused (w w' : Q) (preds targets : vec) :
  Forall (fun t_i => (t_i <= 5)%Q) (entries targets) ->
  WeightedMSELoss_forward (mkWeightedMSELoss w) preds targets
  = WeightedMSELoss_forward (mkWeightedMSELoss w') preds targets.
Proof.
  intros Hlow. unfold WeightedMSELoss_forward. cbn [weight].
  assert (forall c, vmap (fun t => if Qltb 5 t then c else 1%Q) targets
                    = vmap (fun _ => 1%Q) targets) as Hweights.
  { intros c. destruct targets as [a|v]; cbn [entries vmap] in *.
    - inversion Hlow as [|? ? Ha _]; subst.
      destruct (Qltb 5 a) eqn:Hb; [|done].
      apply Qltb_lt in Hb. exfalso. by apply (Qlt_not_le 5 a).
    - f_equal. induction Hlow as [|a v Ha _ IH]; simpl; [done|].
      rewrite IH. destruct (Qltb 5 a) eqn:Hb; [|done].
      apply Qltb_lt in Hb. exfalso. by apply (Qlt_not_le 5 a). }
  by rewrite !Hweights.
Qed.

Lemma WeightedMSELoss_weight_unused_witness :
  WeightedMSELoss_forward (mkWeightedMSELoss 10) (Vec [1%Q; 2%Q]) (Vec [3%Q; 5%Q])
  = WeightedMSELoss_forward (mkWeightedMSELoss 1) (Vec [1%Q; 2%Q]) (Vec [3%Q; 5%Q]).
Proof.
  apply (WeightedMSELoss_weight_unused 10 1 (Vec [1%Q; 2%Q]) (Vec [3%Q; 5%Q])).
  repeat constructor; discriminate.
Defined.

(** ** The early-stopping controller over a run *)

Lemma float_lt_irrefl (a : pyfloat) : float_lt a a = false.
Proof.
  destruct a as [| |q|]; try done. simpl.
  destruct (Qltb q q) eqn:Hq; [|done]. apply Qltb_lt in Hq. by apply Qlt_irrefl in Hq.
Qed.

Lemma float_lt_trans (a b c : pyfloat) :
  float_lt a b = true -> float_lt b c = true -> float_lt a c = true.
Proof.
  destruct a as [| |x|], b as [| |y|], c as [| |z|]; try done. simpl.
  rewrite !Qltb_lt. apply Qlt_trans.
Qed.

Section Controller.

Context `{Externals}.

(** One call, as a step on the controller and on the files: the controller
    is updated whatever the outcome is, and the call raises exactly when the
    loss improves and the directory of the best-model path does not exist. *)
Lemma EarlyStopping_call_step (self : EarlyStopping) (val_loss : pyfloat) (epoch : Z)
      (w : World) :
  exists r self' w',
    EarlyStopping_call self val_loss epoch w = (r, self', w')
    /\ patience self' = patience self
    /\ checkpoint_path self' = checkpoint_path self
    /\ params w' = params w /\ optimizer w' = optimizer w /\ dirs w' = dirs w
    /\ best_loss self' = (if float_lt val_loss (best_loss self)
                          then val_loss else best_loss self)
    /\ counter self' = (if float_lt val_loss (best_loss self)
                        then 0 else counter self + 1)%Z
    /\ early_stop self' = (if float_lt val_loss (best_loss self)
                           then early_stop self
                           else early_stop self
                                || bool_decide (patience self <= counter self + 1)%Z)
    /\ (if float_lt val_loss (best_loss self)
        then if bool_decide (path_dir (checkpoint_path self) ∈ dirs w)
             then r = Ok tt
                  /\ files w' = <[path_str (checkpoint_path self) :=
                                    mkBundle epoch (params w) (optimizer w) val_loss]>
                                  (files w)
             else (exists msg, r = Raise (RuntimeError msg)) /\ files w' = files w
        else r = Ok tt /\ files w' = files w).
Proof.
  unfold EarlyStopping_call.
  destruct (float_lt val_loss (best_loss self)) eqn:Hlt.
  - unfold current_bundle, torch_save, when, print.
    unfold bind, modify, get, ret, raise. simpl.
    destruct (bool_decide (path_dir (checkpoint_path self) ∈ dirs w)) eqn:Hd; simpl.
    + destruct (verbose self) eqn:Hv; simpl;
        (eexists; eexists; eexists; split; [reflexivity|]); simpl; by repeat split.
    + eexists; eexists; eexists. split; [reflexivity|]. simpl.
      repeat split; try done. eauto.
  - unfold when, print, modify, ret. simpl.
    destruct (verbose self) eqn:Hv; simpl;
      destruct (bool_decide (patience self <= counter self + 1)%Z) eqn:Hp; simpl;
      rewrite ?Hv; simpl;
      (eexists; eexists; eexists; split; [reflexivity|]); simpl;
      repeat split; try done; by rewrite ?orb_true_r, ?orb_false_r.
Qed.

End Controller.

(** X9: over any sequence of calls, whether it runs through or stops at a
    call that raises, the patience and the best-model path stay as they are;
    a stop flag that is set stays set, also when later losses improve; and
    as long as the flag is unset the counter stays below the patience. *)
Theorem EarlyStopping_flag_is_kept `{Externals}
        (losses : list pyfloat) (self : EarlyStopping) (epoch : Z) (w : World) :
  exists r s w',
    EarlyStopping_calls self losses epoch w = (r, s, w')
    /\ patience s = patience self
    /\ checkpoint_path s = checkpoint_path self
    /\ (early_stop self = true -> early_stop s = true)
    /\ ((0 <= counter self < patience self)%Z ->
        early_stop s = false -> (0 <= counter s < patience s)%Z).
Proof.
  revert self epoch w. induction losses as [|val_loss losses IH]; intros self epoch w.
  - exists (Ok tt), self, w.
    split; [done|]. split; [done|]. split; [done|]. split; [done|tauto].
  - destruct (EarlyStopping_call_step self val_loss epoch w)
      as (r1 & s1 & w1 & Hcall & Hpat & Hpath & _ & _ & _ & _ & Hcount & Hflag & _).
    assert ((early_stop self = true -> early_stop s1 = true)
            /\ ((0 <= counter self < patience self)%Z ->
                early_stop s1 = false -> (0 <= counter s1 < patience s1)%Z)) as [Hk1 Hl1].
    { split.
      - intros Hset. rewrite Hflag, Hset. by destruct (float_lt _ _).
      - intros Hc Hunset. rewrite Hpat, Hcount.
        destruct (float_lt val_loss (best_loss self)); [lia|].
        rewrite Hflag in Hunset.
        apply orb_false_iff in Hunset as [_ Hp]. apply bool_decide_eq_false in Hp. lia. }
    simpl. rewrite Hcall. destruct r1 as [e|[]].
    + exists (Raise e), s1, w1.
      split; [done|]. split; [done|]. split; [done|]. split; [exact Hk1|exact Hl1].
    + destruct (IH s1 (epoch + 1)%Z w1)
        as (r & s & w' & Hcalls & Hpat' & Hpath' & Hkeep & Hlow).
      exists r, s, w'. split; [done|]. split; [congruence|]. split; [congruence|]. split.
      * intros Hset. by apply Hkeep, Hk1.
      * intros Hc Hunset.
        destruct (early_stop s1) eqn:Hs1; [rewrite (Hkeep eq_refl) in Hunset; done|].
        apply Hlow; [|done]. by apply Hl1.
Qed.

Lemma EarlyStopping_flag_is_kept_witness :
  exists r s w',
    @EarlyStopping_calls small_externals
      (@EarlyStopping_init small_externals 2 false "checkpoints/early_stop")
      [fin 1; fin 2] 0 driver_world
    = (r, s, w')
    /\ (early_stop s = false -> (0 <= counter s < 2)%Z).
Proof.
  destruct (@EarlyStopping_flag_is_kept small_externals [fin 1; fin 2]
              (@EarlyStopping_init small_externals 2 false "checkpoints/early_stop")
              0%Z driver_world)
    as (r & s & w' & Hcalls & Hpat & _ & _ & Hlow).
  exists r, s, w'. split; [exact Hcalls|].
  intros Hunset. rewrite Hpat in Hlow. apply Hlow; [|exact Hunset]. simpl. lia.
Defined.

(** The invariant of a run of calls from any controller whose best-model
    directory exists: the run returns, and either no loss improved, or the
    best loss went strictly down to one of the losses and the best-model
    file holds it. *)
Lemma EarlyStopping_calls_best `{Externals}
      (losses : list pyfloat) (self : EarlyStopping) (epoch : Z) (w : World) :
  path_dir (checkpoint_path self) ∈ dirs w ->
  exists s w',
    EarlyStopping_calls self losses epoch w = (Ok tt, s, w')
    /\ checkpoint_path s = checkpoint_path self
    /\ Forall (fun l => float_lt l (best_loss s) = false) losses
    /\ (best_loss s = best_loss self /\ files w' = files w
        \/ float_lt (best_loss s) (best_loss self) = true
           /\ best_loss s ∈ losses
           /\ exists bundle, files w' !! path_str (checkpoint_path self) = Some bundle
                             /\ b_loss bundle = best_loss s)
    /\ (forall path, path <> path_str (checkpoint_path self) ->
                     files w' !! path = files w !! path)
    /\ params w' = params w
    /\ optimizer w' = optimizer w.
Proof.
  revert self epoch w. induction losses as [|val_loss losses IH]; intros self epoch w Hdir.
  - exists self, w. split; [done|]. split; [done|]. split; [constructor|].
    split; [by left|]. by repeat split.
  - destruct (EarlyStopping_call_step self val_loss epoch w)
      as (r1 & s1 & w1 & Hcall & _ & Hpath & Hp1 & Ho1 & Hd1 & Hbest & _ & _ & Hfiles).
    rewrite (bool_decide_eq_true_2 _ Hdir) in Hfiles.
    assert (r1 = Ok tt
            /\ files w1 = (if float_lt val_loss (best_loss self)
                           then <[path_str (checkpoint_path self) :=
                                    mkBundle epoch (params w) (optimizer w) val_loss]>
                                  (files w)
                           else files w)) as [-> Hfiles'].
    { destruct (float_lt val_loss (best_loss self)); tauto. }
    clear Hfiles.
    destruct (IH s1 (epoch + 1)%Z w1)
      as (s & w' & Hcalls & Hpath' & Hall & Hfile & Hother & Hp & Ho).
    { by rewrite Hpath, Hd1. }
    exists s, w'. simpl. rewrite Hcall.
    split; [done|]. split; [congruence|].
    assert (float_lt val_loss (best_loss s1) = false) as Hval.
    { rewrite Hbest. destruct (float_lt val_loss (best_loss self)) eqn:Hlt; [|done].
      apply float_lt_irrefl. }
    rewrite Hpath in Hfile, Hother.
    split; [|split; [|split; [|split]]].
    + constructor; [|done].
      destruct Hfile as [[-> _]|[Hlt _]]; [done|].
      destruct (float_lt val_loss (best_loss s)) eqn:Hvs; [|done].
      by rewrite (float_lt_trans _ _ _ Hvs Hlt) in Hval.
    + destruct (float_lt val_loss (best_loss self)) eqn:Hlt.
      * right. destruct Hfile as [[Hb Hf]|(Hlt' & Hin & bundle & Hlook & Hloss)].
        -- rewrite Hb, Hbest. split; [done|]. split; [apply list_elem_of_here|].
           eexists. rewrite Hf, Hfiles', lookup_insert_eq. by split.
        -- split; [apply (float_lt_trans _ (best_loss s1)); [done|by rewrite Hbest]|].
           split; [by apply list_elem_of_further|].
           by exists bundle.
      * destruct Hfile as [[Hb Hf]|(Hlt' & Hin & bundle & Hlook & Hloss)].
        -- left. split; [by rewrite Hb|by rewrite Hf].
        -- right. split; [by rewrite <- Hbest|].
           split; [by apply list_elem_of_further|].
           by exists bundle.
    + intros path Hne. rewrite Hother by done. rewrite Hfiles'.
      destruct (float_lt val_loss (best_loss self)); [|done].
      by rewrite lookup_insert_ne.
    + congruence.
    + congruence.
Qed.

(** X10: when the directory given to a new controller exists, every sequence
    of calls returns, and after it no loss of the sequence is strictly below
    the best loss, which is infinite or one of the losses; the best-model
    file holds a bundle with the best loss once a loss improved, and is as
    it was before otherwise; no other file, and neither the model parameters
    nor the optimizer state, is changed. *)
Theorem EarlyStopping_tracks_best `{Externals}
        (losses : list pyfloat) (patience0 : Z) (verbose0 : bool) (checkpoint_dir : string)
        (epoch : Z) (w : World) :
  let new := EarlyStopping_init patience0 verbose0 checkpoint_dir in
  let best := path_join checkpoint_dir "best_model.pt" in
  checkpoint_dir ∈ dirs w ->
  exists s w',
    EarlyStopping_calls new losses epoch w = (Ok tt, s, w')
    /\ Forall (fun l => float_lt l (best_loss s) = false) losses
    /\ (best_loss s = inf \/ best_loss s ∈ losses)
    /\ (best_loss s = inf -> files w' = files w)
    /\ (best_loss s <> inf ->
        exists bundle, files w' !! best = Some bundle /\ b_loss bundle = best_loss s)
    /\ (forall path, path <> best -> files w' !! path = files w !! path)
    /\ params w' = params w
    /\ optimizer w' = optimizer w.
Proof.
  intros new best Hdir.
  destruct (EarlyStopping_calls_best losses new epoch w Hdir)
    as (s & w' & Hcalls & _ & Hall & Hfile & Hother & Hp & Ho).
  exists s, w'. split; [done|]. split; [done|].
  change (best_loss new) with inf in Hfile.
  change (path_str (checkpoint_path new)) with best in Hfile, Hother.
  split; [|split; [|split; [|split; [done|by split]]]].
  - destruct Hfile as [[? _]|(_ & ? & _)]; tauto.
  - intros Hinf. destruct Hfile as [[_ ?]|(Hlt & _)]; [done|].
    rewrite Hinf in Hlt. by rewrite float_lt_irrefl in Hlt.
  - intros Hne. destruct Hfile as [[? _]|(_ & _ & ?)]; done.
Qed.

Lemma EarlyStopping_tracks_best_witness :
  exists s w',
    @EarlyStopping_calls small_externals
      (@EarlyStopping_init small_externals 2 false "checkpoints/early_stop")
      [fin 1; fin 2] 0 prepared_world
    = (Ok tt, s, w')
    /\ (best_loss s = inf \/ best_loss s ∈ [fin 1; fin 2]).
Proof.
  destruct (@EarlyStopping_tracks_best small_externals [fin 1; fin 2] 2 false
              "checkpoints/early_stop" 0%Z prepared_world)
    as (s & w' & Hcalls & _ & Hbest & _).
  - vm_compute. reflexivity.
  - exists s, w'. split; [exact Hcalls|exact Hbest].
Defined.

(** ** Checkpoints that cannot be loaded, and checkpoints that share a name *)

(** X11: a call of [load_checkpoint] that raises leaves the optimizer, the
    files, the gradients and the output as they were, and the model keeps
    its parameter names. For a missing file nothing is changed. For a state
    dict of other names or shapes the parameters that fit have been
    replaced by those of the file, and the others are kept. For an
    optimizer state of other parameter groups the model holds the
    parameters of the file. In both cases the load is partial. *)
Theorem load_checkpoint_failure `{Externals} (path : string) (w w' : World) (e : exn) :
  load_checkpoint path w = (Raise e, w') ->
  optimizer w' = optimizer w /\ files w' = files w /\ grads w' = grads w
  /\ stdout w' = stdout w
  /\ ((files w !! path = None /\ e = FileNotFoundError path /\ w' = w)
      \/ (exists bundle msg,
             files w !! path = Some bundle
             /\ shape <$> b_model_state_dict bundle <> shape <$> params w
             /\ e = RuntimeError msg
             /\ (forall name, params w !! name = None -> params w' !! name = None)
             /\ (forall name old,
                    params w !! name = Some old ->
                    params w' !! name
                    = Some match b_model_state_dict bundle !! name with
                           | Some new => if decide (shape new = shape old) then new else old
                           | None => old
                           end))
      \/ (exists bundle msg,
             files w !! path = Some bundle
             /\ shape <$> b_model_state_dict bundle = shape <$> params w
             /\ map (fun g => length (group_params g))
                    (param_groups (b_optimizer_state_dict bundle))
                <> map (fun g => length (group_params g)) (param_groups (optimizer w))
             /\ e = ValueError msg
             /\ params w' = b_model_state_dict bundle)).
Proof.
  unfold load_checkpoint, torch_load, bind, get, raise. simpl.
  destruct (files w !! path) as [bundle|] eqn:Hfile; simpl.
  - unfold model_load_state_dict, bind, get, raise, modify, ret. simpl.
    destruct (decide (shape <$> b_model_state_dict bundle = shape <$> params w))
      as [Hshape|Hshape].
    + rewrite bool_decide_eq_true_2 by done. simpl.
      unfold optimizer_load_state_dict, bind, get, raise, modify. simpl.
      destruct (decide (map (fun g => length (group_params g))
                            (param_groups (b_optimizer_state_dict bundle))
                        = map (fun g => length (group_params g))
                              (param_groups (optimizer w)))) as [Hgroups|Hgroups].
      * rewrite bool_decide_eq_true_2 by done. simpl. done.
      * rewrite bool_decide_eq_false_2 by done. simpl.
        intros [= <- <-]. simpl. repeat split; try done.
        right. right. eexists; eexists. repeat split; try done.
        by apply copy_fitting_same.
    + rewrite bool_decide_eq_false_2 by done. simpl.
      intros [= <- <-]. simpl. repeat split; try done.
      right. left. eexists; eexists.
      split; [done|]. split; [done|]. split; [done|].
      unfold copy_fitting. split.
      * intros name Hname. by rewrite map_lookup_imap, Hname.
      * intros name old Hname. rewrite map_lookup_imap, Hname. simpl.
        destruct (b_model_state_dict bundle !! name) as [new|]; [|done].
        by destruct (decide (shape new = shape old)).
  - intros [= <- <-]. repeat split; try done. by left.
Qed.

Lemma load_checkpoint_failure_witness :
  let w := set_files {["last.pt" := mkBundle 3 {["fc3.bias" := mkTensor [1] [[9%Q]];
                                                 "fc4.bias" := mkTensor [1] [[1%Q]]]}
                                             (mkOptimizer ∅ []) (fin 1)]}
                     small_world in
  optimizer (snd (@load_checkpoint small_externals "last.pt" w)) = optimizer w
  /\ params (snd (@load_checkpoint small_externals "last.pt" w)) !! "fc3.bias"
     = Some (mkTensor [1] [[9%Q]]).
Proof.
  intros w.
  destruct (@load_checkpoint_failure small_externals "last.pt" w
              (snd (@load_checkpoint small_externals "last.pt" w))
              (RuntimeError "Error(s) in loading state_dict"))
    as (Hopt & _ & _ & _ & [(Hnone & _)|[(bundle & msg & Hfile & _ & _ & _ & Hfit)
                                        |(bundle & msg & Hfile & Hshape & _)]]).
  - vm_compute. reflexivity.
  - vm_compute in Hnone. discriminate Hnone.
  - split; [exact Hopt|].
    rewrite (Hfit "fc3.bias" (mkTensor [1] [[3%Q]])) by reflexivity.
    vm_compute in Hfile. injection Hfile as <-. reflexivity.
  - exfalso. vm_compute in Hfile. injection Hfile as <-. vm_compute in Hshape.
    discriminate Hshape.
Defined.

(** X12: the name of a checkpoint holds the loss with four decimals. Two
    checkpoints of the same epoch in the same directory whose losses agree
    in that form share one file: the second call replaces the bundle of the
    first by its own and adds no file. *)
Theorem save_checkpoint_replaces `{Externals}
        (epoch : Z) (loss1 loss2 : pyfloat) (dir : string) (w w2 : World) :
  format_4f loss1 = format_4f loss2 ->
  files w2 = files (snd (save_checkpoint epoch loss1 dir w)) ->
  exists w3,
    save_checkpoint epoch loss2 dir w2 = (Ok tt, w3)
    /\ files w3
       = <[path_join dir (checkpoint_name epoch loss1) :=
             mkBundle epoch (params w2) (optimizer w2) loss2]> (files w)
    /\ dom (files w3) = dom (files w2).
Proof.
  intros Hname Hfiles.
  destruct (save_checkpoint_writes epoch loss1 dir w) as (w1 & Hsave1 & Hf1 & _).
  rewrite Hsave1 in Hfiles. simpl in Hfiles. rewrite Hf1 in Hfiles.
  destruct (save_checkpoint_writes epoch loss2 dir w2) as (w3 & Hsave2 & Hf2 & _).
  assert (checkpoint_name epoch loss2 = checkpoint_name epoch loss1) as Hsame.
  { unfold checkpoint_name. by rewrite Hname. }
  rewrite Hsame in Hf2.
  exists w3. split; [done|]. rewrite Hf2, Hfiles. split.
  - by rewrite insert_insert_eq.
  - rewrite !dom_insert_L. by rewrite (assoc_L (∪)), (idemp_L (∪)).
Qed.

Lemma save_checkpoint_replaces_witness :
  let first := snd (@save_checkpoint small_externals 1 (fin (79251 # 100000)) "checkpoints"
                                     small_world) in
  exists w3,
    @save_checkpoint small_externals 1 (fin (79249 # 100000)) "checkpoints" first
    = (Ok tt, w3)
    /\ files w3 !! "checkpoints/epoch_2_loss_0.7925.pt"
       = Some (mkBundle 1 (params first) (optimizer first) (fin (79249 # 100000))).
Proof.
  intros first.
  destruct (@save_checkpoint_replaces small_externals 1 (fin (79251 # 100000))
              (fin (79249 # 100000)) "checkpoints" small_world first)
    as (w3 & Hsave & Hfiles & _); [reflexivity | reflexivity |].
  exists w3. split; [exact Hsave|]. rewrite Hfiles. apply lookup_insert_eq.
Defined.

(** ** What the training loop leaves alone *)

Section TrainingFrame.

Context `{Externals}.

Lemma train_batch_frame (model : AffinityPredictionModel)
      (loss_fn : vec -> vec -> outcome pyfloat) (batch : Batch.t)
      (w w' : World) (r : outcome pyfloat) :
  train_batch model loss_fn batch w = (r, w') ->
  files w' = files w /\ dirs w' = dirs w /\ stdout w' = stdout w
  /\ training w' = training w.
Proof.
  unfold train_batch, bind, optimizer_zero_grad, modify, get. simpl.
  destruct (forward model (Batch.sequences batch) batch
                    (set_grads (zero_grads (grads w)) w)) as [[e|predictions] w1] eqn:Hfwd;
    destruct (tame_forward model _ _ _ _ _ Hfwd) as ((_ & _ & _ & Hf & Hd & Hs) & Ht & _);
    simpl in Hf, Hd, Hs, Ht.
  - by intros [= <- <-].
  - unfold lift. destruct (loss_fn predictions (Batch.affinities batch)) as [e|loss].
    + by intros [= <- <-].
    + unfold loss_backward, optimizer_step, modify, ret. simpl.
      destruct (optimizer_update _ _ _) as [p o]. by intros [= <- <-].
Qed.

Lemma train_loop_frame (model : AffinityPredictionModel)
      (loss_fn : vec -> vec -> outcome pyfloat) (batches : list Batch.t) :
  forall (total_loss : pyfloat) (w w' : World) (r : outcome pyfloat),
    train_loop model loss_fn batches total_loss w = (r, w') ->
    files w' = files w /\ dirs w' = dirs w /\ stdout w' = stdout w
    /\ training w' = training w.
Proof.
  induction batches as [|batch rest IH]; intros total_loss w w' r; simpl.
  - by intros [= <- <-].
  - unfold bind.
    destruct (train_batch model loss_fn batch w) as [[e|loss] w1] eqn:Hbatch;
      destruct (train_batch_frame _ _ _ _ _ _ Hbatch) as (Hf & Hd & Hs & Ht).
    + by intros [= <- <-].
    + intros Hrest. destruct (IH _ _ _ _ Hrest) as (Hf' & Hd' & Hs' & Ht').
      repeat split; congruence.
Qed.

End TrainingFrame.

(** X13: whatever [train_model] does, returning or raising, it writes no
    file, creates no directory and prints nothing, and it leaves the model
    in training mode. *)
Theorem train_model_frame `{Externals}
        (model : AffinityPredictionModel) (data_loader : list Batch.t)
        (criterion : vec -> vec -> outcome pyfloat) (w : World) :
  let w' := snd (train_model model data_loader criterion w) in
  files w' = files w /\ dirs w' = dirs w /\ stdout w' = stdout w /\ training w' = true.
Proof.
  unfold train_model, bind, modify. simpl.
  destruct (train_loop model _ data_loader (fin 0) (set_training true w))
    as [[e|total_loss] w1] eqn:Hloop;
    destruct (train_loop_frame _ _ _ _ _ _ _ Hloop) as (Hf & Hd & Hs & Ht); simpl.
  - done.
  - unfold lift. simpl. done.
Qed.

(** X14: with a loader that yields no batch neither loop returns:
    [train_model] raises [ZeroDivisionError] when it divides by the number
    of batches, having only switched the model to training mode, and
    [evaluate_model] raises in the metrics or in the same division, having
    only switched the model to evaluation mode. *)
Theorem empty_loader_never_returns `{Externals}
        (model : AffinityPredictionModel) (criterion : vec -> vec -> outcome pyfloat)
        (return_predictions : bool) (w : World) :
  train_model model [] criterion w = (Raise ZeroDivisionError, set_training true w)
  /\ exists e,
      evaluate_model model [] criterion return_predictions w
      = (Raise e, set_training false w)
      /\ (e = ZeroDivisionError \/ compute_metrics [] [] = Raise e).
Proof.
  split; [reflexivity|].
  unfold evaluate_model, bind, modify, lift. simpl.
  destruct (compute_metrics [] []) as [e|metrics] eqn:Hm.
  - exists e. split; [done|by right].
  - exists ZeroDivisionError. split; [done|by left].
Qed.

(** ** The dimension of the predictions *)

Section Predictions.

Context `{Externals}.

Lemma Linear_forward_rows (p : gmap string (Tensor Q)) (l : Linear) (x y : Tensor Q) :
  Linear_forward p l x = Ok y ->
  length (rows y) = length (rows x)
  /\ Forall (fun r => length r = out_features l) (rows y).
Proof.
  unfold Linear_forward. repeat case_match; try done.
  intros [= <-]. simpl. split; [by rewrite length_map|].
  apply Forall_forall. intros r Hr. apply list_elem_of_In, in_map_iff in Hr as (r0 & <- & _).
  by rewrite length_map, length_seq.
Qed.

Lemma linear_rows (l : Linear) (x y : Tensor Q) (w w' : World) :
  linear l x w = (Ok y, w') ->
  length (rows y) = length (rows x)
  /\ Forall (fun r => length r = out_features l) (rows y).
Proof.
  unfold linear. intros Hl.
  apply bind_Ok_inv in Hl as (p & w1 & _ & Hl).
  apply lift_Ok_inv in Hl as [Hl _]. by apply Linear_forward_rows in Hl.
Qed.

Lemma Dropout_rows (p : Q) (x y : Tensor Q) (w w' : World) :
  Dropout p x w = (Ok y, w') -> length (rows y) = length (rows x).
Proof.
  unfold Dropout, bind, get, with_rng, ret. simpl.
  destruct (training w).
  - destruct (dropout_mask _ _ _) as [mask r]. simpl.
    intros [= <- <-]. simpl. by rewrite length_imap.
  - by intros [= <- <-].
Qed.

Lemma relu_rows (x : Tensor Q) : length (rows (relu x)) = length (rows x).
Proof. unfold relu. simpl. by rewrite length_map. Qed.

Lemma concat_singletons (m : list (list Q)) :
  Forall (fun r => length r = 1) m -> length (concat m) = length m.
Proof.
  induction 1 as [|r m Hr _ IH]; [done|]. simpl. rewrite length_app, IH, Hr. done.
Qed.

Lemma squeeze_dimension (x : Tensor Q) :
  Forall (fun r => length r = 1) (rows x) ->
  match squeeze x with
  | Scalar _ => length (rows x) = 1
  | Vec v => length v = length (rows x) /\ length v <> 1
  end.
Proof.
  intros Hx. apply concat_singletons in Hx. unfold squeeze.
  destruct (concat (rows x)) as [|a [|b v]] eqn:Hc; simpl in *;
    first [done | split; [done|lia]].
Qed.

Lemma regression_head_rows (self : AffinityPredictionModel) (combined : Tensor Q)
      (predictions : vec) (w w' : World) :
  out_features (fc3 self) = 1 ->
  regression_head self combined w = (Ok predictions, w') ->
  match predictions with
  | Scalar _ => length (rows combined) = 1
  | Vec v => length v = length (rows combined) /\ length v <> 1
  end.
Proof.
  intros Hout Hr. unfold regression_head in Hr.
  apply bind_Ok_inv in Hr as (x1 & w1 & H1 & Hr).
  apply bind_Ok_inv in Hr as (x2 & w2 & H2 & Hr).
  apply bind_Ok_inv in Hr as (x3 & w3 & H3 & Hr).
  apply bind_Ok_inv in Hr as (x4 & w4 & H4 & Hr).
  apply bind_Ok_inv in Hr as (x5 & w5 & H5 & Hr).
  injection Hr as <- <-.
  apply linear_rows in H1 as [H1 _]. apply Dropout_rows in H2. rewrite relu_rows in H2.
  apply linear_rows in H3 as [H3 _]. apply Dropout_rows in H4. rewrite relu_rows in H4.
  apply linear_rows in H5 as [H5 Hw]. rewrite Hout in Hw.
  pose proof (squeeze_dimension x5 Hw) as Hs.
  assert (length (rows x5) = length (rows combined)) as Hlen by congruence.
  by rewrite Hlen in Hs.
Qed.

End Predictions.

(** X15: the predictions of the head of a model built by [__init__] have
    dimension 0 exactly when the head input has one row; otherwise they form
    a vector with one entry per row. *)
Theorem regression_head_dimension `{Externals}
        (protein_dim drug_dim hidden_dim attention_dim capsule_dim : nat)
        (combined : Tensor Q) (predictions : vec) (w w' : World) :
  let model :=
    AffinityPredictionModel_init protein_dim drug_dim hidden_dim attention_dim capsule_dim in
  regression_head model combined w = (Ok predictions, w') ->
  match predictions with
  | Scalar _ => length (rows combined) = 1
  | Vec v => length v = length (rows combined) /\ length v <> 1
  end.
Proof.
  intros model Hr. by apply (regression_head_rows model combined predictions w w').
Qed.

Lemma regression_head_dimension_witness :
  length (rows (mkTensor [1; 7] [[1; 1; 1; 0; 0; 0; 0]%Q])) = 1.
Proof.
  apply (@regression_head_dimension small_externals 2 1 1 1 1
           (mkTensor [1; 7] [[1; 1; 1; 0; 0; 0; 0]%Q]) (Scalar 3) small_world
           (snd (@regression_head small_externals small_model
                                  (mkTensor [1; 7] [[1; 1; 1; 0; 0; 0; 0]%Q]) small_world))).
  vm_compute. reflexivity.
Defined.

(** X16: a batch of a single example cannot be evaluated. When the head
    input of the first batch has one row, [evaluate_model] raises, whatever
    the criterion and the later batches are; when the head and the criterion
    return, it is the [TypeError] of iterating predictions of dimension 0. *)
Theorem evaluate_model_single_example `{Externals}
        (protein_dim drug_dim hidden_dim attention_dim capsule_dim : nat)
        (batch : Batch.t) (rest : list Batch.t)
        (criterion : vec -> vec -> outcome pyfloat) (return_predictions : bool)
        (w w1 : World) (combined : Tensor Q) :
  let model :=
    AffinityPredictionModel_init protein_dim drug_dim hidden_dim attention_dim capsule_dim in
  head_input model (Batch.sequences batch) batch (set_training false w)
  = (Ok combined, w1) ->
  length (rows combined) = 1 ->
  exists e w',
    evaluate_model model (batch :: rest) criterion return_predictions w = (Raise e, w')
    /\ (forall predictions w2 loss,
           regression_head model combined w1 = (Ok predictions, w2) ->
           criterion predictions (Batch.affinities batch) = Ok loss ->
           e = TypeError "iteration over a 0-d array").
Proof.
  intros model Hhead Hone.
  unfold evaluate_model, bind, modify. simpl.
  unfold bind, evaluate_batch. unfold bind at 1 2. unfold forward, bind.
  rewrite Hhead.
  destruct (regression_head model combined w1) as [[e|predictions] w2] eqn:Hreg.
  - exists e, w2. split; [done|]. intros ? ? ? [=].
  - pose proof (regression_head_rows model combined predictions w1 w2 eq_refl Hreg) as Hdim.
    destruct predictions as [a|v]; [|lia].
    unfold lift.
    destruct (criterion (Scalar a) (Batch.affinities batch)) as [e|loss] eqn:Hcrit.
    + exists e, w2. split; [done|]. intros ? ? ? [= <- <-]. by rewrite Hcrit.
    + simpl. eexists; exists w2. split; [done|]. done.
Qed.

Lemma evaluate_model_single_example_witness :
  exists w',
    @evaluate_model small_externals small_model [one_molecule; two_molecules] plain_mse true
                    small_world
    = (Raise (TypeError "iteration over a 0-d array"), w').
Proof.
  destruct (@evaluate_model_single_example small_externals 2 1 1 1 1 one_molecule
              [two_molecules] plain_mse true small_world
              (snd (@head_input small_externals small_model (Batch.sequences one_molecule)
                                one_molecule (set_training false small_world)))
              (mkTensor [1; 7] [[1; 1; 3 # 3; 0; 0; 0; 0]%Q]))
    as (e & w' & Heval & Herr); [vm_compute; reflexivity | reflexivity |].
  exists w'. unfold small_model. rewrite Heval. f_equal. f_equal.
  apply (Herr (Scalar 3)
              (snd (@regression_head small_externals small_model
                      (mkTensor [1; 7] [[1; 1; 3 # 3; 0; 0; 0; 0]%Q])
                      (snd (@head_input small_externals small_model
                              (Batch.sequences one_molecule) one_molecule
                              (set_training false small_world)))))
              (fin 4)); vm_compute; reflexivity.
Defined.

(** ** The rows of the drug embedding *)

Lemma rows_of_absent (j : nat) (batch : list nat) (m : list (list Q)) :
  j ∉ batch -> rows_of j batch m = [].
Proof.
  unfold rows_of. revert m. induction batch as [|b batch IH]; intros m Hj; [done|].
  destruct m as [|r m]; [done|]. simpl.
  rewrite filter_cons_False.
  - apply IH. intros Hin. apply Hj. by apply list_elem_of_further.
  - simpl. intros ->. apply Hj. apply list_elem_of_here.
Qed.

Lemma mean_row_nil (w : nat) : mean_row w [] = replicate w 0%Q.
Proof.
  unfold mean_row.
  change (map _ (seq 0 w)) with (map (fun _ : nat => 0%Q) (seq 0 w)).
  generalize 0. induction w as [|w IH]; intros s; [done|].
  simpl. f_equal. apply IH.
Qed.

Lemma remove_dups_below (batch : list nat) :
  remove_dups batch ⊆+ seq 0 (pool_size batch).
Proof.
  apply NoDup_submseteq; [apply NoDup_remove_dups|].
  intros j. rewrite elem_of_remove_dups, elem_of_seq.
  intros Hj. split; [lia|]. simpl.
  destruct batch as [|b batch]; [by apply elem_of_nil in Hj|].
  unfold pool_size. apply max_list_elem_of_le in Hj. lia.
Qed.

(** X17: the drug embedding has one row per molecule index up to the largest
    one of the batch-assignment vector. That is never fewer than the number
    of distinct molecules, and the same number exactly when every index up
    to the largest one has a node; an index without a node gets a row of
    zeros. *)
Theorem global_mean_pool_rows (x y : Tensor Q) (batch : list nat) :
  global_mean_pool x batch = Ok y ->
  exists width,
    shape y = [pool_size batch; width]
    /\ length (rows y) = pool_size batch
    /\ distinct_molecules batch <= pool_size batch
    /\ (distinct_molecules batch = pool_size batch <-> contiguous batch)
    /\ (forall j, j < pool_size batch -> j ∉ batch ->
                  rows y !! j = Some (replicate width 0%Q)).
Proof.
  unfold global_mean_pool.
  destruct (shape x) as [|n [|width [|]]] eqn:Hs; try done.
  destruct (decide (n = length batch)) as [->|]; [|done].
  intros [= <-]. exists width. simpl.
  split; [done|]. split; [by rewrite length_map, length_seq|].
  pose proof (remove_dups_below batch) as Hsub.
  split; [|split].
  - unfold distinct_molecules. apply submseteq_length in Hsub.
    by rewrite length_seq in Hsub.
  - split; [|intros Hc; symmetry; by apply pool_size_distinct].
    intros Heq. unfold contiguous. apply forallb_forall. intros j Hj.
      apply bool_decide_eq_true.
      assert (remove_dups batch ≡ₚ seq 0 (pool_size batch)) as Hperm.
      { apply submseteq_length_Permutation; [done|].
        rewrite length_seq. unfold distinct_molecules in Heq. lia. }
      apply elem_of_remove_dups. rewrite Hperm. by apply list_elem_of_In.
  - intros j Hj Hnot.
    rewrite list_lookup_fmap, lookup_seq_lt by done. simpl.
    by rewrite rows_of_absent, mean_row_nil.
Qed.

Lemma global_mean_pool_rows_witness :
  global_mean_pool (mkTensor [2; 1] [[1%Q]; [3%Q]]) [0; 2]
  = Ok (mkTensor [3; 1] [[1 # 1]; [0 # 1]; [3 # 1]]%Q)
  /\ length (rows (mkTensor [3; 1] [[1 # 1]; [0 # 1]; [3 # 1]]%Q)) = 3
  /\ rows (mkTensor [3; 1] [[1 # 1]; [0 # 1]; [3 # 1]]%Q) !! 1 = Some [0%Q].
Proof.
  assert (global_mean_pool (mkTensor [2; 1] [[1%Q]; [3%Q]]) [0; 2]
          = Ok (mkTensor [3; 1] [[1 # 1]; [0 # 1]; [3 # 1]]%Q)) as Hpool
      by (vm_compute; reflexivity).
  split; [exact Hpool|].
  destruct (global_mean_pool_rows _ _ _ Hpool) as (width & Hshape & Hlen & _ & _ & Hzero).
  split; [exact Hlen|].
  injection Hshape as <-.
  apply Hzero; [simpl; lia|].
  intros Hin. apply list_elem_of_In in Hin. simpl in Hin.
  destruct Hin as [Hin|[Hin|[]]]; discriminate Hin.
Defined.

(** ** The feature-crossing layer and its input width *)

Section Crossing.

Context `{Externals}.

Lemma CrossLayer_pad_returns (e : Tensor Q) (n d max_dim : nat) (w : World) :
  shape e = [n; d] ->
  exists e', CrossLayer_pad e max_dim w = (Ok e', w)
             /\ shape e' = [n; d + (max_dim - d)].
Proof.
  intros Hs. unfold CrossLayer_pad, bind, lift, size. rewrite Hs. simpl.
  unfold torch_cat. rewrite Hs. simpl. unfold has_rows. rewrite Hs. simpl.
  rewrite !bool_decide_eq_true_2 by done. simpl.
  eexists. split; [reflexivity|]. simpl. by rewrite Nat.add_0_r.
Qed.

(** The operands of the crossing after the padding: both of the larger
    width. *)
Lemma CrossLayer_concatenated (pe de : Tensor Q) (n m : nat) :
  shape pe = [n; m] -> shape de = [n; m] ->
  exists cross concatenated,
    torch_mul pe de = Ok cross
    /\ torch_cat [pe; de; cross] = Ok concatenated
    /\ shape concatenated = [n; m * 3].
Proof.
  intros Hp Hd. unfold torch_mul. rewrite Hp, Hd. unfold bdim.
  rewrite !decide_True by done.
  eexists; eexists. split; [reflexivity|].
  unfold torch_cat. rewrite Hp. simpl. unfold has_rows. rewrite Hp, Hd. simpl.
  rewrite !bool_decide_eq_true_2 by done. simpl.
  split; [reflexivity|]. simpl. f_equal. f_equal. lia.
Qed.

Lemma bind_lift_Ok {A B} (a : A) (k : A -> M B) (w : World) :
  bind (lift (Ok a)) k w = k a w.
Proof. reflexivity. Qed.

Lemma bind_ret {A B} (a : A) (k : A -> M B) (w : World) : bind (ret a) k w = k a w.
Proof. reflexivity. Qed.

Lemma size_columns {A} (x : Tensor A) (n d : nat) : shape x = [n; d] -> size x 1 = Ok d.
Proof. intros Hs. unfold size. by rewrite Hs. Qed.

Lemma CrossLayer_forward_padded (self : CrossLayer) (pe de : Tensor Q) (n pd dd : nat)
      (w : World) :
  shape pe = [n; pd] -> shape de = [n; dd] ->
  exists concatenated,
    shape concatenated = [n; Nat.max pd dd * 3]
    /\ CrossLayer_forward self pe de w
       = bind (linear (cl_fc1 self) concatenated)
              (fun x => bind (linear (cl_fc2 self) (relu x))
                             (fun x => linear (cl_fc3 self) (relu x))) w.
Proof.
  intros Hp Hd. unfold CrossLayer_forward.
  rewrite (size_columns pe n pd Hp), (size_columns de n dd Hd).
  rewrite !bind_lift_Ok.
  destruct (decide (pd = dd)) as [->|Hne].
  - rewrite Nat.max_id.
    destruct (CrossLayer_concatenated pe de n dd Hp Hd) as (cross & c & Hmul & Hcat & Hs).
    exists c. split; [done|].
    rewrite bind_ret. cbv beta. cbn [fst snd].
    rewrite Hmul, bind_lift_Ok, Hcat, bind_lift_Ok. done.
  - destruct (CrossLayer_pad_returns pe n pd (Nat.max pd dd) w Hp) as (pe' & Hpad1 & Hp').
    destruct (CrossLayer_pad_returns de n dd (Nat.max pd dd) w Hd) as (de' & Hpad2 & Hd').
    replace (pd + (Nat.max pd dd - pd)) with (Nat.max pd dd) in Hp' by lia.
    replace (dd + (Nat.max pd dd - dd)) with (Nat.max pd dd) in Hd' by lia.
    destruct (CrossLayer_concatenated pe' de' n _ Hp' Hd') as (cross & c & Hmul & Hcat & Hs).
    exists c. split; [done|].
    rewrite (bind_returns _ _ (pe', de') w w).
    + cbn [fst snd]. rewrite Hmul, bind_lift_Ok, Hcat, bind_lift_Ok. done.
    + rewrite (bind_returns _ _ pe' w w Hpad1), (bind_returns _ _ de' w w Hpad2). done.
Qed.

End Crossing.

(** X18: on a protein embedding of width [pd] and a drug embedding of width
    [dd] with as many rows, the crossing layer returns exactly when it was
    built for three times the larger width, as [__init__] of the model
    builds it; it then returns one column and changes nothing. *)
Theorem CrossLayer_forward_returns_iff `{Externals}
        (name : string) (input_dim hidden_dim : nat) (pe de : Tensor Q) (n pd dd : nat)
        (w : World) :
  shape pe = [n; pd] ->
  shape de = [n; dd] ->
  let self := CrossLayer_init name input_dim hidden_dim in
  ((exists c w', CrossLayer_forward self pe de w = (Ok c, w'))
   <-> input_dim = Nat.max pd dd * 3)
  /\ (forall c w', CrossLayer_forward self pe de w = (Ok c, w') ->
                   shape c = [n; 1] /\ w' = w).
Proof.
  intros Hp Hd self.
  destruct (CrossLayer_forward_padded self pe de n pd dd w Hp Hd) as (c0 & Hs & ->).
  destruct (decide (input_dim = Nat.max pd dd * 3)) as [->|Hne].
  - destruct (linear_returns (cl_fc1 self) c0 n w Hs) as (x1 & H1 & Hs1).
    destruct (linear_returns (cl_fc2 self) (relu x1) n w Hs1) as (x2 & H2 & Hs2).
    destruct (linear_returns (cl_fc3 self) (relu x2) n w Hs2) as (x3 & H3 & Hs3).
    assert (bind (linear (cl_fc1 self) c0)
                 (fun x => bind (linear (cl_fc2 self) (relu x))
                                (fun x => linear (cl_fc3 self) (relu x))) w
            = (Ok x3, w)) as Hrun.
    { unfold bind at 1. rewrite H1. unfold bind at 1. by rewrite H2. }
    rewrite Hrun. split.
    + split; [done|]. eauto.
    + intros c w' [= <- <-]. done.
  - destruct (linear_raises (cl_fc1 self) c0 n _ w Hs) as (e & Hraise).
    { intros Heq. apply Hne. by rewrite Heq. }
    unfold bind at 1 3. rewrite Hraise. split.
    + split; [by intros (c & w' & ?)|done].
    + by intros c w' ?.
Qed.

Lemma CrossLayer_forward_returns_iff_witness :
  exists c w',
    @CrossLayer_forward small_externals (cross_layer small_model)
                        (mkTensor [2; 2] [[1; 1]; [1; 1]]%Q) (mkTensor [2; 1] [[1]; [1]]%Q)
                        small_world
    = (Ok c, w').
Proof.
  apply (@CrossLayer_forward_returns_iff small_externals "cross_layer" 6 1
           (mkTensor [2; 2] [[1; 1]; [1; 1]]%Q) (mkTensor [2; 1] [[1]; [1]]%Q) 2 2 1
           small_world eq_refl eq_refl).
  reflexivity.
Defined.

(** ** The bilinear pooling layer *)

(** X19: the product that [BilinearPoolingLayer.forward] takes is one number
    per row, not the [hidden_dim] by [hidden_dim] outer product its last
    layer is built for: on embeddings of the layer's widths with the same
    positive number of rows, it returns exactly when [hidden_dim] is 1, and
    then one column. *)
Theorem BilinearPoolingLayer_forward_returns_iff `{Externals}
        (name : string) (protein_dim drug_dim hidden_dim : nat)
        (protein drug : Tensor Q) (n : nat) (w : World) :
  shape protein = [n; protein_dim] ->
  shape drug = [n; drug_dim] ->
  n <> 0 ->
  let self := BilinearPoolingLayer_init name protein_dim drug_dim hidden_dim in
  ((exists y w', BilinearPoolingLayer_forward self protein drug w = (Ok y, w'))
   <-> hidden_dim = 1)
  /\ (forall y w', BilinearPoolingLayer_forward self protein drug w = (Ok y, w') ->
                   shape y = [n; 1] /\ w' = w).
Proof.
  intros Hp Hd Hn self. unfold BilinearPoolingLayer_forward.
  destruct (linear_returns (protein_linear self) protein n w Hp) as (pp & Hpp & Hsp).
  destruct (linear_returns (drug_linear self) drug n w Hd) as (dp & Hdp & Hsd).
  rewrite (bind_returns _ _ pp w w Hpp), (bind_returns _ _ dp w w Hdp).
  simpl in Hsp, Hsd.
  assert (exists c, matmul_unsqueezed pp dp = Ok c /\ shape c = [n; 1; 1]) as (c & Hc & Hsc).
  { unfold matmul_unsqueezed. rewrite Hsp, Hsd. unfold bdim.
    rewrite !decide_True by done. eauto. }
  rewrite Hc, bind_lift_Ok.
  assert (exists flat, view_rows c = Ok flat /\ shape flat = [n; 1]) as (flat & Hv & Hsf).
  { unfold view_rows. rewrite Hsc. destruct n as [|n]; [done|]. eauto. }
  rewrite Hv, bind_lift_Ok.
  destruct (decide (hidden_dim = 1)) as [->|Hne].
  - destruct (linear_returns (bp_fc self) flat n w Hsf) as (y & Hy & Hsy).
    rewrite Hy. split.
    + split; [done|eauto].
    + by intros ? ? [= <- <-].
  - destruct (linear_raises (bp_fc self) flat n 1 w Hsf) as (e & He).
    { simpl. nia. }
    rewrite He. split.
    + split; [by intros (? & ? & ?)|done].
    + by intros ? ? ?.
Qed.

Lemma BilinearPoolingLayer_forward_returns_iff_witness :
  exists y w',
    @BilinearPoolingLayer_forward small_externals
      (BilinearPoolingLayer_init "bilinear" 2 1 1)
      (mkTensor [2; 2] [[1; 1]; [1; 1]]%Q) (mkTensor [2; 1] [[1]; [1]]%Q) small_world
    = (Ok y, w').
Proof.
  apply (@BilinearPoolingLayer_forward_returns_iff small_externals "bilinear" 2 1 1
           (mkTensor [2; 2] [[1; 1]; [1; 1]]%Q) (mkTensor [2; 1] [[1]; [1]]%Q) 2
           small_world eq_refl eq_refl);
    [lia | reflexivity].
Defined.

(** ** The training log *)

Lemma metrics_dict_items (m : Metrics) :
  getitem (metrics_dict m) "MSE" = inr (MSE m)
  /\ getitem (metrics_dict m) "RMSE" = inr (RMSE m)
  /\ getitem (metrics_dict m) "R^2" = inr (R2 m)
  /\ getitem (metrics_dict m) "CI" = inr (CI m)
  /\ getitem (metrics_dict m) "R²" = inl (mkKeyError "R²").
Proof. repeat split; reflexivity. Qed.

(** X20: [log_file] reads the key [R²], and the dict of [compute_metrics]
    has the key [R^2]: called with that dict, [log_file] raises [KeyError]
    and has written nothing, the file being created if it was not there.
    With the dict that the main loop builds from it, [log_file] appends one
    line that ends in a newline and holds the three metrics it names; the
    concordance index is not logged. *)
Theorem log_file_key_mismatch
        (m : Metrics) (epoch : Z) (train_loss test_loss : pyfloat) (file_path : string)
        (texts : gmap string string) :
  let old := default EmptyString (texts !! file_path) in
  log_file epoch train_loss test_loss (metrics_dict m) file_path texts
  = (Some (mkKeyError "R²"), <[file_path := old]> texts)
  /\ exists metrics,
      main_metrics (metrics_dict m) = inr metrics
      /\ log_file epoch train_loss test_loss metrics file_path texts
         = (None,
            <[file_path :=
                old +:+ ("Epoch " +:+ pretty epoch
                           +:+ ": Train Loss = " +:+ format_4f train_loss
                           +:+ ", Test Loss = " +:+ format_4f test_loss
                           +:+ ", MSE = " +:+ format_4f (MSE m)
                           +:+ ", RMSE = " +:+ format_4f (RMSE m)
                           +:+ ", R² = " +:+ format_4f (R2 m) +:+ newline)]> texts).
Proof.
  intros old.
  destruct (metrics_dict_items m) as (Hmse & Hrmse & Hr2 & Hci & Hmissing).
  split.
  - unfold log_file, log_line. by rewrite Hmse, Hrmse, Hmissing.
  - eexists. split.
    + unfold main_metrics. rewrite Hmse, Hrmse, Hr2, Hci. reflexivity.
    + reflexivity.
Qed.
